(** * The in-memory dashboard store of influxdb and its structured errors

    A shallow embedding of

    - [errors.go]: the structured error type, its accessors and its JSON
      form;
    - [user_resource_mapping.go]: the validation of a mapping and the
      permissions it stands for;
    - the dashboard part of package [inmem] (loading, finding, creating,
      updating and deleting dashboards, and the cell operations), with
      dashboards and cells held through pointers as in the source;

    followed by the properties the design document of the store states about
    them, and by further properties the code shows. *)

From stdpp Require Import functions gmap strings list fin_maps.
From Stdlib Require Import NArith ZArith Ascii String Eqdep_dec.

Local Open Scope string_scope.

(** ** Package [influxdb] (imported as [platform]) *)

Module platform.

(** *** errors.go *)

Definition EInternal : string := "internal error".
Definition ENotFound : string := "not found".
Definition EConflict : string := "conflict".
Definition EInvalid : string := "invalid".
Definition EEmptyValue : string := "empty value".
Definition EUnavailable : string := "unavailable".
Definition EForbidden : string := "forbidden".
Definition EMethodNotAllowed : string := "method not allowed".

(** A non-nil value of Go's interface type [error].  [PError] is a non-nil
    [*Error] with its four fields ([Err] is again an interface value, [None]
    for nil); [NilPError] is a nil [*Error] held in a non-nil interface;
    [Opaque] is any other implementation of [error], such as the result of
    [errors.New]. *)
#[warnings="-register-all"]
Inductive error : Type :=
| PError (Code Msg Op : string) (Err : option error)
| NilPError
| Opaque (msg : string).

(** The recursion of [ErrorCode] once [err] is known not to be nil. *)
Fixpoint errorCode (err : error) : string :=
  match err with
  | Opaque _ => EInternal
  | NilPError => ""
  | PError Code _ _ Err =>
      if decide (Code = "") then
        match Err with
        | Some e' => errorCode e'
        | None => EInternal
        end
      else Code
  end.

(** [ErrorCode] on an interface value: nil has the empty code. *)
Definition ErrorCode (err : option error) : string :=
  match err with
  | None => ""
  | Some e => errorCode e
  end.

(** The pattern [&Error{Op: op, Err: err}] used by every operation that
    labels a failure of a callee. *)
Definition wrapOp (op : string) (err : error) : error :=
  PError "" "" op (Some err).

(** [wrapOps [op1; ...; opn] e] is [e] labelled by [opn] first and by [op1]
    last, so [op1] is the outermost wrapper. *)
Definition wrapOps (ops : list string) (err : error) : error :=
  foldr wrapOp err ops.

(** The recursion of [ErrorOp] once [err] is known not to be nil. *)
Fixpoint errorOp (err : error) : string :=
  match err with
  | Opaque _ => ""
  | NilPError => ""
  | PError _ _ Op Err =>
      if decide (Op = "") then
        match Err with
        | Some e' => errorOp e'
        | None => ""
        end
      else Op
  end.

Definition ErrorOp (err : option error) : string :=
  match err with
  | None => ""
  | Some e => errorOp e
  end.

Definition internalErrorMessage : string := "An internal error has occurred.".

(** The recursion of [ErrorMessage] once [err] is known not to be nil. *)
Fixpoint errorMessage (err : error) : string :=
  match err with
  | Opaque _ => internalErrorMessage
  | NilPError => ""
  | PError _ Msg _ Err =>
      if decide (Msg = "") then
        match Err with
        | Some e' => errorMessage e'
        | None => internalErrorMessage
        end
      else Msg
  end.

Definition ErrorMessage (err : option error) : string :=
  match err with
  | None => ""
  | Some e => errorMessage e
  end.

(** The method [Error] of the interface.  On an [*Error] it is the method
    of errors.go, which reads [e.Op] first and so panics on a nil pointer
    ([None]); on any other error it is the text that error gives. *)
Fixpoint Error_Error (e : error) : option string :=
  match e with
  | Opaque msg => Some msg
  | NilPError => None
  | PError Code Msg Op Err =>
      let b := if decide (Op = "") then "" else Op ++ ": " in
      match Err with
      | Some e' =>
          match Error_Error e' with
          | Some text => Some (b ++ text)
          | None => None
          end
      | None =>
          let b :=
            if decide (Code = "") then b
            else b ++ "<" ++ Code ++ ">" ++ (if decide (Msg = "") then "" else " ") in
          Some (b ++ Msg)
      end
  end.

(** No nil [*Error] is held anywhere in the chain of [e]. *)
Fixpoint nilFree (e : error) : bool :=
  match e with
  | Opaque _ => true
  | NilPError => false
  | PError _ _ _ (Some e') => nilFree e'
  | PError _ _ _ None => true
  end.

(** What [encoding/json] leaves in an [interface{}]: a string, a map for an
    object (listed by its keys, none of them twice), or a value of another
    type. *)
#[warnings="-register-all"]
Inductive jvalue : Type :=
| JString (s : string)
| JObject (fields : list (string * jvalue))
| JOther.

(** [m[key]] on such a map. *)
Fixpoint jfield (key : string) (fields : list (string * jvalue)) : option jvalue :=
  match fields with
  | [] => None
  | (k, v) :: fields' => if decide (k = key) then Some v else jfield key fields'
  end.

(** [m[key].(string)], with the zero value when the key is missing or its
    value is not a string. *)
Definition jstring (key : string) (fields : list (string * jvalue)) : string :=
  match jfield key fields with
  | Some (JString s) => s
  | _ => ""
  end.

(** The document [MarshalJSON] writes, as [json.Unmarshal] reads it back
    into an [interface{}]: the fields of [errEncode] in their order, empty
    ones left out where the tag says [omitempty]; a wrapped [*Error] is
    written through its own [MarshalJSON], any other wrapped error as the
    string its [Error] method gives.  Strings are taken to be valid UTF-8,
    which [encoding/json] carries unchanged.  A nil [*Error] in the chain
    makes [MarshalJSON] panic ([None]). *)
Fixpoint Error_MarshalJSON (e : error) : option jvalue :=
  match e with
  | Opaque msg => Some (JString msg)
  | NilPError => None
  | PError Code Msg Op Err =>
      let fields :=
        ([("code", JString Code)]
         ++ (if decide (Msg = "") then [] else [("message", JString Msg)])
         ++ (if decide (Op = "") then [] else [("op", JString Op)]))%list in
      match Err with
      | None => Some (JObject fields)
      | Some e' =>
          match Error_MarshalJSON e' with
          | Some j => Some (JObject (fields ++ [("error", j)])%list)
          | None => None
          end
      end
  end.

(** [decodeInternalError]; its argument is [None] for a nil interface. *)
Fixpoint decodeInternalError_value (target : jvalue) : option error :=
  match target with
  | JString errStr => Some (Opaque errStr)
  | JObject internalErrMap =>
      Some (PError (jstring "code" internalErrMap)
                   (jstring "message" internalErrMap)
                   (jstring "op" internalErrMap)
                   ((fix field (fields : list (string * jvalue)) : option error :=
                       match fields with
                       | [] => None
                       | (k, v) :: fields' =>
                           if decide (k = "error") then decodeInternalError_value v
                           else field fields'
                       end) internalErrMap))
  | JOther => None
  end.

Definition decodeInternalError (target : option jvalue) : option error :=
  match target with
  | Some v => decodeInternalError_value v
  | None => None
  end.

(** [UnmarshalJSON] on a document that is an object: the three strings and
    the decoded cause.  On any other document [json.Unmarshal] fails and
    the fields are the zero values. *)
Definition Error_UnmarshalJSON (b : jvalue) : error :=
  match b with
  | JObject fields =>
      PError (jstring "code" fields) (jstring "message" fields)
        (jstring "op" fields) (decodeInternalError (jfield "error" fields))
  | _ => PError "" "" "" None
  end.

(** *** Identifiers

    Modelled from the spec: the declaration of [ID] is not part of the
    sources at hand.  An [ID] is a fixed-width (64-bit) unsigned value; the
    zero value is the invalid ID; the string encoding is sixteen lowercase
    hexadecimal digits (the tests render [ID(100)] as [0000000000000064]),
    and the invalid ID has no encoding (it renders as the empty string). *)

Record ID : Type := MkID {
  ID_val : N;
  ID_range : (ID_val <? 2 ^ 64)%N = true
}.

Definition InvalidID : ID := MkID 0 eq_refl.

Definition ID_Valid (id : ID) : bool := negb (ID_val id =? 0)%N.

Definition hexdigit (n : N) : ascii :=
  match n with
  | 0 => "0" | 1 => "1" | 2 => "2" | 3 => "3"
  | 4 => "4" | 5 => "5" | 6 => "6" | 7 => "7"
  | 8 => "8" | 9 => "9" | 10 => "a" | 11 => "b"
  | 12 => "c" | 13 => "d" | 14 => "e" | _ => "f"
  end%N%char.

(** The [w] low hexadecimal digits of [n], most significant first, in front
    of [acc]. *)
Fixpoint hex_acc (w : nat) (n : N) (acc : string) : string :=
  match w with
  | O => acc
  | S w' => hex_acc w' (n / 16)%N (String (hexdigit (n mod 16)%N) acc)
  end.

Definition ID_String (id : ID) : string :=
  if ID_Valid id then hex_acc 16 (ID_val id) "" else "".

(** [==] on identifiers compares the numbers. *)
#[export] Instance ID_eq_dec : EqDecision ID.
Proof.
  intros [a Ha] [b Hb]. destruct (decide (a = b)) as [->|Hne].
  - left. f_equal. apply UIP_dec, Bool.bool_dec.
  - right. intros [= Hab]. exact (Hne Hab).
Defined.

(** *** Dashboards, cells and views

    Modelled from the spec: the declarations of these structures are not
    part of the sources at hand; the fields are the ones the operations of
    package [inmem] read and write. *)

Definition Time : Type := Z.

Record Cell : Type := MkCell {
  Cell_ID : ID;
  Cell_ViewID : ID;
  Cell_X : Z;
  Cell_Y : Z;
  Cell_W : Z;
  Cell_H : Z
}.

(** Addresses of [Cell] objects.  A dashboard holds its cells as a slice
    of [*Cell], and the cell operations take and return [*Cell]; none of
    these pointers is taken to be nil. *)
Definition cloc : Type := positive.

Record DashboardMeta : Type := MkDashboardMeta {
  CreatedAt : Time;
  UpdatedAt : Time
}.

Record Dashboard : Type := MkDashboard {
  Dashboard_ID : ID;
  Dashboard_Name : string;
  Dashboard_Description : string;
  Cells : list cloc;
  Meta : DashboardMeta
}.

Record View : Type := MkView {
  View_ID : ID;
  View_Name : string
}.

Record Organization : Type := MkOrganization {
  Organization_ID : ID;
  Organization_Name : string
}.

Record Bucket : Type := MkBucket {
  Bucket_ID : ID;
  Bucket_OrganizationID : ID;
  Bucket_Name : string
}.

Record User : Type := MkUser {
  User_ID : ID;
  User_Name : string
}.

Record TelegrafConfig : Type := MkTelegrafConfig {
  TelegrafConfig_ID : ID;
  TelegrafConfig_Name : string
}.

Record AddDashboardCellOptions : Type := MkAddDashboardCellOptions {
  UsingView : ID
}.

(** [IDs] is a slice of pointers in Go; none of them is taken to be nil. *)
Record DashboardFilter : Type := MkDashboardFilter {
  IDs : list ID
}.

Record FindOptions : Type := MkFindOptions {
  SortBy : string
}.

(** Modelled from the spec: a patch is known by its two methods only.
    [Valid] is the patch's own validation ([None] for nil); [Apply] edits
    its target in place and may fail, so it yields the target as it leaves
    it together with the error. *)
Record DashboardUpdate : Type := MkDashboardUpdate {
  DashboardUpdate_Valid : option error;
  DashboardUpdate_Apply : Dashboard -> Dashboard * option error
}.

Record CellUpdate : Type := MkCellUpdate {
  CellUpdate_Valid : option error;
  CellUpdate_Apply : Cell -> Cell * option error
}.

Definition ErrDashboardNotFound : string := "dashboard not found".
Definition ErrCellNotFound : string := "cell not found".
Definition ErrViewNotFound : string := "view not found".

Definition OpFindDashboardByID : string := "FindDashboardByID".
Definition OpFindDashboards : string := "FindDashboards".
Definition OpCreateDashboard : string := "CreateDashboard".
Definition OpUpdateDashboard : string := "UpdateDashboard".
Definition OpDeleteDashboard : string := "DeleteDashboard".
Definition OpAddDashboardCell : string := "AddDashboardCell".
Definition OpRemoveDashboardCell : string := "RemoveDashboardCell".
Definition OpUpdateDashboardCell : string := "UpdateDashboardCell".
Definition OpReplaceDashboardCells : string := "ReplaceDashboardCells".

(** Resource kinds are string constants; these are the kinds the design
    document lists. *)
Definition Resource : Type := string.
Definition AuthorizationsResource : Resource := "authorizations".
Definition BucketsResource : Resource := "buckets".
Definition DashboardsResource : Resource := "dashboards".
Definition OrgsResource : Resource := "orgs".
Definition SourcesResource : Resource := "sources".
Definition TasksResource : Resource := "tasks".
Definition TelegrafsResource : Resource := "telegrafs".
Definition UsersResource : Resource := "users".

(** *** user_resource_mapping.go *)

Definition ErrInvalidUserType : error := Opaque "unknown user type".
Definition ErrUserIDRequired : error := Opaque "user id is required".
Definition ErrResourceIDRequired : error := Opaque "resource id is required".

Definition UserType : Type := string.
Definition Owner : UserType := "owner".
Definition Member : UserType := "member".

Definition UserType_Valid (ut : UserType) : option error :=
  if decide (ut = Owner) then None
  else if decide (ut = Member) then None
  else Some ErrInvalidUserType.

Record UserResourceMapping : Type := MkUserResourceMapping {
  UserID : ID;
  Mapping_UserType : UserType;
  Mapping_Resource : Resource;
  ResourceID : ID
}.

(** Modelled from the spec: actions and permissions are declared outside
    the sources at hand; the tests show a permission to be an action, a
    resource kind and an optional ID, and [write] to be the text of
    [WriteAction]. *)
Definition Action : Type := string.
Definition ReadAction : Action := "read".
Definition WriteAction : Action := "write".

Record Permission : Type := MkPermission {
  Permission_Action : Action;
  Permission_Resource : Resource;
  Permission_ID : option ID
}.

Definition ownerActions : list Action := [WriteAction; ReadAction].
Definition memberActions : list Action := [ReadAction].

Section UserResourceMapping.

(** [Resource.Valid] and [NewPermissionAtID], whose bodies are not part of
    the sources at hand. *)
Variable Resource_Valid_error : Resource -> option error.
Variable NewPermissionAtID : ID -> Action -> Resource -> error + Permission.

Definition UserResourceMapping_Validate (m : UserResourceMapping) : option error :=
  if negb (ID_Valid (ResourceID m)) then Some ErrResourceIDRequired
  else if negb (ID_Valid (UserID m)) then Some ErrUserIDRequired
  else
    match UserType_Valid (Mapping_UserType m) with
    | Some err => Some err
    | None =>
        match Resource_Valid_error (Mapping_Resource m) with
        | Some err => Some err
        | None => None
        end
    end.

(** The loop of [ownerPerms] and [memberPerms] over the actions still to
    go, [ps] being the permissions collected so far. *)
Fixpoint permsLoop (m : UserResourceMapping) (actions : list Action)
    (ps : list Permission) : error + list Permission :=
  match actions with
  | [] => inr ps
  | a :: actions' =>
      match NewPermissionAtID (ResourceID m) a (Mapping_Resource m) with
      | inl err => inl err
      | inr p => permsLoop m actions' (ps ++ [p])%list
      end
  end.

Definition ownerPerms (m : UserResourceMapping) : error + list Permission :=
  permsLoop m ownerActions [].

Definition memberPerms (m : UserResourceMapping) : error + list Permission :=
  permsLoop m memberActions [].

Definition ToPermissions (m : UserResourceMapping) : error + list Permission :=
  if decide (Mapping_UserType m = Owner) then ownerPerms m
  else if decide (Mapping_UserType m = Member) then memberPerms m
  else inl ErrInvalidUserType.

End UserResourceMapping.

End platform.

(** ** Package [inmem] *)

Module inmem.
Import platform.

Definition OpPrefix : string := "inmem/".

(** Addresses of [Dashboard] objects.  The maps of the service hold
    [*platform.Dashboard] pointers, and the operations edit the object a
    pointer leads to before (or without) storing the pointer again, so the
    objects live in a heap of their own.  An address outside the heap plays
    the part of Go's nil pointer: reading or writing through it panics. *)
Definition loc : Type := positive.

(** What a [sync.Map] of the service may hold behind [interface{}].  Of the
    values other than dashboards only the type and the name are ever read,
    so they are kept by value. *)
Inductive value : Type :=
| VDashboard (d : loc)
| VView (v : View)
| VOrganization (o : Organization)
| VBucket (b : Bucket)
| VUser (u : User)
| VTelegrafConfig (t : TelegrafConfig).

(** The rendering of a value's dynamic type by the verb [%T]. *)
Definition typeName (i : value) : string :=
  match i with
  | VDashboard _ => "*influxdb.Dashboard"
  | VView _ => "*influxdb.View"
  | VOrganization _ => "*influxdb.Organization"
  | VBucket _ => "*influxdb.Bucket"
  | VUser _ => "*influxdb.User"
  | VTelegrafConfig _ => "*influxdb.TelegrafConfig"
  end.

(** The service: one keyed map per resource kind, the identifier generator
    and the clock (each an infinite supply with the number of values drawn
    so far), the heap of dashboard objects, and the store of cell objects:
    the cell every [*Cell] leads to.  A cell may be reached through several
    pointers at once, from one dashboard or from several and from the
    arguments of a call, and a write through one of them is seen through
    all. *)
Record Service : Type := MkService {
  dashboardKV : gmap string value;
  viewKV : gmap string value;
  organizationKV : gmap string value;
  bucketKV : gmap string value;
  userKV : gmap string value;
  telegrafConfigKV : gmap string value;
  labelKV : gmap string value;
  IDGenerator : nat -> ID;
  IDGenerator_calls : nat;
  time : nat -> Time;
  time_calls : nat;
  heap : gmap loc Dashboard;
  cells : cloc -> Cell
}.

Definition set_dashboardKV (m : gmap string value) (s : Service) : Service :=
  MkService m (viewKV s) (organizationKV s) (bucketKV s) (userKV s)
    (telegrafConfigKV s) (labelKV s) (IDGenerator s) (IDGenerator_calls s)
    (time s) (time_calls s) (heap s) (cells s).

Definition set_viewKV (m : gmap string value) (s : Service) : Service :=
  MkService (dashboardKV s) m (organizationKV s) (bucketKV s) (userKV s)
    (telegrafConfigKV s) (labelKV s) (IDGenerator s) (IDGenerator_calls s)
    (time s) (time_calls s) (heap s) (cells s).

Definition set_labelKV (m : gmap string value) (s : Service) : Service :=
  MkService (dashboardKV s) (viewKV s) (organizationKV s) (bucketKV s)
    (userKV s) (telegrafConfigKV s) m (IDGenerator s) (IDGenerator_calls s)
    (time s) (time_calls s) (heap s) (cells s).

Definition set_IDGenerator_calls (n : nat) (s : Service) : Service :=
  MkService (dashboardKV s) (viewKV s) (organizationKV s) (bucketKV s)
    (userKV s) (telegrafConfigKV s) (labelKV s) (IDGenerator s) n
    (time s) (time_calls s) (heap s) (cells s).

Definition set_time_calls (n : nat) (s : Service) : Service :=
  MkService (dashboardKV s) (viewKV s) (organizationKV s) (bucketKV s)
    (userKV s) (telegrafConfigKV s) (labelKV s) (IDGenerator s)
    (IDGenerator_calls s) (time s) n (heap s) (cells s).

Definition set_heap (h : gmap loc Dashboard) (s : Service) : Service :=
  MkService (dashboardKV s) (viewKV s) (organizationKV s) (bucketKV s)
    (userKV s) (telegrafConfigKV s) (labelKV s) (IDGenerator s)
    (IDGenerator_calls s) (time s) (time_calls s) h (cells s).

Definition set_cells (c : cloc -> Cell) (s : Service) : Service :=
  MkService (dashboardKV s) (viewKV s) (organizationKV s) (bucketKV s)
    (userKV s) (telegrafConfigKV s) (labelKV s) (IDGenerator s)
    (IDGenerator_calls s) (time s) (time_calls s) (heap s) c.

Definition set_Cell_ID (id : ID) (c : Cell) : Cell :=
  MkCell id (Cell_ViewID c) (Cell_X c) (Cell_Y c) (Cell_W c) (Cell_H c).

Definition set_Cell_ViewID (id : ID) (c : Cell) : Cell :=
  MkCell (Cell_ID c) id (Cell_X c) (Cell_Y c) (Cell_W c) (Cell_H c).

Definition set_Dashboard_ID (id : ID) (d : Dashboard) : Dashboard :=
  MkDashboard id (Dashboard_Name d) (Dashboard_Description d) (Cells d) (Meta d).

Definition set_Cells (cs : list cloc) (d : Dashboard) : Dashboard :=
  MkDashboard (Dashboard_ID d) (Dashboard_Name d) (Dashboard_Description d)
    cs (Meta d).

Definition set_CreatedAt (t : Time) (d : Dashboard) : Dashboard :=
  MkDashboard (Dashboard_ID d) (Dashboard_Name d) (Dashboard_Description d)
    (Cells d) (MkDashboardMeta t (UpdatedAt (Meta d))).

Definition set_UpdatedAt (t : Time) (d : Dashboard) : Dashboard :=
  MkDashboard (Dashboard_ID d) (Dashboard_Name d) (Dashboard_Description d)
    (Cells d) (MkDashboardMeta (CreatedAt (Meta d)) t).

(** *** Calls on the service

    A call runs on a service and either returns a value, returns a non-nil
    error, or panics; the first two leave a service behind, which in the
    case of an error may differ from the one the call started on. *)
Inductive outcome (A : Type) : Type :=
| Return (a : A) (s : Service)
| Fail (e : error) (s : Service)
| Panic.
Arguments Return {A} a s.
Arguments Fail {A} e s.
Arguments Panic {A}.

Definition M (A : Type) : Type := Service -> outcome A.

#[export] Instance M_ret : MRet M := fun A a s => Return a s.

#[export] Instance M_bind : MBind M := fun A B f m s =>
  match m s with
  | Return a s' => f a s'
  | Fail e s' => Fail e s'
  | Panic => Panic
  end.

Definition fail {A : Type} (e : error) : M A := fun s => Fail e s.
Definition panic {A : Type} : M A := fun _ => Panic.

(** [if err != nil { return &Error{Err: err, Op: op} }] around a call. *)
Definition labelled {A : Type} (op : string) (m : M A) : M A := fun s =>
  match m s with
  | Fail e s' => Fail (wrapOp op e) s'
  | r => r
  end.

(** [if err != nil { return err }] for a callee that yields an interface
    value rather than performing the return itself. *)
Definition check (err : option error) : M unit :=
  match err with
  | Some e => fail e
  | None => mret tt
  end.

Definition gets {A : Type} (f : Service -> A) : M A := fun s => Return (f s) s.
Definition modify (f : Service -> Service) : M unit := fun s => Return tt (f s).

(** Reading [*d]. *)
Definition deref (d : loc) : M Dashboard := fun s =>
  match heap s !! d with
  | Some dv => Return dv s
  | None => Panic
  end.

(** Writing fields of [*d]. *)
Definition assign (d : loc) (f : Dashboard -> Dashboard) : M unit :=
  dv ← deref d;
  modify (fun s => set_heap (<[d := f dv]> (heap s)) s).

(** Reading [*c] and writing fields of [*c], for a cell pointer [c]. *)
Definition derefCell (c : cloc) : M Cell := gets (fun s => cells s c).

Definition assignCell (c : cloc) (f : Cell -> Cell) : M unit :=
  modify (fun s => set_cells (<[c := f (cells s c)]> (cells s)) s).

(** [s.IDGenerator.ID()] *)
Definition IDGenerator_ID : M ID := fun s =>
  Return (IDGenerator s (IDGenerator_calls s))
         (set_IDGenerator_calls (S (IDGenerator_calls s)) s).

(** [s.time()] *)
Definition Service_time : M Time := fun s =>
  Return (time s (time_calls s)) (set_time_calls (S (time_calls s)) s).

(** *** Views

    Modelled from the spec: [PutView], [DeleteView] and
    [createViewIfNotExists] are called by the cell operations but their
    bodies are not part of the sources at hand.  [PutView] unconditionally
    creates or overwrites the view under its ID and never fails.
    [DeleteView] deletes the view under the given ID and fails, leaving the
    store as it is, when there is none.  [createViewIfNotExists] gives the
    cell a backing view: when the options name a view to be reused
    ([UsingView] is a valid ID), that view must exist and is not created
    again; otherwise a view with a fresh ID is created.  Either way the
    binding is written into the cell through the pointer. *)

Definition PutView (v : View) : M unit :=
  modify (fun s => set_viewKV (<[ID_String (View_ID v) := VView v]> (viewKV s)) s).

Definition DeleteView (id : ID) : M unit :=
  kv ← gets viewKV;
  match kv !! ID_String id with
  | None => fail (PError ENotFound ErrViewNotFound "" None)
  | Some _ => modify (fun s => set_viewKV (delete (ID_String id) (viewKV s)) s)
  end.

Definition createViewIfNotExists (cell : cloc) (opts : AddDashboardCellOptions)
  : M unit :=
  if ID_Valid (UsingView opts) then
    kv ← gets viewKV;
    match kv !! ID_String (UsingView opts) with
    | None => fail (PError ENotFound ErrViewNotFound "" None)
    | Some _ => assignCell cell (set_Cell_ViewID (UsingView opts))
    end
  else
    vid ← IDGenerator_ID;
    PutView (MkView vid "");;
    assignCell cell (set_Cell_ViewID vid).

(** *** Dashboards *)

Definition loadDashboard (id : ID) : M loc :=
  kv ← gets dashboardKV;
  match kv !! ID_String id with
  | None => fail (PError ENotFound ErrDashboardNotFound "" None)
  | Some (VDashboard d) => mret d
  | Some i =>
      fail (PError EInvalid ("type " ++ typeName i ++ " is not a dashboard") "" None)
  end.

Definition FindDashboardByID (id : ID) : M loc :=
  labelled (OpPrefix ++ OpFindDashboardByID) (loadDashboard id).

(** [filterDashboardFn]: the set it builds is kept as the list of its keys;
    the function it returns reads [d.ID] through the pointer only when the
    filter names some ID. *)
Definition filterDashboardFn (filter : DashboardFilter) (d : loc) : M bool :=
  if decide (0 < List.length (IDs filter)) then
    dv ← deref d;
    mret (bool_decide (ID_String (Dashboard_ID dv) ∈ ID_String <$> IDs filter))
  else mret true.

(** The visit of [dashboardKV.Range] in [FindDashboards], over the entries
    in the order the map yields them: a value that is not a dashboard ends
    the scan. *)
Fixpoint rangeDashboards (filterF : loc -> M bool)
    (kvs : list (string * value)) (ds : list loc) : M (list loc) :=
  match kvs with
  | [] => mret ds
  | (_, VDashboard d) :: kvs' =>
      keep ← filterF d;
      rangeDashboards filterF kvs' (if keep : bool then ds ++ [d] else ds)
  | _ :: _ => mret ds
  end.

Section FindDashboards.

(** [platform.SortDashboards], whose body is not part of the sources at
    hand: it reorders the slice of pointers by a field of the dashboards
    they lead to. *)
Variable SortDashboards : string -> gmap loc Dashboard -> list loc -> list loc.

Definition FindDashboards (filter : DashboardFilter) (opts : FindOptions)
  : M (list loc * nat) :=
  let op := OpPrefix ++ OpFindDashboards in
  match IDs filter with
  | [id] => fun s =>
      match FindDashboardByID id s with
      | Fail err s' =>
          if decide (ErrorCode (Some err) = ENotFound)
          then Return ([], 0) s'
          else Fail (wrapOp op err) s'
      | Return d s' =>
          match heap s' !! d with
          | None => Return ([], 0) s'
          | Some _ => Return ([d], 1) s'
          end
      | Panic => Panic
      end
  | _ =>
      kv ← gets dashboardKV;
      ds ← rangeDashboards (filterDashboardFn filter) (map_to_list kv) [];
      h ← gets heap;
      let ds := SortDashboards (SortBy opts) h ds in
      mret (ds, List.length ds)
  end.

End FindDashboards.

Definition PutDashboard (o : loc) : M unit :=
  ov ← deref o;
  modify (fun s =>
    set_dashboardKV (<[ID_String (Dashboard_ID ov) := VDashboard o]> (dashboardKV s)) s).

Definition PutDashboardWithMeta (d : loc) : M unit :=
  t ← Service_time;
  assign d (set_UpdatedAt t);;
  PutDashboard d.

Definition CreateDashboard (d : loc) : M unit :=
  id ← IDGenerator_ID;
  assign d (set_Dashboard_ID id);;
  t ← Service_time;
  assign d (set_CreatedAt t);;
  labelled OpCreateDashboard (PutDashboardWithMeta d).

Definition UpdateDashboard (id : ID) (upd : DashboardUpdate) : M loc :=
  let op := OpPrefix ++ OpUpdateDashboard in
  labelled op (check (DashboardUpdate_Valid upd));;
  d ← labelled op (FindDashboardByID id);
  dv ← deref d;
  assign d (fun _ => fst (DashboardUpdate_Apply upd dv));;
  labelled op (check (snd (DashboardUpdate_Apply upd dv)));;
  labelled op (PutDashboardWithMeta d);;
  mret d.

Section DeleteDashboard.

(** Modelled from the spec: the deletion of the label associations of a
    resource is an outside collaborator, known by its contract only: it is
    called on the service as it is at the time of the call, works on the
    label store, and may fail. *)
Variable deleteLabel : ID -> Service -> gmap string value * option error.

Definition Service_deleteLabel (id : ID) : M (option error) := fun s =>
  Return (snd (deleteLabel id s)) (set_labelKV (fst (deleteLabel id s)) s).

Definition DeleteDashboard (id : ID) : M unit :=
  let op := OpPrefix ++ OpDeleteDashboard in
  labelled op (FindDashboardByID id);;
  modify (fun s => set_dashboardKV (delete (ID_String id) (dashboardKV s)) s);;
  err ← Service_deleteLabel id;
  labelled op (check err).

End DeleteDashboard.

(** *** Cells *)

(** [cell] is the caller's [*Cell]: the generated ID, and then the view
    binding, are written into the object it leads to, whether or not that
    object is attached to a dashboard already, and the pointer itself is
    appended. *)
Definition AddDashboardCell (id : ID) (cell : cloc) (opts : AddDashboardCellOptions)
  : M unit :=
  let op := OpPrefix ++ OpAddDashboardCell in
  d ← labelled op (FindDashboardByID id);
  cid ← IDGenerator_ID;
  assignCell cell (set_Cell_ID cid);;
  labelled op (createViewIfNotExists cell opts);;
  assign d (fun dv => set_Cells (Cells dv ++ [cell]) dv);;
  labelled op (PutDashboardWithMeta d).

(** The view is put under the [ViewID] read through the pointer, and the
    pointer is appended. *)
Definition PutDashboardCell (id : ID) (cell : cloc) : M unit :=
  d ← FindDashboardByID id;
  c ← derefCell cell;
  PutView (MkView (Cell_ViewID c) "");;
  assign d (fun dv => set_Cells (Cells dv ++ [cell]) dv);;
  PutDashboard d.

(** The search loop of [RemoveDashboardCell] and [UpdateDashboardCell],
    over the cells as the loop reads them through the pointers of
    [d.Cells]: the index of the first cell with the given ID, [None] for
    [-1]. *)
Fixpoint cellIndex (cellID : ID) (cells : list Cell) : option nat :=
  match cells with
  | [] => None
  | cell :: cells' =>
      if decide (Cell_ID cell = cellID) then Some 0%nat
      else S <$> cellIndex cellID cells'
  end.

(** [d.Cells[idx]], which panics out of range. *)
Definition cellAt (d : loc) (idx : nat) : M cloc :=
  dv ← deref d;
  match Cells dv !! idx with
  | Some c => mret c
  | None => panic
  end.

Definition RemoveDashboardCell (dashboardID cellID : ID) : M unit :=
  let op := OpPrefix ++ OpRemoveDashboardCell in
  d ← labelled op (FindDashboardByID dashboardID);
  dv ← deref d;
  h ← gets cells;
  match cellIndex cellID (h <$> Cells dv) with
  | None => fail (PError ENotFound ErrCellNotFound op None)
  | Some idx =>
      cell ← cellAt d idx;
      c ← derefCell cell;
      DeleteView (Cell_ViewID c);;
      assign d (fun dv => set_Cells (take idx (Cells dv) ++ drop (S idx) (Cells dv)) dv);;
      PutDashboardWithMeta d
  end.

(** [upd.Apply(d.Cells[idx])] writes through the pointer, so the patch
    shows wherever that pointer is held. *)
Definition UpdateDashboardCell (dashboardID cellID : ID) (upd : CellUpdate)
  : M cloc :=
  let op := OpPrefix ++ OpUpdateDashboardCell in
  labelled op (check (CellUpdate_Valid upd));;
  d ← labelled op (FindDashboardByID dashboardID);
  dv ← deref d;
  h ← gets cells;
  match cellIndex cellID (h <$> Cells dv) with
  | None => fail (PError ENotFound ErrCellNotFound op None)
  | Some idx =>
      cell ← cellAt d idx;
      c ← derefCell cell;
      assignCell cell (fun _ => fst (CellUpdate_Apply upd c));;
      labelled op (check (snd (CellUpdate_Apply upd c)));;
      cell ← cellAt d idx;
      labelled op (PutDashboardWithMeta d);;
      mret cell
  end.

(** The map [ids] of [ReplaceDashboardCells]: the attached cells by the
    string of their ID; a later cell takes the place of an earlier one
    under the same key.  The map of the source holds the pointers; nothing
    is written through a cell while it is in use, so it is kept as the
    cells those pointers lead to. *)
Definition cellsByID (cells : list Cell) : gmap string Cell :=
  foldl (fun ids cell => <[ID_String (Cell_ID cell) := cell]> ids) ∅ cells.

(** The validation loop of [ReplaceDashboardCells], over the proposed cells
    as the loop reads them through the pointers of [cs]: the error of the
    first cell it rejects, [None] when it runs to its end. *)
Fixpoint replaceCheck (op : string) (ids : gmap string Cell) (cs : list Cell)
  : option error :=
  match cs with
  | [] => None
  | cell :: cs' =>
      if negb (ID_Valid (Cell_ID cell)) then
        Some (PError EInvalid "cannot provide empty cell id" op None)
      else
        match ids !! ID_String (Cell_ID cell) with
        | None =>
            Some (PError EConflict
                    "cannot replace cells that were not already present" op None)
        | Some cl =>
            if decide (Cell_ViewID cl ≠ Cell_ViewID cell) then
              Some (PError EInvalid "cannot update view id in replace" op None)
            else replaceCheck op ids cs'
        end
  end.

Definition ReplaceDashboardCells (id : ID) (cs : list cloc) : M unit :=
  let op := OpPrefix ++ OpReplaceDashboardCells in
  d ← labelled op (FindDashboardByID id);
  dv ← deref d;
  h ← gets cells;
  let ids := cellsByID (h <$> Cells dv) in
  check (replaceCheck op ids (h <$> cs));;
  assign d (set_Cells cs);;
  PutDashboardWithMeta d.

(** The cell [ReplaceDashboardCells] compares a proposed cell against: the
    attached cell with the given ID, the last one when several attached
    cells share it. *)
Fixpoint attachedCell (id : ID) (cells : list Cell) : option Cell :=
  match cells with
  | [] => None
  | cell :: cells' =>
      match attachedCell id cells' with
      | Some cl => Some cl
      | None => if decide (Cell_ID cell = id) then Some cell else None
      end
  end.

(** A proposed cell is rejected against the attached cells when its ID is
    the invalid ID, or not the ID of any attached cell, or its view is not
    the view of the attached cell with its ID. *)
Definition rejected (cells : list Cell) (c : Cell) : Prop :=
  ID_Valid (Cell_ID c) = false \/
  Cell_ID c ∉ Cell_ID <$> cells \/
  exists cl, attachedCell (Cell_ID c) cells = Some cl /\
             Cell_ViewID cl <> Cell_ViewID c.

(** The service [PutDashboardWithMeta] leaves behind when the object at [d]
    is [dv]: the clock has been read once, the object carries the time read
    as [UpdatedAt], and the pointer is stored under the ID of the object. *)
Definition putWithMeta (d : loc) (dv : Dashboard) (s : Service) : Service :=
  set_dashboardKV (<[ID_String (Dashboard_ID dv) := VDashboard d]> (dashboardKV s))
    (set_heap (<[d := set_UpdatedAt (time s (time_calls s)) dv]> (heap s))
       (set_time_calls (S (time_calls s)) s)).

(** The service [ReplaceDashboardCells] leaves behind when it replaces the
    cells of the dashboard [dv] at [d] by [cs]. *)
Definition replaced (d : loc) (dv : Dashboard) (cs : list cloc) (s : Service)
  : Service :=
  putWithMeta d (set_Cells cs dv) s.

(** The service [AddDashboardCell] has made of [s] when it calls
    [createViewIfNotExists]: the generator has given its next ID, and the
    ID is written into the cell. *)
Definition cellIDDrawn (cell : cloc) (s : Service) : Service :=
  set_cells
    (<[cell := set_Cell_ID (IDGenerator s (IDGenerator_calls s)) (cells s cell)]>
       (cells s))
    (set_IDGenerator_calls (S (IDGenerator_calls s)) s).

(** Every pointer in the dashboard map leads to an object, and is stored
    under the string of the ID that object carries. *)
Definition wellKeyed (s : Service) : Prop :=
  forall k d, dashboardKV s !! k = Some (VDashboard d) ->
    exists dv, heap s !! d = Some dv /\ ID_String (Dashboard_ID dv) = k.

(** The service an outcome leaves behind, if any. *)
Definition left_behind {A : Type} (r : outcome A) : option Service :=
  match r with
  | Return _ s => Some s
  | Fail _ s => Some s
  | Panic => None
  end.

(** *** Name resolution

    Modelled from the spec: the body of [Name] is not part of the sources at
    hand (its test is).  [Name] fails with [EInvalid] when the ID is not
    valid or the kind is not a recognized one; for a recognized kind whose
    entities carry no name (authorizations, tasks, sources) it returns the
    empty string without looking anything up; otherwise it loads the entity
    from the store of the kind, fails with [ENotFound] when there is none,
    and returns its name.  The messages of the errors are not fixed by the
    design document. *)

Definition Resource_Valid (r : Resource) : bool :=
  bool_decide (r ∈ [AuthorizationsResource; BucketsResource; DashboardsResource;
                   OrgsResource; SourcesResource; TasksResource;
                   TelegrafsResource; UsersResource]).

(** The kinds whose entities carry no name. *)
Definition nameless (r : Resource) : bool :=
  bool_decide (r ∈ [AuthorizationsResource; TasksResource; SourcesResource]).

(** The registry: the keyed map that holds the entities of a kind with
    names. *)
Definition kindStore (r : Resource) (s : Service) : gmap string value :=
  if decide (r = DashboardsResource) then dashboardKV s
  else if decide (r = BucketsResource) then bucketKV s
  else if decide (r = OrgsResource) then organizationKV s
  else if decide (r = TelegrafsResource) then telegrafConfigKV s
  else userKV s.

(** The entity [i] is of the kind [r] and has the name [n]; the name of a
    dashboard is read through the pointer. *)
Inductive hasName (s : Service) : Resource -> value -> string -> Prop :=
| hasName_dashboard d dv :
    heap s !! d = Some dv ->
    hasName s DashboardsResource (VDashboard d) (Dashboard_Name dv)
| hasName_bucket b :
    hasName s BucketsResource (VBucket b) (Bucket_Name b)
| hasName_organization o :
    hasName s OrgsResource (VOrganization o) (Organization_Name o)
| hasName_telegrafConfig t :
    hasName s TelegrafsResource (VTelegrafConfig t) (TelegrafConfig_Name t)
| hasName_user u :
    hasName s UsersResource (VUser u) (User_Name u).

(** Loading a named entity from the map of its kind: [nameOf] is the type
    assertion together with the name accessor. *)
Definition findName (r : Resource) (nameOf : value -> option string) (id : ID)
  : M string :=
  m ← gets (kindStore r);
  match m !! ID_String id with
  | None => fail (PError ENotFound "resource not found" "" None)
  | Some i =>
      match nameOf i with
      | Some n => mret n
      | None => fail (PError EInvalid ("unexpected type " ++ typeName i) "" None)
      end
  end.

Definition Name (resource : Resource) (id : ID) : M string :=
  if negb (ID_Valid id) then fail (PError EInvalid "invalid ID" "" None)
  else if negb (Resource_Valid resource) then
    fail (PError EInvalid "invalid resource type" "" None)
  else if nameless resource then mret ""
  else if decide (resource = DashboardsResource) then
    d ← FindDashboardByID id;
    dv ← deref d;
    mret (Dashboard_Name dv)
  else if decide (resource = BucketsResource) then
    findName BucketsResource
      (fun i => match i with VBucket b => Some (Bucket_Name b) | _ => None end) id
  else if decide (resource = OrgsResource) then
    findName OrgsResource
      (fun i => match i with VOrganization o => Some (Organization_Name o) | _ => None end) id
  else if decide (resource = TelegrafsResource) then
    findName TelegrafsResource
      (fun i => match i with VTelegrafConfig t => Some (TelegrafConfig_Name t) | _ => None end) id
  else
    findName UsersResource
      (fun i => match i with VUser u => Some (User_Name u) | _ => None end) id.

End inmem.

(** ** A sample service

    One dashboard with two cells and their views, further cell objects to
    hand to the operations, one bucket, and a generator and clock with
    known values; the examples below run on it. *)

Module sample.
Import platform inmem.

Definition idA : ID := MkID 1%N eq_refl.
Definition idB : ID := MkID 2%N eq_refl.
Definition idX : ID := MkID 3%N eq_refl.
Definition idV : ID := MkID 10%N eq_refl.
Definition idW : ID := MkID 11%N eq_refl.
Definition idD : ID := MkID 16%N eq_refl.
Definition idN : ID := MkID 32%N eq_refl.
Definition idM : ID := MkID 33%N eq_refl.

Definition cellA : Cell := MkCell idA idV 0%Z 0%Z 4%Z 4%Z.
Definition cellB : Cell := MkCell idB idW 4%Z 0%Z 4%Z 4%Z.
(** [cellA] moved, a cell with an unknown ID, and one with the zero ID. *)
Definition cellA' : Cell := MkCell idA idV 0%Z 4%Z 2%Z 2%Z.
Definition cellX : Cell := MkCell idX idV 0%Z 0%Z 1%Z 1%Z.
Definition cellZ : Cell := MkCell InvalidID idV 0%Z 0%Z 1%Z 1%Z.
(** [cellA] bound to another view. *)
Definition cellAW : Cell := MkCell idA idW 0%Z 0%Z 4%Z 4%Z.

(** The cell objects and their addresses; every other address leads to a
    blank cell, such as a caller hands to [AddDashboardCell]. *)
Definition pA : cloc := 1%positive.
Definition pB : cloc := 2%positive.
Definition pA' : cloc := 3%positive.
Definition pX : cloc := 4%positive.
Definition pZ : cloc := 5%positive.
Definition pAW : cloc := 6%positive.
Definition pNew : cloc := 7%positive.

Definition cellStore (p : cloc) : Cell :=
  match p with
  | 1 => cellA
  | 2 => cellB
  | 3 => cellA'
  | 4 => cellX
  | 6 => cellAW
  | _ => cellZ
  end%positive.

Definition dash : Dashboard :=
  MkDashboard idD "dashboard1" "" [pA; pB] (MkDashboardMeta 5%Z 5%Z).

Definition svc : Service :=
  MkService
    {[ID_String idD := VDashboard 1%positive]}
    (<[ID_String idV := VView (MkView idV "")]>
       {[ID_String idW := VView (MkView idW "")]})
    ∅
    {[ID_String idA := VBucket (MkBucket idA idB "b1")]}
    ∅ ∅ ∅
    (fun n => match n with O => idN | _ => idM end) 0%nat
    (fun n => (1000 + Z.of_nat n)%Z) 0%nat
    {[1%positive := dash]}
    cellStore.

(** The sample service with a generator that, like the mock generator of
    the tests, gives the same ID at every call: here the ID of [cellA]. *)
Definition svcDup : Service :=
  MkService (dashboardKV svc) (viewKV svc) (organizationKV svc) (bucketKV svc)
    (userKV svc) (telegrafConfigKV svc) (labelKV svc) (fun _ => idA) 0%nat
    (time svc) (time_calls svc) (heap svc) (cells svc).

(** The sample service with the cell at [pA] attached twice. *)
Definition svcTwice : Service :=
  set_heap {[1%positive := set_Cells [pA; pB; pA] dash]} svc.

(** A service whose dashboard map holds a bucket under [idD]. *)
Definition svcBad : Service :=
  set_dashboardKV {[ID_String idD := VBucket (MkBucket idD idB "b")]} svc.

(** Patches that fail their own validation. *)
Definition badDashboardUpdate : DashboardUpdate :=
  MkDashboardUpdate
    (Some (PError EInvalid "must update at least one attribute" "" None))
    (fun d => (d, None)).

Definition badCellUpdate : CellUpdate :=
  MkCellUpdate
    (Some (PError EInvalid "must update at least one attribute" "" None))
    (fun c => (c, None)).

(** A patch of a cell that moves it to the origin. *)
Definition moveCell : CellUpdate :=
  MkCellUpdate None
    (fun c => (MkCell (Cell_ID c) (Cell_ViewID c) 0%Z 0%Z (Cell_W c) (Cell_H c), None)).

(** Label deletion that always fails, and one that always succeeds. *)
Definition failingDeleteLabel (id : ID) (s : Service)
  : gmap string value * option error :=
  (labelKV s, Some (Opaque "label store is down")).

Definition quietDeleteLabel (id : ID) (s : Service)
  : gmap string value * option error :=
  (labelKV s, None).

(** Stand-ins for [Resource.Valid] and [NewPermissionAtID]: the eight kinds
    are valid, and a permission is made for a valid ID only. *)
Definition resourceValid (r : Resource) : option error :=
  if Resource_Valid r then None else Some (Opaque "invalid resource type").

Definition permissionAt (id : ID) (a : Action) (r : Resource) : error + Permission :=
  if ID_Valid id then inr (MkPermission a r (Some id))
  else inl (Opaque "invalid id").

Definition mapping : UserResourceMapping :=
  MkUserResourceMapping idA Owner BucketsResource idB.

(** A patch of a dashboard that renames it, and one that fails after it
    has renamed it. *)
Definition rename : DashboardUpdate :=
  MkDashboardUpdate None
    (fun d => (MkDashboard (Dashboard_ID d) "renamed" (Dashboard_Description d)
                 (Cells d) (Meta d), None)).

Definition renameThenFail : DashboardUpdate :=
  MkDashboardUpdate None
    (fun d => (MkDashboard (Dashboard_ID d) "renamed" (Dashboard_Description d)
                 (Cells d) (Meta d), Some (Opaque "patch failed"))).

(** A patch of a cell that fails after it has moved the cell. *)
Definition moveThenFail : CellUpdate :=
  MkCellUpdate None
    (fun c => (MkCell (Cell_ID c) (Cell_ViewID c) 0%Z 0%Z (Cell_W c) (Cell_H c),
               Some (Opaque "patch failed"))).

(** A second dashboard object, not stored yet. *)
Definition fresh : Dashboard :=
  MkDashboard InvalidID "dashboard2" "" [] (MkDashboardMeta 0%Z 0%Z).

Definition svc2 : Service :=
  set_heap (<[2%positive := fresh]> (heap svc)) svc.

End sample.

Import platform inmem.

(** * Properties *)

(** ** Identifiers and their strings *)

Lemma ID_eq (a b : ID) : ID_val a = ID_val b -> a = b.
Proof.
  destruct a as [a Ha], b as [b Hb]; simpl; intros ->.
  f_equal. apply UIP_dec, Bool.bool_dec.
Qed.

Lemma ID_Valid_true (id : ID) : ID_Valid id = true <-> ID_val id <> 0%N.
Proof.
  unfold ID_Valid. rewrite Bool.negb_true_iff, N.eqb_neq. reflexivity.
Qed.

Lemma ID_Valid_false (id : ID) : ID_Valid id = false <-> id = InvalidID.
Proof.
  unfold ID_Valid. rewrite Bool.negb_false_iff, N.eqb_eq. split.
  - intros H. apply ID_eq. exact H.
  - intros ->. reflexivity.
Qed.

Lemma hexdigit_inj (n m : N) :
  (n < 16)%N -> (m < 16)%N -> hexdigit n = hexdigit m -> n = m.
Proof.
  intros Hn Hm.
  destruct n as [|n]; [|do 4 (try destruct n as [n|n|]); try lia];
  (destruct m as [|m]; [|do 4 (try destruct m as [m|m|]); try lia]);
  simpl; intros H; first [reflexivity | discriminate H].
Qed.

Lemma hex_acc_length (w : nat) (n : N) (acc : string) :
  String.length (hex_acc w n acc) = (w + String.length acc)%nat.
Proof.
  revert n acc. induction w as [|w IH]; intros n acc; simpl.
  - reflexivity.
  - rewrite IH. simpl. lia.
Qed.

Lemma hex_acc_inj (w : nat) (n m : N) (acc acc' : string) :
  (n < 16 ^ N.of_nat w)%N -> (m < 16 ^ N.of_nat w)%N ->
  String.length acc = String.length acc' ->
  hex_acc w n acc = hex_acc w m acc' -> n = m /\ acc = acc'.
Proof.
  revert n m acc acc'. induction w as [|w IH]; intros n m acc acc' Hn Hm Hl H.
  - simpl in *. split; [lia | exact H].
  - rewrite Nat2N.inj_succ, N.pow_succ_r' in Hn, Hm. simpl in H.
    apply IH in H.
    + destruct H as [Hq Hs]. injection Hs as Hd Hacc.
      apply hexdigit_inj in Hd; try (apply N.mod_lt; lia).
      split; [|exact Hacc].
      rewrite (N.div_mod n 16), (N.div_mod m 16) by lia. congruence.
    + apply N.Div0.div_lt_upper_bound. lia.
    + apply N.Div0.div_lt_upper_bound. lia.
    + simpl. congruence.
Qed.

(** The string of an ID determines the ID. *)
Lemma ID_String_inj (a b : ID) : ID_String a = ID_String b -> a = b.
Proof.
  unfold ID_String. intros H.
  destruct (ID_Valid a) eqn:Va, (ID_Valid b) eqn:Vb.
  - apply ID_eq. apply hex_acc_inj in H; [tauto | | | reflexivity].
    + pose proof (ID_range a) as Ha. apply N.ltb_lt in Ha. exact Ha.
    + pose proof (ID_range b) as Hb. apply N.ltb_lt in Hb. exact Hb.
  - apply (f_equal String.length) in H. rewrite hex_acc_length in H. discriminate H.
  - apply (f_equal String.length) in H. rewrite hex_acc_length in H. discriminate H.
  - apply ID_Valid_false in Va, Vb. congruence.
Qed.

Example ID_String_100 : ID_String (MkID 100 eq_refl) = "0000000000000064".
Proof. reflexivity. Qed.

(** ** Running calls *)

Lemma bind_Return {A B : Type} (m : M A) (f : A -> M B) s a s' :
  m s = Return a s' -> (m ≫= f) s = f a s'.
Proof. unfold mbind, M_bind. intros ->. reflexivity. Qed.

Lemma bind_Fail {A B : Type} (m : M A) (f : A -> M B) s e s' :
  m s = Fail e s' -> (m ≫= f) s = Fail e s'.
Proof. unfold mbind, M_bind. intros ->. reflexivity. Qed.

Lemma bind_Panic {A B : Type} (m : M A) (f : A -> M B) s :
  m s = Panic -> (m ≫= f) s = Panic.
Proof. unfold mbind, M_bind. intros ->. reflexivity. Qed.

Lemma labelled_Return {A : Type} op (m : M A) s a s' :
  m s = Return a s' -> labelled op m s = Return a s'.
Proof. unfold labelled. intros ->. reflexivity. Qed.

Lemma labelled_Fail {A : Type} op (m : M A) s e s' :
  m s = Fail e s' -> labelled op m s = Fail (wrapOp op e) s'.
Proof. unfold labelled. intros ->. reflexivity. Qed.

(** What a successful bind is made of. *)
Lemma bind_Return_inv {A B : Type} (m : M A) (f : A -> M B) s b s2 :
  (m ≫= f) s = Return b s2 ->
  exists a s1, m s = Return a s1 /\ f a s1 = Return b s2.
Proof.
  unfold mbind, M_bind. destruct (m s) as [a s1| |]; try discriminate.
  intros H. exists a, s1. split; [reflexivity | exact H].
Qed.

Lemma labelled_Return_inv {A : Type} op (m : M A) s a s' :
  labelled op m s = Return a s' -> m s = Return a s'.
Proof. unfold labelled. destruct (m s); congruence. Qed.

Lemma deref_Some d dv s : heap s !! d = Some dv -> deref d s = Return dv s.
Proof. unfold deref. intros ->. reflexivity. Qed.

Lemma assign_Some d f dv s :
  heap s !! d = Some dv ->
  assign d f s = Return tt (set_heap (<[d := f dv]> (heap s)) s).
Proof.
  intros H. unfold assign. rewrite (bind_Return _ _ _ _ _ (deref_Some _ _ _ H)).
  reflexivity.
Qed.

(** ** Loading a dashboard *)

(** The three outcomes of [FindDashboardByID]; none of them changes the
    service. *)
Lemma FindDashboardByID_found id d s :
  dashboardKV s !! ID_String id = Some (VDashboard d) ->
  FindDashboardByID id s = Return d s.
Proof.
  intros H. unfold FindDashboardByID, loadDashboard, labelled, mbind, M_bind, gets.
  rewrite H. reflexivity.
Qed.

Lemma FindDashboardByID_absent id s :
  dashboardKV s !! ID_String id = None ->
  FindDashboardByID id s =
    Fail (wrapOp (OpPrefix ++ OpFindDashboardByID)
            (PError ENotFound ErrDashboardNotFound "" None)) s.
Proof.
  intros H. unfold FindDashboardByID, loadDashboard, labelled, mbind, M_bind, gets.
  rewrite H. reflexivity.
Qed.

Lemma FindDashboardByID_other id i s :
  dashboardKV s !! ID_String id = Some i ->
  (forall d, i <> VDashboard d) ->
  FindDashboardByID id s =
    Fail (wrapOp (OpPrefix ++ OpFindDashboardByID)
            (PError EInvalid ("type " ++ typeName i ++ " is not a dashboard") "" None)) s.
Proof.
  intros H Hi. unfold FindDashboardByID, loadDashboard, labelled, mbind, M_bind, gets.
  rewrite H. destruct i; try reflexivity. exfalso. eapply Hi. reflexivity.
Qed.

Lemma FindDashboardByID_Fail_state id e s s' :
  FindDashboardByID id s = Fail e s' -> s' = s.
Proof.
  unfold FindDashboardByID, loadDashboard, labelled, mbind, M_bind, gets, fail, mret, M_ret.
  destruct (dashboardKV s !! ID_String id) as [[]|]; intros [= _ <-]; reflexivity.
Qed.

Lemma FindDashboardByID_Return_inv id d s s' :
  FindDashboardByID id s = Return d s' ->
  s' = s /\ dashboardKV s !! ID_String id = Some (VDashboard d).
Proof.
  unfold FindDashboardByID, loadDashboard, labelled, mbind, M_bind, gets, fail, mret, M_ret.
  destruct (dashboardKV s !! ID_String id) as [[]|]; intros [= <- <-]; split; reflexivity.
Qed.

(** ** Storing a dashboard *)

Lemma PutDashboard_run d dv s :
  heap s !! d = Some dv ->
  PutDashboard d s
  = Return tt (set_dashboardKV
                 (<[ID_String (Dashboard_ID dv) := VDashboard d]> (dashboardKV s)) s).
Proof.
  intros H. unfold PutDashboard.
  rewrite (bind_Return _ _ _ _ _ (deref_Some _ _ _ H)). reflexivity.
Qed.

Lemma PutDashboardWithMeta_run d dv s :
  heap s !! d = Some dv ->
  PutDashboardWithMeta d s = Return tt (putWithMeta d dv s).
Proof.
  intros H. unfold PutDashboardWithMeta.
  rewrite (bind_Return _ _ s (time s (time_calls s))
             (set_time_calls (S (time_calls s)) s)) by reflexivity.
  rewrite (bind_Return _ _ _ tt _
             (assign_Some d (set_UpdatedAt (time s (time_calls s))) dv
                (set_time_calls (S (time_calls s)) s) H)).
  erewrite PutDashboard_run by (simpl; apply lookup_insert_eq).
  reflexivity.
Qed.

(** After [PutDashboardWithMeta] the object has the time the clock gave. *)
Lemma putWithMeta_heap d dv s :
  heap (putWithMeta d dv s) !! d
  = Some (set_UpdatedAt (time s (time_calls s)) dv).
Proof. unfold putWithMeta. simpl. apply lookup_insert_eq. Qed.

(** A key that led to the pointer still leads to it. *)
Lemma putWithMeta_dashboardKV d dv s k :
  dashboardKV s !! k = Some (VDashboard d) ->
  dashboardKV (putWithMeta d dv s) !! k = Some (VDashboard d).
Proof.
  intros H. unfold putWithMeta. simpl. rewrite lookup_insert.
  destruct (decide (ID_String (Dashboard_ID dv) = k)); [reflexivity | exact H].
Qed.

(** ** Error codes through operation labels *)

Lemma errorCode_wrapOp op e : errorCode (wrapOp op e) = errorCode e.
Proof. reflexivity. Qed.

Lemma errorCode_wrapOps ops e : errorCode (wrapOps ops e) = errorCode e.
Proof.
  induction ops as [|op ops IH]; simpl.
  - reflexivity.
  - exact IH.
Qed.

(** C8: in a chain of errors whose wrappers set only [Op] and [Err],
    [ErrorCode] is the code of the innermost error when that one is an
    [Error] with a non-empty code, and [EInternal] when the chain ends in
    an error of another type.  So the failure of [FindDashboardByID] on an
    unknown ID, a labelled [ENotFound], has the code [ENotFound], and the
    single-ID path of [FindDashboards] takes it for an empty result. *)
Theorem ErrorCode_through_labels :
  (forall ops code msg op,
     code <> "" ->
     ErrorCode (Some (wrapOps ops (PError code msg op None))) = code) /\
  (forall ops msg, ErrorCode (Some (wrapOps ops (Opaque msg))) = EInternal) /\
  (forall SortDashboards opts id s,
     dashboardKV s !! ID_String id = None ->
     exists root,
       FindDashboardByID id s =
         Fail (wrapOps [OpPrefix ++ OpFindDashboardByID] root) s /\
       ErrorCode (Some (wrapOps [OpPrefix ++ OpFindDashboardByID] root)) = ENotFound /\
       FindDashboards SortDashboards (MkDashboardFilter [id]) opts s
         = Return ([], 0%nat) s).
Proof.
  split; [|split].
  - intros ops code msg op Hcode. simpl. rewrite errorCode_wrapOps. simpl.
    destruct (decide (code = "")) as [E|_]; [contradiction | reflexivity].
  - intros ops msg. simpl. rewrite errorCode_wrapOps. reflexivity.
  - intros SortDashboards opts id s H.
    exists (PError ENotFound ErrDashboardNotFound "" None).
    split; [|split].
    + apply FindDashboardByID_absent, H.
    + reflexivity.
    + unfold FindDashboards. simpl. rewrite (FindDashboardByID_absent _ _ H).
      reflexivity.
Qed.

Lemma ErrorCode_through_labels_witness :
  ErrorCode (Some (wrapOps ["inmem/UpdateDashboard"; "inmem/FindDashboardByID"]
                     (PError ENotFound ErrDashboardNotFound "" None))) = ENotFound /\
  dashboardKV sample.svc !! ID_String sample.idX = None /\
  FindDashboards (fun _ _ ds => ds) (MkDashboardFilter [sample.idX])
    (MkFindOptions "") sample.svc = Return ([], 0%nat) sample.svc.
Proof.
  split; [|split].
  - apply (proj1 ErrorCode_through_labels). discriminate.
  - reflexivity.
  - destruct (proj2 (proj2 ErrorCode_through_labels) (fun _ _ ds => ds)
                (MkFindOptions "") sample.idX sample.svc eq_refl)
      as [root [_ [_ H]]].
    exact H.
Defined.

(** C5: with exactly one ID in the filter, [FindDashboards] is decided by
    [FindDashboardByID]: an unknown ID gives the empty sequence, count 0 and
    no error; a stored dashboard gives the one-element sequence and count 1;
    a failure with any code but [ENotFound], such as the [EInvalid] for a
    value that is not a dashboard, is returned to the caller under the label
    of [FindDashboards]. *)
Theorem FindDashboards_single_ID SortDashboards opts id s :
  (dashboardKV s !! ID_String id = None ->
     FindDashboards SortDashboards (MkDashboardFilter [id]) opts s
       = Return ([], 0%nat) s) /\
  (forall d dv,
     dashboardKV s !! ID_String id = Some (VDashboard d) ->
     heap s !! d = Some dv ->
     FindDashboards SortDashboards (MkDashboardFilter [id]) opts s
       = Return ([d], 1%nat) s) /\
  (forall e s',
     FindDashboardByID id s = Fail e s' ->
     ErrorCode (Some e) <> ENotFound ->
     FindDashboards SortDashboards (MkDashboardFilter [id]) opts s
       = Fail (wrapOp (OpPrefix ++ OpFindDashboards) e) s') /\
  (forall i,
     dashboardKV s !! ID_String id = Some i ->
     (forall d, i <> VDashboard d) ->
     exists e,
       FindDashboards SortDashboards (MkDashboardFilter [id]) opts s
         = Fail (wrapOp (OpPrefix ++ OpFindDashboards) e) s /\
       ErrorCode (Some e) = EInvalid).
Proof.
  assert (Hprop : forall e s',
     FindDashboardByID id s = Fail e s' ->
     ErrorCode (Some e) <> ENotFound ->
     FindDashboards SortDashboards (MkDashboardFilter [id]) opts s
       = Fail (wrapOp (OpPrefix ++ OpFindDashboards) e) s').
  { intros e s' H Hcode. unfold FindDashboards. cbn [IDs].
    rewrite H. destruct (decide (ErrorCode (Some e) = ENotFound)) as [E|_].
    - contradiction.
    - reflexivity. }
  split; [|split; [|split]].
  - intros H. unfold FindDashboards. cbn [IDs].
    rewrite (FindDashboardByID_absent _ _ H). reflexivity.
  - intros d dv H Hd. unfold FindDashboards. cbn [IDs].
    rewrite (FindDashboardByID_found _ _ _ H), Hd. reflexivity.
  - exact Hprop.
  - intros i H Hi. eexists. split.
    + apply Hprop.
      * apply (FindDashboardByID_other _ _ _ H Hi).
      * simpl. discriminate.
    + reflexivity.
Qed.

Lemma FindDashboards_single_ID_witness :
  FindDashboards (fun _ _ ds => ds) (MkDashboardFilter [sample.idX])
    (MkFindOptions "") sample.svc = Return ([], 0%nat) sample.svc /\
  FindDashboards (fun _ _ ds => ds) (MkDashboardFilter [sample.idD])
    (MkFindOptions "") sample.svc = Return ([1%positive], 1%nat) sample.svc /\
  exists e,
    FindDashboards (fun _ _ ds => ds) (MkDashboardFilter [sample.idD])
      (MkFindOptions "") sample.svcBad
      = Fail (wrapOp (OpPrefix ++ OpFindDashboards) e) sample.svcBad /\
    ErrorCode (Some e) = EInvalid.
Proof.
  split; [|split].
  - apply (FindDashboards_single_ID (fun _ _ ds => ds) (MkFindOptions "")
             sample.idX sample.svc). reflexivity.
  - apply (proj1 (proj2 (FindDashboards_single_ID (fun _ _ ds => ds)
             (MkFindOptions "") sample.idD sample.svc)) 1%positive sample.dash);
      reflexivity.
  - apply (proj2 (proj2 (proj2 (FindDashboards_single_ID (fun _ _ ds => ds)
             (MkFindOptions "") sample.idD sample.svcBad)))
             (VBucket (MkBucket sample.idD sample.idB "b"))).
    + reflexivity.
    + discriminate.
Defined.

(** C6: on a stored dashboard, [DeleteDashboard] removes the entry from the
    dashboard map first and calls label deletion on the service without it;
    when label deletion fails, its error comes back under the label of
    [DeleteDashboard] while the entry stays removed, so a later
    [FindDashboardByID] fails with [ENotFound].  When the lookup of the
    dashboard fails, the call fails with that error and the service is as
    before. *)
Theorem DeleteDashboard_no_rollback deleteLabel id s :
  (forall d,
     dashboardKV s !! ID_String id = Some (VDashboard d) ->
     let s1 := set_dashboardKV (delete (ID_String id) (dashboardKV s)) s in
     let s2 := set_labelKV (fst (deleteLabel id s1)) s1 in
     DeleteDashboard deleteLabel id s
       = match snd (deleteLabel id s1) with
         | Some e => Fail (wrapOp (OpPrefix ++ OpDeleteDashboard) e) s2
         | None => Return tt s2
         end /\
     dashboardKV s2 !! ID_String id = None /\
     exists e, FindDashboardByID id s2 = Fail e s2 /\
               ErrorCode (Some e) = ENotFound) /\
  (forall e s',
     FindDashboardByID id s = Fail e s' ->
     DeleteDashboard deleteLabel id s
       = Fail (wrapOp (OpPrefix ++ OpDeleteDashboard) e) s).
Proof.
  split.
  - intros d H s1 s2.
    assert (Hgone : dashboardKV s2 !! ID_String id = None).
    { subst s2 s1. simpl. apply lookup_delete_eq. }
    split; [|split].
    + unfold DeleteDashboard.
      rewrite (bind_Return _ _ s d s)
        by (apply labelled_Return, FindDashboardByID_found, H).
      rewrite (bind_Return _ _ s tt s1) by reflexivity.
      rewrite (bind_Return _ _ s1 (snd (deleteLabel id s1)) s2) by reflexivity.
      destruct (snd (deleteLabel id s1)); reflexivity.
    + exact Hgone.
    + eexists. split.
      * apply FindDashboardByID_absent, Hgone.
      * reflexivity.
  - intros e s' H. pose proof (FindDashboardByID_Fail_state _ _ _ _ H) as ->.
    unfold DeleteDashboard.
    apply bind_Fail, labelled_Fail, H.
Qed.

Lemma DeleteDashboard_no_rollback_witness :
  dashboardKV sample.svc !! ID_String sample.idD = Some (VDashboard 1%positive) /\
  DeleteDashboard sample.failingDeleteLabel sample.idD sample.svc
    = Fail (wrapOp (OpPrefix ++ OpDeleteDashboard) (Opaque "label store is down"))
        (set_dashboardKV (delete (ID_String sample.idD) (dashboardKV sample.svc))
           sample.svc) /\
  DeleteDashboard sample.quietDeleteLabel sample.idD sample.svc
    = Return tt
        (set_dashboardKV (delete (ID_String sample.idD) (dashboardKV sample.svc))
           sample.svc) /\
  DeleteDashboard sample.failingDeleteLabel sample.idX sample.svc
    = Fail (wrapOp (OpPrefix ++ OpDeleteDashboard)
              (wrapOp (OpPrefix ++ OpFindDashboardByID)
                 (PError ENotFound ErrDashboardNotFound "" None)))
        sample.svc.
Proof.
  split; [reflexivity | split; [|split]].
  - exact (proj1 (proj1 (DeleteDashboard_no_rollback sample.failingDeleteLabel
                           sample.idD sample.svc) 1%positive eq_refl)).
  - exact (proj1 (proj1 (DeleteDashboard_no_rollback sample.quietDeleteLabel
                           sample.idD sample.svc) 1%positive eq_refl)).
  - apply (proj2 (DeleteDashboard_no_rollback sample.failingDeleteLabel
                    sample.idX sample.svc) _ sample.svc).
    reflexivity.
Defined.

(** C10: [UpdateDashboard] and [UpdateDashboardCell] check the patch before
    they look anything up: when the patch fails its own validation, the call
    returns that error under its label, whatever the service holds and
    whether or not the dashboard or the cell exists, and the service is as
    before. *)
Theorem Update_validates_patch_first s :
  (forall id upd e,
     DashboardUpdate_Valid upd = Some e ->
     UpdateDashboard id upd s
       = Fail (wrapOp (OpPrefix ++ OpUpdateDashboard) e) s) /\
  (forall dashboardID cellID upd e,
     CellUpdate_Valid upd = Some e ->
     UpdateDashboardCell dashboardID cellID upd s
       = Fail (wrapOp (OpPrefix ++ OpUpdateDashboardCell) e) s).
Proof.
  split.
  - intros id upd e H. unfold UpdateDashboard.
    apply bind_Fail, labelled_Fail. rewrite H. reflexivity.
  - intros dashboardID cellID upd e H. unfold UpdateDashboardCell.
    apply bind_Fail, labelled_Fail. rewrite H. reflexivity.
Qed.

Lemma Update_validates_patch_first_witness :
  dashboardKV sample.svc !! ID_String sample.idX = None /\
  UpdateDashboard sample.idX sample.badDashboardUpdate sample.svc
    = Fail (wrapOp (OpPrefix ++ OpUpdateDashboard)
              (PError EInvalid "must update at least one attribute" "" None))
        sample.svc /\
  UpdateDashboardCell sample.idD sample.idX sample.badCellUpdate sample.svc
    = Fail (wrapOp (OpPrefix ++ OpUpdateDashboardCell)
              (PError EInvalid "must update at least one attribute" "" None))
        sample.svc.
Proof.
  split; [reflexivity | split].
  - apply (proj1 (Update_validates_patch_first sample.svc)). reflexivity.
  - apply (proj2 (Update_validates_patch_first sample.svc)). reflexivity.
Defined.

(** ** Replacing the cells of a dashboard *)

Lemma attachedCell_Some id cells cl :
  attachedCell id cells = Some cl -> Cell_ID cl = id /\ cl ∈ cells.
Proof.
  induction cells as [|c cells IH]; simpl; [discriminate|].
  destruct (attachedCell id cells) as [cl'|].
  - intros [= <-]. destruct (IH eq_refl) as [H1 H2].
    split; [exact H1 | apply list_elem_of_further, H2].
  - destruct (decide (Cell_ID c = id)) as [E|_]; [|discriminate].
    intros [= <-]. split; [exact E | apply list_elem_of_here].
Qed.

Lemma attachedCell_None id cells :
  attachedCell id cells = None <-> id ∉ Cell_ID <$> cells.
Proof.
  induction cells as [|c cells IH]; simpl.
  - split; [intros _; apply not_elem_of_nil | reflexivity].
  - rewrite not_elem_of_cons. destruct (attachedCell id cells) as [cl|].
    + split; [discriminate|]. intros [_ H]. apply IH in H. discriminate H.
    + destruct (decide (Cell_ID c = id)) as [E|E].
      * split; [discriminate|]. intros [H _]. congruence.
      * split; [|reflexivity]. intros _. split; [congruence | apply IH; reflexivity].
Qed.

Lemma foldl_cellsByID_lookup cells (m : gmap string Cell) id :
  foldl (fun ids cell => <[ID_String (Cell_ID cell) := cell]> ids) m cells
    !! ID_String id
  = match attachedCell id cells with
    | Some cl => Some cl
    | None => m !! ID_String id
    end.
Proof.
  revert m. induction cells as [|c cells IH]; intros m; simpl.
  - reflexivity.
  - rewrite IH. destruct (attachedCell id cells) as [cl|]; [reflexivity|].
    destruct (decide (Cell_ID c = id)) as [E|E].
    + rewrite E. apply lookup_insert_eq.
    + apply lookup_insert_ne. intros H. apply E, ID_String_inj, H.
Qed.

(** The map of [ReplaceDashboardCells] holds, under the string of an ID,
    the attached cell with that ID. *)
Lemma cellsByID_lookup cells id :
  cellsByID cells !! ID_String id = attachedCell id cells.
Proof.
  unfold cellsByID. rewrite foldl_cellsByID_lookup.
  destruct (attachedCell id cells); [reflexivity | apply lookup_empty].
Qed.

(** The validation loop passes exactly the lists without a rejected cell. *)
Lemma replaceCheck_None op cells cs :
  replaceCheck op (cellsByID cells) cs = None <->
  Forall (fun c => ~ rejected cells c) cs.
Proof.
  induction cs as [|c cs IH]; simpl.
  - split; [intros _; constructor | reflexivity].
  - rewrite Forall_cons, cellsByID_lookup. unfold rejected at 1.
    destruct (ID_Valid (Cell_ID c)) eqn:V; simpl.
    + destruct (attachedCell (Cell_ID c) cells) as [cl|] eqn:A.
      * destruct (decide (Cell_ViewID cl <> Cell_ViewID c)) as [E|E].
        -- split; [discriminate|]. intros [H _]. exfalso. apply H.
           right; right. exists cl. split; [reflexivity | exact E].
        -- rewrite IH. split; [|tauto]. intros H. split; [|exact H].
           intros [H1|[H1|[cl' [H1 H2]]]].
           ++ discriminate H1.
           ++ apply attachedCell_None in H1. congruence.
           ++ apply E. congruence.
      * split; [discriminate|]. intros [H _]. exfalso. apply H.
        right; left. apply attachedCell_None, A.
    + split; [discriminate|]. intros [H _]. exfalso. apply H. left. reflexivity.
Qed.

Lemma replaceCheck_app_passed op cells pre cs :
  Forall (fun c => ~ rejected cells c) pre ->
  replaceCheck op (cellsByID cells) (pre ++ cs)
  = replaceCheck op (cellsByID cells) cs.
Proof.
  induction pre as [|c pre IH]; intros H; [reflexivity|].
  apply Forall_cons in H. destruct H as [Hc Hpre].
  assert (H1 : replaceCheck op (cellsByID cells) [c] = None).
  { apply replaceCheck_None. constructor; [exact Hc | constructor]. }
  simpl in *. rewrite (IH Hpre).
  destruct (negb (ID_Valid (Cell_ID c))); [discriminate H1|].
  destruct (cellsByID cells !! ID_String (Cell_ID c)) as [cl|]; [|discriminate H1].
  destruct (decide (Cell_ViewID cl <> Cell_ViewID c)); [discriminate H1 | reflexivity].
Qed.

(** [ReplaceDashboardCells] on a stored dashboard: the validation loop,
    which reads the attached and the proposed cells through their
    pointers, decides between failing on the service as it is and
    replacing the cells. *)
Lemma ReplaceDashboardCells_run s id d dv cs :
  dashboardKV s !! ID_String id = Some (VDashboard d) ->
  heap s !! d = Some dv ->
  ReplaceDashboardCells id cs s
  = match replaceCheck (OpPrefix ++ OpReplaceDashboardCells)
            (cellsByID (cells s <$> Cells dv)) (cells s <$> cs) with
    | Some e => Fail e s
    | None => Return tt (replaced d dv cs s)
    end.
Proof.
  intros Hd Hdv. unfold ReplaceDashboardCells.
  rewrite (bind_Return _ _ s d s)
    by (apply labelled_Return, FindDashboardByID_found, Hd).
  rewrite (bind_Return _ _ s dv s) by (apply deref_Some, Hdv).
  rewrite (bind_Return _ _ s (cells s) s) by reflexivity.
  cbv zeta.
  destruct (replaceCheck _ _ (cells s <$> cs)) as [e|].
  - reflexivity.
  - rewrite (bind_Return _ _ s tt s) by reflexivity.
    rewrite (bind_Return _ _ _ _ _ (assign_Some d (set_Cells cs) dv s Hdv)).
    erewrite PutDashboardWithMeta_run by (simpl; apply lookup_insert_eq).
    unfold replaced, putWithMeta. simpl. rewrite insert_insert_eq. reflexivity.
Qed.

(** C1: [ReplaceDashboardCells] validates every proposed cell before it
    changes anything.  On a stored dashboard, when some cell of the list is
    rejected (invalid ID, ID of no attached cell, or another view than the
    attached cell has) the call returns an error and the service is exactly
    as before: the cells and the meta data of the dashboard and the view
    store included.  When no cell is rejected, the cells of the dashboard
    are the given list, its [UpdatedAt] is the time read from the clock,
    the dashboard is stored under its ID, and no cell object is written
    to. *)
Theorem ReplaceDashboardCells_atomic s id d dv cs :
  dashboardKV s !! ID_String id = Some (VDashboard d) ->
  heap s !! d = Some dv ->
  (Exists (rejected (cells s <$> Cells dv)) (cells s <$> cs) ->
     exists e, ReplaceDashboardCells id cs s = Fail e s) /\
  (Forall (fun c => ~ rejected (cells s <$> Cells dv) c) (cells s <$> cs) ->
     ReplaceDashboardCells id cs s = Return tt (replaced d dv cs s) /\
     heap (replaced d dv cs s) !! d
       = Some (set_UpdatedAt (time s (time_calls s)) (set_Cells cs dv)) /\
     dashboardKV (replaced d dv cs s) !! ID_String (Dashboard_ID dv)
       = Some (VDashboard d) /\
     cells (replaced d dv cs s) = cells s).
Proof.
  intros Hd Hdv. rewrite (ReplaceDashboardCells_run s id d dv cs Hd Hdv).
  split.
  - intros Hex.
    destruct (replaceCheck (OpPrefix ++ OpReplaceDashboardCells)
                (cellsByID (cells s <$> Cells dv)) (cells s <$> cs)) as [e|] eqn:Hc.
    + exists e. reflexivity.
    + apply replaceCheck_None in Hc. apply Exists_exists in Hex.
      destruct Hex as [c [Hin Hrej]].
      rewrite Forall_forall in Hc. exfalso. exact (Hc c Hin Hrej).
  - intros Hall.
    apply (replaceCheck_None (OpPrefix ++ OpReplaceDashboardCells)) in Hall.
    rewrite Hall. split; [reflexivity | split; [|split]].
    + apply putWithMeta_heap.
    + unfold replaced, putWithMeta. simpl. apply lookup_insert_eq.
    + reflexivity.
Qed.

Lemma ReplaceDashboardCells_atomic_witness :
  (exists e, ReplaceDashboardCells sample.idD [sample.pA'; sample.pX] sample.svc
               = Fail e sample.svc) /\
  ReplaceDashboardCells sample.idD [sample.pB; sample.pA'] sample.svc
    = Return tt (replaced 1%positive sample.dash [sample.pB; sample.pA']
                   sample.svc).
Proof.
  split.
  - apply (proj1 (ReplaceDashboardCells_atomic sample.svc sample.idD 1%positive
                    sample.dash [sample.pA'; sample.pX] eq_refl eq_refl)).
    apply Exists_cons_tl, Exists_cons_hd. right; left.
    apply attachedCell_None. reflexivity.
  - apply (proj2 (ReplaceDashboardCells_atomic sample.svc sample.idD
                    1%positive sample.dash [sample.pB; sample.pA']
                    eq_refl eq_refl)).
    apply (replaceCheck_None ""). reflexivity.
Defined.

(** The claim C2, read for every cell of the list and for each of its three
    conditions by itself, fails on the sample dashboard in two ways.  The
    list [[pX; pZ]] holds the cell [cellZ] with the invalid ID, and the
    call fails with [EConflict] for [cellX], which comes first, not with
    [EInvalid].  And the ID of [cellZ] is the ID of no attached cell, yet
    the call on [[pZ]] fails with [EInvalid] for the invalid ID, not with
    [EConflict]. *)
Lemma ReplaceDashboardCells_every_cell_counterexample :
  dashboardKV sample.svc !! ID_String sample.idD = Some (VDashboard 1%positive) /\
  heap sample.svc !! 1%positive = Some sample.dash /\
  cells sample.svc sample.pX = sample.cellX /\
  cells sample.svc sample.pZ = sample.cellZ /\
  sample.pZ ∈ [sample.pX; sample.pZ] /\
  ID_Valid (Cell_ID sample.cellZ) = false /\
  ReplaceDashboardCells sample.idD [sample.pX; sample.pZ] sample.svc
    = Fail (PError EConflict "cannot replace cells that were not already present"
              (OpPrefix ++ OpReplaceDashboardCells) None) sample.svc /\
  ~ (exists s',
       ReplaceDashboardCells sample.idD [sample.pX; sample.pZ] sample.svc
       = Fail (PError EInvalid "cannot provide empty cell id"
                 (OpPrefix ++ OpReplaceDashboardCells) None) s') /\
  (Cell_ID sample.cellZ ∉ Cell_ID <$> (cells sample.svc <$> Cells sample.dash)) /\
  ReplaceDashboardCells sample.idD [sample.pZ] sample.svc
    = Fail (PError EInvalid "cannot provide empty cell id"
              (OpPrefix ++ OpReplaceDashboardCells) None) sample.svc /\
  ~ (exists s',
       ReplaceDashboardCells sample.idD [sample.pZ] sample.svc
       = Fail (PError EConflict "cannot replace cells that were not already present"
                 (OpPrefix ++ OpReplaceDashboardCells) None) s').
Proof.
  assert (H : ReplaceDashboardCells sample.idD [sample.pX; sample.pZ] sample.svc
    = Fail (PError EConflict "cannot replace cells that were not already present"
              (OpPrefix ++ OpReplaceDashboardCells) None) sample.svc).
  { rewrite (ReplaceDashboardCells_run sample.svc sample.idD 1%positive
               sample.dash _ eq_refl eq_refl). reflexivity. }
  assert (H1 : ReplaceDashboardCells sample.idD [sample.pZ] sample.svc
    = Fail (PError EInvalid "cannot provide empty cell id"
              (OpPrefix ++ OpReplaceDashboardCells) None) sample.svc).
  { rewrite (ReplaceDashboardCells_run sample.svc sample.idD 1%positive
               sample.dash _ eq_refl eq_refl). reflexivity. }
  split; [reflexivity|]. split; [reflexivity|].
  split; [reflexivity|]. split; [reflexivity|].
  split; [apply list_elem_of_further, list_elem_of_here|].
  split; [reflexivity|]. split; [exact H|].
  split; [intros [s' H']; rewrite H in H'; discriminate H'|].
  split; [apply attachedCell_None; reflexivity|].
  split; [exact H1|].
  intros [s' H']. rewrite H1 in H'. discriminate H'.
Qed.

(** C2, amended: the error of [ReplaceDashboardCells] on a stored dashboard
    is the one of the first cell of the list that is rejected, and the three
    checks are made on it in this order: the invalid ID fails with
    [EInvalid] and "cannot provide empty cell id"; a valid ID of no attached
    cell fails with [EConflict] and "cannot replace cells that were not
    already present"; a valid ID of an attached cell with another view fails
    with [EInvalid] and "cannot update view id in replace". *)
Theorem ReplaceDashboardCells_first_rejected s id d dv pre c post :
  dashboardKV s !! ID_String id = Some (VDashboard d) ->
  heap s !! d = Some dv ->
  Forall (fun c' => ~ rejected (cells s <$> Cells dv) (cells s c')) pre ->
  (ID_Valid (Cell_ID (cells s c)) = false ->
     ReplaceDashboardCells id (pre ++ c :: post) s
     = Fail (PError EInvalid "cannot provide empty cell id"
               (OpPrefix ++ OpReplaceDashboardCells) None) s) /\
  (ID_Valid (Cell_ID (cells s c)) = true ->
   Cell_ID (cells s c) ∉ Cell_ID <$> (cells s <$> Cells dv) ->
     ReplaceDashboardCells id (pre ++ c :: post) s
     = Fail (PError EConflict "cannot replace cells that were not already present"
               (OpPrefix ++ OpReplaceDashboardCells) None) s) /\
  (forall cl,
   ID_Valid (Cell_ID (cells s c)) = true ->
   attachedCell (Cell_ID (cells s c)) (cells s <$> Cells dv) = Some cl ->
   Cell_ViewID cl <> Cell_ViewID (cells s c) ->
     ReplaceDashboardCells id (pre ++ c :: post) s
     = Fail (PError EInvalid "cannot update view id in replace"
               (OpPrefix ++ OpReplaceDashboardCells) None) s).
Proof.
  intros Hd Hdv Hpre.
  rewrite (ReplaceDashboardCells_run s id d dv _ Hd Hdv).
  rewrite fmap_app, fmap_cons.
  rewrite (replaceCheck_app_passed _ _ _ _
             (proj2 (Forall_fmap (cells s)
                       (fun c0 => ~ rejected (cells s <$> Cells dv) c0) pre) Hpre)).
  simpl.
  rewrite cellsByID_lookup.
  split; [|split].
  - intros ->. reflexivity.
  - intros -> H. apply attachedCell_None in H. rewrite H. reflexivity.
  - intros cl -> H Hv. rewrite H. simpl.
    destruct (decide (Cell_ViewID cl <> Cell_ViewID (cells s c))) as [_|E];
      [reflexivity | contradiction].
Qed.

Lemma ReplaceDashboardCells_first_rejected_witness :
  ReplaceDashboardCells sample.idD [sample.pB; sample.pZ; sample.pX] sample.svc
    = Fail (PError EInvalid "cannot provide empty cell id"
              (OpPrefix ++ OpReplaceDashboardCells) None) sample.svc /\
  ReplaceDashboardCells sample.idD [sample.pB; sample.pX; sample.pZ] sample.svc
    = Fail (PError EConflict "cannot replace cells that were not already present"
              (OpPrefix ++ OpReplaceDashboardCells) None) sample.svc /\
  ReplaceDashboardCells sample.idD [sample.pB; sample.pAW] sample.svc
    = Fail (PError EInvalid "cannot update view id in replace"
              (OpPrefix ++ OpReplaceDashboardCells) None) sample.svc.
Proof.
  assert (Hpre : Forall (fun c' => ~ rejected (cells sample.svc <$> Cells sample.dash)
                                     (cells sample.svc c')) [sample.pB]).
  { apply (Forall_fmap (cells sample.svc)
             (fun c => ~ rejected (cells sample.svc <$> Cells sample.dash) c)).
    apply (replaceCheck_None ""). reflexivity. }
  split; [|split].
  - apply (proj1 (ReplaceDashboardCells_first_rejected sample.svc sample.idD
             1%positive sample.dash [sample.pB] sample.pZ [sample.pX]
             eq_refl eq_refl Hpre)).
    reflexivity.
  - apply (proj1 (proj2 (ReplaceDashboardCells_first_rejected sample.svc sample.idD
             1%positive sample.dash [sample.pB] sample.pX [sample.pZ]
             eq_refl eq_refl Hpre))).
    + reflexivity.
    + apply attachedCell_None. reflexivity.
  - apply (proj2 (proj2 (ReplaceDashboardCells_first_rejected sample.svc sample.idD
             1%positive sample.dash [sample.pB] sample.pAW []
             eq_refl eq_refl Hpre)) sample.cellA).
    + reflexivity.
    + reflexivity.
    + discriminate.
Defined.

(** C9: [ReplaceDashboardCells] does not touch the view store, whether it
    fails or succeeds.  When it succeeds on a stored dashboard, the cells of
    the dashboard are the given list, so an attached cell whose ID the list
    leaves out is no longer among the cells of the dashboard, while the view
    it was bound to is stored as before: no view is created or deleted. *)
Theorem ReplaceDashboardCells_keeps_views s id d dv cs :
  dashboardKV s !! ID_String id = Some (VDashboard d) ->
  heap s !! d = Some dv ->
  (forall e s', ReplaceDashboardCells id cs s = Fail e s' -> viewKV s' = viewKV s) /\
  (forall s',
     ReplaceDashboardCells id cs s = Return tt s' ->
     viewKV s' = viewKV s /\
     exists dv',
       heap s' !! d = Some dv' /\ Cells dv' = cs /\
       forall c, c ∈ Cells dv ->
         Cell_ID (cells s c) ∉ Cell_ID <$> (cells s <$> cs) ->
         cells s' c = cells s c /\
         (Cell_ID (cells s' c) ∉ Cell_ID <$> (cells s' <$> Cells dv')) /\
         viewKV s' !! ID_String (Cell_ViewID (cells s' c))
           = viewKV s !! ID_String (Cell_ViewID (cells s c))).
Proof.
  intros Hd Hdv. rewrite (ReplaceDashboardCells_run s id d dv cs Hd Hdv).
  destruct (replaceCheck _ _ (cells s <$> cs)) as [e0|]; split.
  - intros e s' [= _ <-]. reflexivity.
  - intros s' H. discriminate H.
  - intros e s' H. discriminate H.
  - intros s' [= <-]. split; [reflexivity|].
    exists (set_UpdatedAt (time s (time_calls s)) (set_Cells cs dv)).
    split; [|split].
    + apply putWithMeta_heap.
    + reflexivity.
    + intros c _ Hc. split; [reflexivity|]. split; [exact Hc | reflexivity].
Qed.

Lemma ReplaceDashboardCells_keeps_views_witness :
  ReplaceDashboardCells sample.idD [sample.pB] sample.svc
    = Return tt (replaced 1%positive sample.dash [sample.pB] sample.svc) /\
  sample.pA ∈ Cells sample.dash /\
  (exists dv',
     heap (replaced 1%positive sample.dash [sample.pB] sample.svc) !! 1%positive
       = Some dv' /\ Cells dv' = [sample.pB]) /\
  viewKV (replaced 1%positive sample.dash [sample.pB] sample.svc)
    !! ID_String (Cell_ViewID sample.cellA)
    = Some (VView (MkView sample.idV "")).
Proof.
  assert (Hrun : ReplaceDashboardCells sample.idD [sample.pB] sample.svc
    = Return tt (replaced 1%positive sample.dash [sample.pB] sample.svc)).
  { rewrite (ReplaceDashboardCells_run sample.svc sample.idD 1%positive
               sample.dash _ eq_refl eq_refl). reflexivity. }
  destruct (proj2 (ReplaceDashboardCells_keeps_views sample.svc sample.idD
              1%positive sample.dash [sample.pB] eq_refl eq_refl) _ Hrun)
    as [Hv [dv' [Hh [Hc _]]]].
  split; [exact Hrun | split; [apply list_elem_of_here | split]].
  - exists dv'. split; [exact Hh | exact Hc].
  - rewrite Hv. reflexivity.
Defined.

(** ** Adding, putting, removing and updating a cell *)

Lemma assignCell_run c f s :
  assignCell c f s = Return tt (set_cells (<[c := f (cells s c)]> (cells s)) s).
Proof. reflexivity. Qed.

(** Two stores that agree on the pointers of a list show the same cells
    through it. *)
Lemma cells_fmap_agree (f g : cloc -> Cell) (ps : list cloc) :
  (forall p, p ∈ ps -> f p = g p) -> f <$> ps = g <$> ps.
Proof.
  induction ps as [|p ps IH]; intros H; [reflexivity|].
  simpl. f_equal.
  - apply H. left.
  - apply IH. intros q Hq. apply H. right. exact Hq.
Qed.

(** View creation leaves dashboards, clock and every other cell as they
    are, and binds the cell, through the pointer, to a stored view. *)
Lemma createViewIfNotExists_Return_inv cell opts s r s' :
  createViewIfNotExists cell opts s = Return r s' ->
  heap s' = heap s /\ dashboardKV s' = dashboardKV s /\
  time s' = time s /\ time_calls s' = time_calls s /\
  exists vid,
    cells s' = <[cell := set_Cell_ViewID vid (cells s cell)]> (cells s) /\
    is_Some (viewKV s' !! ID_String vid).
Proof.
  unfold createViewIfNotExists.
  destruct (ID_Valid (UsingView opts)).
  - unfold mbind, M_bind, gets, fail.
    destruct (viewKV s !! ID_String (UsingView opts)) as [v|] eqn:Hv;
      [|discriminate].
    rewrite assignCell_run. intros [= _ <-]. simpl.
    repeat split. exists (UsingView opts). split; [reflexivity|].
    rewrite Hv. eauto.
  - unfold mbind, M_bind, IDGenerator_ID, PutView, modify.
    rewrite assignCell_run. intros [= _ <-]. simpl.
    repeat split. exists (IDGenerator s (IDGenerator_calls s)).
    split; [reflexivity|]. rewrite lookup_insert_eq. eauto.
Qed.

Lemma createViewIfNotExists_Fail_inv cell opts s e s' :
  createViewIfNotExists cell opts s = Fail e s' -> s' = s.
Proof.
  unfold createViewIfNotExists. destruct (ID_Valid (UsingView opts)).
  - unfold mbind, M_bind, gets.
    destruct (viewKV s !! ID_String (UsingView opts)); intros [= _ <-]; reflexivity.
  - intros [=].
Qed.

Lemma DeleteView_run vid s :
  DeleteView vid s
  = match viewKV s !! ID_String vid with
    | None => Fail (PError ENotFound ErrViewNotFound "" None) s
    | Some _ => Return tt (set_viewKV (delete (ID_String vid) (viewKV s)) s)
    end.
Proof.
  unfold DeleteView. rewrite (bind_Return _ _ s (viewKV s) s) by reflexivity.
  destruct (viewKV s !! ID_String vid); reflexivity.
Qed.

Lemma AddDashboardCell_eq s id d dv cell opts :
  dashboardKV s !! ID_String id = Some (VDashboard d) ->
  heap s !! d = Some dv ->
  AddDashboardCell id cell opts s
  = match createViewIfNotExists cell opts (cellIDDrawn cell s) with
    | Return _ s0 =>
        Return tt
          (putWithMeta d (set_Cells (Cells dv ++ [cell]) dv)
             (set_heap (<[d := set_Cells (Cells dv ++ [cell]) dv]> (heap s0)) s0))
    | Fail e s0 => Fail (wrapOp (OpPrefix ++ OpAddDashboardCell) e) s0
    | Panic => Panic
    end.
Proof.
  intros Hd Hdv. unfold AddDashboardCell.
  rewrite (bind_Return _ _ s d s)
    by (apply labelled_Return, FindDashboardByID_found, Hd).
  rewrite (bind_Return _ _ s (IDGenerator s (IDGenerator_calls s))
             (set_IDGenerator_calls (S (IDGenerator_calls s)) s)) by reflexivity.
  rewrite (bind_Return _ _ _ tt (cellIDDrawn cell s)) by reflexivity.
  cbv zeta.
  destruct (createViewIfNotExists cell opts (cellIDDrawn cell s))
    as [r s0|e s0|] eqn:Hv.
  - destruct (createViewIfNotExists_Return_inv _ _ _ _ _ Hv) as [Hh _].
    assert (Hdv0 : heap s0 !! d = Some dv) by (rewrite Hh; exact Hdv).
    rewrite (bind_Return _ _ _ r s0) by (apply labelled_Return, Hv).
    rewrite (bind_Return _ _ _ tt _ (assign_Some d _ dv s0 Hdv0)).
    apply labelled_Return, PutDashboardWithMeta_run. simpl.
    apply lookup_insert_eq.
  - apply bind_Fail, labelled_Fail, Hv.
  - apply bind_Panic. unfold labelled. rewrite Hv. reflexivity.
Qed.

Lemma PutDashboardCell_eq s id d dv cell :
  dashboardKV s !! ID_String id = Some (VDashboard d) ->
  heap s !! d = Some dv ->
  PutDashboardCell id cell s
  = Return tt
      (set_dashboardKV
         (<[ID_String (Dashboard_ID dv) := VDashboard d]> (dashboardKV s))
         (set_heap (<[d := set_Cells (Cells dv ++ [cell]) dv]> (heap s))
            (set_viewKV
               (<[ID_String (Cell_ViewID (cells s cell))
                  := VView (MkView (Cell_ViewID (cells s cell)) "")]>
                  (viewKV s)) s))).
Proof.
  intros Hd Hdv. unfold PutDashboardCell.
  rewrite (bind_Return _ _ s d s) by (apply FindDashboardByID_found, Hd).
  rewrite (bind_Return _ _ s (cells s cell) s) by reflexivity.
  erewrite bind_Return by reflexivity.
  erewrite bind_Return by (apply assign_Some; simpl; exact Hdv).
  erewrite PutDashboard_run by (simpl; apply lookup_insert_eq).
  reflexivity.
Qed.

(** The index the search loop finds holds a cell with the ID looked for. *)
Lemma cellIndex_Some cellID cells idx :
  cellIndex cellID cells = Some idx ->
  exists c, cells !! idx = Some c /\ Cell_ID c = cellID.
Proof.
  revert idx. induction cells as [|c cells IH]; intros idx; simpl; [discriminate|].
  destruct (decide (Cell_ID c = cellID)) as [E|_].
  - intros [= <-]. exists c. split; [reflexivity | exact E].
  - destruct (cellIndex cellID cells) as [j|]; [|discriminate].
    intros [= <-]. apply (IH j). reflexivity.
Qed.

Lemma cellIndex_None cellID cells :
  cellIndex cellID cells = None <-> cellID ∉ Cell_ID <$> cells.
Proof.
  induction cells as [|c cells IH]; simpl.
  - split; [intros _; apply not_elem_of_nil | reflexivity].
  - rewrite not_elem_of_cons.
    destruct (decide (Cell_ID c = cellID)) as [Heq|Hne].
    + split; [discriminate | intros [Hne _]; congruence].
    + destruct (cellIndex cellID cells) as [i|]; simpl.
      * split; [discriminate|]. intros [_ Hrest]. apply IH in Hrest. discriminate.
      * split; [|reflexivity]. intros _. split; [congruence | apply IH; reflexivity].
Qed.

(** The search loop stops at the first cell with the ID looked for. *)
Lemma cellIndex_first cellID pre c post :
  Cell_ID c = cellID ->
  cellID ∉ Cell_ID <$> pre ->
  cellIndex cellID (pre ++ c :: post) = Some (List.length pre).
Proof.
  intros Hc. induction pre as [|c0 pre IH]; simpl.
  - intros _. destruct (decide (Cell_ID c = cellID)); [reflexivity | contradiction].
  - rewrite not_elem_of_cons. intros [Hne Hrest].
    destruct (decide (Cell_ID c0 = cellID)); [congruence|].
    rewrite (IH Hrest). reflexivity.
Qed.

(** The same through the pointers of a dashboard. *)
Lemma cellIndex_first_ptr (h : cloc -> Cell) cellID pre p post :
  Cell_ID (h p) = cellID ->
  cellID ∉ Cell_ID <$> (h <$> pre) ->
  cellIndex cellID (h <$> (pre ++ p :: post)%list) = Some (List.length pre).
Proof.
  intros Hc Hpre. rewrite fmap_app, fmap_cons.
  rewrite (cellIndex_first cellID (h <$> pre) (h p) (h <$> post) Hc Hpre).
  rewrite length_fmap. reflexivity.
Qed.

Lemma cellAt_run d dv idx s :
  heap s !! d = Some dv ->
  cellAt d idx s
  = match Cells dv !! idx with
    | Some c => Return c s
    | None => Panic
    end.
Proof.
  intros H. unfold cellAt. rewrite (bind_Return _ _ s dv s (deref_Some _ _ _ H)).
  destruct (Cells dv !! idx); reflexivity.
Qed.

Lemma RemoveDashboardCell_eq s id d dv cellID :
  dashboardKV s !! ID_String id = Some (VDashboard d) ->
  heap s !! d = Some dv ->
  RemoveDashboardCell id cellID s
  = match cellIndex cellID (cells s <$> Cells dv) with
    | None =>
        Fail (PError ENotFound ErrCellNotFound
                (OpPrefix ++ OpRemoveDashboardCell) None) s
    | Some idx =>
        match Cells dv !! idx with
        | None => Panic
        | Some p =>
            match viewKV s !! ID_String (Cell_ViewID (cells s p)) with
            | None => Fail (PError ENotFound ErrViewNotFound "" None) s
            | Some _ =>
                let dv' :=
                  set_Cells (take idx (Cells dv) ++ drop (S idx) (Cells dv)) dv in
                Return tt
                  (putWithMeta d dv'
                     (set_heap (<[d := dv']> (heap s))
                        (set_viewKV
                           (delete (ID_String (Cell_ViewID (cells s p))) (viewKV s))
                           s)))
            end
        end
    end.
Proof.
  intros Hd Hdv. unfold RemoveDashboardCell.
  rewrite (bind_Return _ _ s d s)
    by (apply labelled_Return, FindDashboardByID_found, Hd).
  rewrite (bind_Return _ _ s dv s) by (apply deref_Some, Hdv).
  rewrite (bind_Return _ _ s (cells s) s) by reflexivity.
  destruct (cellIndex cellID (cells s <$> Cells dv)) as [idx|]; [|reflexivity].
  pose proof (cellAt_run d dv idx s Hdv) as Hat.
  destruct (Cells dv !! idx) as [p|]; [|apply bind_Panic, Hat].
  rewrite (bind_Return _ _ s p s Hat).
  rewrite (bind_Return _ _ s (cells s p) s) by reflexivity.
  pose proof (DeleteView_run (Cell_ViewID (cells s p)) s) as Hdel.
  destruct (viewKV s !! ID_String (Cell_ViewID (cells s p))) as [v|];
    [|apply bind_Fail, Hdel].
  rewrite (bind_Return _ _ _ _ _ Hdel).
  erewrite bind_Return by (apply assign_Some; simpl; exact Hdv).
  erewrite PutDashboardWithMeta_run by (simpl; apply lookup_insert_eq).
  reflexivity.
Qed.

Lemma UpdateDashboardCell_eq s id d dv cellID upd :
  dashboardKV s !! ID_String id = Some (VDashboard d) ->
  heap s !! d = Some dv ->
  CellUpdate_Valid upd = None ->
  UpdateDashboardCell id cellID upd s
  = match cellIndex cellID (cells s <$> Cells dv) with
    | None =>
        Fail (PError ENotFound ErrCellNotFound
                (OpPrefix ++ OpUpdateDashboardCell) None) s
    | Some idx =>
        match Cells dv !! idx with
        | None => Panic
        | Some p =>
            let s1 :=
              set_cells (<[p := fst (CellUpdate_Apply upd (cells s p))]> (cells s)) s in
            match snd (CellUpdate_Apply upd (cells s p)) with
            | Some e => Fail (wrapOp (OpPrefix ++ OpUpdateDashboardCell) e) s1
            | None => Return p (putWithMeta d dv s1)
            end
        end
    end.
Proof.
  intros Hd Hdv Hvalid. unfold UpdateDashboardCell.
  rewrite (bind_Return _ _ s tt s) by (rewrite Hvalid; reflexivity).
  rewrite (bind_Return _ _ s d s)
    by (apply labelled_Return, FindDashboardByID_found, Hd).
  rewrite (bind_Return _ _ s dv s) by (apply deref_Some, Hdv).
  rewrite (bind_Return _ _ s (cells s) s) by reflexivity.
  destruct (cellIndex cellID (cells s <$> Cells dv)) as [idx|]; [|reflexivity].
  pose proof (cellAt_run d dv idx s Hdv) as Hat.
  destruct (Cells dv !! idx) as [p|] eqn:Hp; [|apply bind_Panic, Hat].
  rewrite (bind_Return _ _ s p s Hat).
  rewrite (bind_Return _ _ s (cells s p) s) by reflexivity.
  erewrite bind_Return by reflexivity.
  cbv zeta.
  destruct (snd (CellUpdate_Apply upd (cells s p))) as [e|].
  - apply bind_Fail. reflexivity.
  - erewrite bind_Return by reflexivity.
    erewrite bind_Return
      by (erewrite cellAt_run by (simpl; exact Hdv); rewrite Hp; reflexivity).
    erewrite bind_Return; [reflexivity|].
    apply labelled_Return, PutDashboardWithMeta_run. simpl. exact Hdv.
Qed.

Lemma take_drop_end {A : Type} (l : list A) (x : A) :
  (take (List.length l) (l ++ [x]) ++ drop (S (List.length l)) (l ++ [x]))%list = l.
Proof.
  rewrite take_app_length.
  rewrite drop_app_ge by (simpl; lia).
  replace (S (List.length l) - List.length l)%nat with 1%nat by lia.
  simpl. apply app_nil_r.
Qed.

(** The claim C3 as it stands, for every stored dashboard and every cell,
    fails in two ways.  With a generator that, like the mock generator of
    the tests, repeats the ID of the attached [cellA], both calls succeed,
    but [RemoveDashboardCell] detaches [cellA], the first cell with that
    ID: the new cell stays attached and the view made for it stays stored.
    And with the generator of the sample, which gives an unused ID, adding
    the cell at [pA], which is attached already, writes the new ID into
    that cell and attaches it a second time; removing by the new ID then
    detaches the first of the two, and the cells are not the ones before
    [AddDashboardCell]. *)
Lemma AddDashboardCell_RemoveDashboardCell_counterexample :
  Cells sample.dash = [sample.pA; sample.pB] /\
  (exists s1 s2 dv2 v,
     AddDashboardCell sample.idD sample.pNew (MkAddDashboardCellOptions InvalidID)
       sample.svcDup = Return tt s1 /\
     RemoveDashboardCell sample.idD (Cell_ID (cells s1 sample.pNew)) s1
       = Return tt s2 /\
     heap s2 !! 1%positive = Some dv2 /\
     Cells dv2 = [sample.pB; sample.pNew] /\
     viewKV s2 !! ID_String (Cell_ViewID (cells s1 sample.pNew)) = Some v) /\
  (exists s1 s2 dv2,
     AddDashboardCell sample.idD sample.pA (MkAddDashboardCellOptions InvalidID)
       sample.svc = Return tt s1 /\
     Cell_ID (cells s1 sample.pA) = sample.idN /\
     RemoveDashboardCell sample.idD (Cell_ID (cells s1 sample.pA)) s1
       = Return tt s2 /\
     heap s2 !! 1%positive = Some dv2 /\
     Cells dv2 = [sample.pB; sample.pA]).
Proof.
  split; [reflexivity|]. split.
  - destruct (AddDashboardCell sample.idD sample.pNew
                (MkAddDashboardCellOptions InvalidID) sample.svcDup)
      as [[] s1| |] eqn:Hadd; try discriminate Hadd.
    injection Hadd as <-.
    eexists _, _, _, _. split; [reflexivity|].
    split; [vm_compute; reflexivity|].
    split; [vm_compute; reflexivity|].
    split; vm_compute; reflexivity.
  - destruct (AddDashboardCell sample.idD sample.pA
                (MkAddDashboardCellOptions InvalidID) sample.svc)
      as [[] s1| |] eqn:Hadd; try discriminate Hadd.
    injection Hadd as <-.
    eexists _, _, _. split; [reflexivity|].
    split; [reflexivity|].
    split; [vm_compute; reflexivity|].
    split; vm_compute; reflexivity.
Qed.

(** C3, amended: on a stored dashboard, when the cell handed to
    [AddDashboardCell] is not attached to the dashboard already and the ID
    the generator gives is the ID of no attached cell, then after a
    successful [AddDashboardCell] the cell carries that ID and is bound to
    a stored view, and [RemoveDashboardCell] with that ID succeeds; after
    it the cells of the dashboard are the ones before [AddDashboardCell],
    each of them as it was, and the view the cell was bound to is no
    longer in the view store. *)
Theorem AddDashboardCell_RemoveDashboardCell s id d dv cell opts s1 :
  dashboardKV s !! ID_String id = Some (VDashboard d) ->
  heap s !! d = Some dv ->
  AddDashboardCell id cell opts s = Return tt s1 ->
  cell ∉ Cells dv ->
  IDGenerator s (IDGenerator_calls s) ∉ Cell_ID <$> (cells s <$> Cells dv) ->
  Cell_ID (cells s1 cell) = IDGenerator s (IDGenerator_calls s) /\
  is_Some (viewKV s1 !! ID_String (Cell_ViewID (cells s1 cell))) /\
  exists s2,
    RemoveDashboardCell id (Cell_ID (cells s1 cell)) s1 = Return tt s2 /\
    (exists dv2, heap s2 !! d = Some dv2 /\ Cells dv2 = Cells dv) /\
    (forall p, p ∈ Cells dv -> cells s2 p = cells s p) /\
    viewKV s2 !! ID_String (Cell_ViewID (cells s1 cell)) = None.
Proof.
  intros Hd Hdv Hadd Hnew Hfresh.
  rewrite (AddDashboardCell_eq s id d dv cell opts Hd Hdv) in Hadd.
  destruct (createViewIfNotExists cell opts (cellIDDrawn cell s))
    as [r s0|e s0|] eqn:Hv; try discriminate Hadd.
  injection Hadd as <-.
  destruct (createViewIfNotExists_Return_inv _ _ _ _ _ Hv)
    as (Hh & Hkv & _ & _ & vid & Hcells & v & Hview).
  set (gid := IDGenerator s (IDGenerator_calls s)) in *.
  set (dv1 := set_Cells (Cells dv ++ [cell]) dv).
  set (s1 := putWithMeta d dv1 (set_heap (<[d := dv1]> (heap s0)) s0)).
  set (dv1' := set_UpdatedAt (time s0 (time_calls s0)) dv1).
  assert (Hcell : cells s1 cell = set_Cell_ViewID vid (set_Cell_ID gid (cells s cell))).
  { change (cells s1) with (cells s0). rewrite Hcells, fn_lookup_insert.
    unfold cellIDDrawn. simpl. rewrite fn_lookup_insert. reflexivity. }
  assert (Hother : forall p, p ∈ Cells dv -> cells s1 p = cells s p).
  { intros p Hp. assert (cell <> p) by (intros ->; exact (Hnew Hp)).
    change (cells s1) with (cells s0). rewrite Hcells.
    rewrite fn_lookup_insert_ne by assumption.
    unfold cellIDDrawn. simpl. apply fn_lookup_insert_ne. assumption. }
  assert (Hd1 : dashboardKV s1 !! ID_String id = Some (VDashboard d)).
  { apply putWithMeta_dashboardKV. simpl. rewrite Hkv. exact Hd. }
  assert (Hdv1 : heap s1 !! d = Some dv1') by apply putWithMeta_heap.
  assert (Hview1 : viewKV s1 !! ID_String (Cell_ViewID (cells s1 cell)) = Some v).
  { rewrite Hcell. exact Hview. }
  assert (Hid : Cell_ID (cells s1 cell) = gid) by (rewrite Hcell; reflexivity).
  split; [exact Hid|]. split; [exists v; exact Hview1|].
  rewrite (RemoveDashboardCell_eq s1 id d dv1' (Cell_ID (cells s1 cell)) Hd1 Hdv1).
  change (Cells dv1') with (Cells dv ++ [cell])%list.
  rewrite (cellIndex_first_ptr (cells s1) (Cell_ID (cells s1 cell)) (Cells dv) cell []
             eq_refl).
  2:{ rewrite Hid, (cells_fmap_agree (cells s1) (cells s) (Cells dv) Hother).
      exact Hfresh. }
  rewrite list_lookup_middle by reflexivity.
  rewrite Hview1. cbv zeta. eexists. split; [reflexivity|]. split; [|split].
  - eexists. split; [apply putWithMeta_heap|]. simpl. apply take_drop_end.
  - intros p Hp. exact (Hother p Hp).
  - simpl. apply lookup_delete_eq.
Qed.

Lemma AddDashboardCell_RemoveDashboardCell_witness :
  exists s1 s2,
    AddDashboardCell sample.idD sample.pNew (MkAddDashboardCellOptions InvalidID)
      sample.svc = Return tt s1 /\
    Cell_ID (cells s1 sample.pNew) = sample.idN /\
    RemoveDashboardCell sample.idD (Cell_ID (cells s1 sample.pNew)) s1
      = Return tt s2 /\
    (exists dv2, heap s2 !! 1%positive = Some dv2 /\ Cells dv2 = Cells sample.dash) /\
    viewKV s2 !! ID_String (Cell_ViewID (cells s1 sample.pNew)) = None.
Proof.
  destruct (AddDashboardCell sample.idD sample.pNew
              (MkAddDashboardCellOptions InvalidID) sample.svc)
    as [[] s1| |] eqn:Hadd; try discriminate Hadd.
  destruct (AddDashboardCell_RemoveDashboardCell sample.svc sample.idD 1%positive
              sample.dash sample.pNew (MkAddDashboardCellOptions InvalidID)
              s1 eq_refl eq_refl Hadd)
    as (Hid & _ & s2 & Hrem & Hcells & _ & Hview).
  - intros Hin. apply list_elem_of_In in Hin. simpl in Hin.
    destruct Hin as [H|[H|[]]]; discriminate H.
  - apply cellIndex_None. reflexivity.
  - exists s1, s2. split; [reflexivity|]. split; [exact Hid|].
    split; [exact Hrem|]. split; [exact Hcells | exact Hview].
Defined.

(** C7: on a stored dashboard, [PutDashboardCell] succeeds, appends the
    cell and stores a view under the [ViewID] of the cell, and leaves the
    meta data of the dashboard as they are, without reading the clock.
    [AddDashboardCell], [RemoveDashboardCell], [UpdateDashboardCell] and
    [ReplaceDashboardCells] do succeed, each under the condition its code
    shows (the view is created; the cell is found and its view deleted;
    the cell is found and the patch applies; no proposed cell is
    rejected), and whenever one of them succeeds the dashboard carries as
    [UpdatedAt] the value the clock has when the operation puts the
    dashboard: the clock of the service the view call left behind for the
    first two, the clock at the call for the last two. *)
Theorem UpdatedAt_only_with_meta s id d dv :
  dashboardKV s !! ID_String id = Some (VDashboard d) ->
  heap s !! d = Some dv ->
  (forall cell,
     exists s',
       PutDashboardCell id cell s = Return tt s' /\
       (exists dv', heap s' !! d = Some dv' /\
                    Cells dv' = (Cells dv ++ [cell])%list /\
                    Meta dv' = Meta dv) /\
       viewKV s' !! ID_String (Cell_ViewID (cells s cell))
         = Some (VView (MkView (Cell_ViewID (cells s cell)) "")) /\
       time_calls s' = time_calls s) /\
  (forall cell opts r s0,
     createViewIfNotExists cell opts (cellIDDrawn cell s) = Return r s0 ->
     exists s' dv',
       AddDashboardCell id cell opts s = Return tt s' /\
       heap s' !! d = Some dv' /\
       UpdatedAt (Meta dv') = time s0 (time_calls s0)) /\
  (forall cell opts s',
     AddDashboardCell id cell opts s = Return tt s' ->
     exists r s0 dv',
       createViewIfNotExists cell opts (cellIDDrawn cell s) = Return r s0 /\
       heap s' !! d = Some dv' /\
       UpdatedAt (Meta dv') = time s0 (time_calls s0)) /\
  (forall pre p post r s0,
     Cells dv = (pre ++ p :: post)%list ->
     Cell_ID (cells s p) ∉ Cell_ID <$> (cells s <$> pre) ->
     DeleteView (Cell_ViewID (cells s p)) s = Return r s0 ->
     exists s' dv',
       RemoveDashboardCell id (Cell_ID (cells s p)) s = Return tt s' /\
       heap s' !! d = Some dv' /\
       UpdatedAt (Meta dv') = time s0 (time_calls s0)) /\
  (forall cellID s',
     RemoveDashboardCell id cellID s = Return tt s' ->
     exists p r s0 dv',
       p ∈ Cells dv /\ Cell_ID (cells s p) = cellID /\
       DeleteView (Cell_ViewID (cells s p)) s = Return r s0 /\
       heap s' !! d = Some dv' /\
       UpdatedAt (Meta dv') = time s0 (time_calls s0)) /\
  (forall pre p post upd c',
     Cells dv = (pre ++ p :: post)%list ->
     Cell_ID (cells s p) ∉ Cell_ID <$> (cells s <$> pre) ->
     CellUpdate_Valid upd = None ->
     CellUpdate_Apply upd (cells s p) = (c', None) ->
     exists s' dv',
       UpdateDashboardCell id (Cell_ID (cells s p)) upd s = Return p s' /\
       heap s' !! d = Some dv' /\
       UpdatedAt (Meta dv') = time s (time_calls s)) /\
  (forall cellID upd c s',
     UpdateDashboardCell id cellID upd s = Return c s' ->
     exists dv', heap s' !! d = Some dv' /\
                 UpdatedAt (Meta dv') = time s (time_calls s)) /\
  (forall cs,
     Forall (fun c => ~ rejected (cells s <$> Cells dv) c) (cells s <$> cs) ->
     exists s' dv',
       ReplaceDashboardCells id cs s = Return tt s' /\
       heap s' !! d = Some dv' /\
       UpdatedAt (Meta dv') = time s (time_calls s)) /\
  (forall cs s',
     ReplaceDashboardCells id cs s = Return tt s' ->
     exists dv', heap s' !! d = Some dv' /\
                 UpdatedAt (Meta dv') = time s (time_calls s)).
Proof.
  intros Hd Hdv.
  split; [|split; [|split; [|split; [|split; [|split; [|split; [|split]]]]]]].
  - intros cell. eexists. split; [apply (PutDashboardCell_eq s id d dv cell Hd Hdv)|].
    split; [|split].
    + eexists. split; [simpl; apply lookup_insert_eq|]. split; reflexivity.
    + simpl. apply lookup_insert_eq.
    + reflexivity.
  - intros cell opts r s0 Hv. eexists _, _.
    rewrite (AddDashboardCell_eq s id d dv cell opts Hd Hdv), Hv.
    split; [reflexivity|]. split; [apply putWithMeta_heap | reflexivity].
  - intros cell opts s' H.
    rewrite (AddDashboardCell_eq s id d dv cell opts Hd Hdv) in H.
    destruct (createViewIfNotExists cell opts (cellIDDrawn cell s))
      as [r s0|e s0|] eqn:Hv; try discriminate H.
    injection H as <-. exists r, s0. eexists.
    split; [reflexivity|]. split; [apply putWithMeta_heap | reflexivity].
  - intros pre p post r s0 Hcells Hpre Hdel. rewrite DeleteView_run in Hdel.
    destruct (viewKV s !! ID_String (Cell_ViewID (cells s p))) as [v|] eqn:Hview;
      [|discriminate Hdel].
    injection Hdel as _ <-. eexists _, _.
    rewrite (RemoveDashboardCell_eq s id d dv _ Hd Hdv), Hcells.
    rewrite (cellIndex_first_ptr (cells s) _ pre p post eq_refl Hpre).
    rewrite list_lookup_middle by reflexivity. rewrite Hview. cbv zeta.
    split; [reflexivity|]. split; [apply putWithMeta_heap | reflexivity].
  - intros cellID s' H.
    rewrite (RemoveDashboardCell_eq s id d dv cellID Hd Hdv) in H.
    destruct (cellIndex cellID (cells s <$> Cells dv)) as [idx|] eqn:Hidx;
      [|discriminate H].
    destruct (Cells dv !! idx) as [p|] eqn:Hp; [|discriminate H].
    destruct (viewKV s !! ID_String (Cell_ViewID (cells s p))) as [v|] eqn:Hview;
      [|discriminate H].
    injection H as <-.
    destruct (cellIndex_Some _ _ _ Hidx) as (c & Hc & Hcid).
    rewrite list_lookup_fmap, Hp in Hc. injection Hc as <-.
    exists p, tt. eexists _, _.
    split; [eapply list_elem_of_lookup_2, Hp|]. split; [exact Hcid|].
    split; [rewrite DeleteView_run, Hview; reflexivity|].
    split; [apply putWithMeta_heap | reflexivity].
  - intros pre p post upd c' Hcells Hpre Hvalid Happly. eexists _, _.
    rewrite (UpdateDashboardCell_eq s id d dv _ upd Hd Hdv Hvalid), Hcells.
    rewrite (cellIndex_first_ptr (cells s) _ pre p post eq_refl Hpre).
    rewrite list_lookup_middle by reflexivity. cbv zeta. rewrite Happly. simpl.
    split; [reflexivity|]. split; [apply putWithMeta_heap | reflexivity].
  - intros cellID upd c s' H.
    destruct (CellUpdate_Valid upd) as [e|] eqn:Hvalid.
    + unfold UpdateDashboardCell in H.
      erewrite bind_Fail in H
        by (apply labelled_Fail; rewrite Hvalid; reflexivity).
      discriminate H.
    + rewrite (UpdateDashboardCell_eq s id d dv cellID upd Hd Hdv Hvalid) in H.
      destruct (cellIndex cellID (cells s <$> Cells dv)) as [idx|]; [|discriminate H].
      destruct (Cells dv !! idx) as [p|]; [|discriminate H].
      cbv zeta in H.
      destruct (snd (CellUpdate_Apply upd (cells s p))); [discriminate H|].
      injection H as _ <-. eexists. split; [apply putWithMeta_heap | reflexivity].
  - intros cs Hall. eexists _, _.
    rewrite (ReplaceDashboardCells_run s id d dv cs Hd Hdv).
    apply (replaceCheck_None (OpPrefix ++ OpReplaceDashboardCells)) in Hall.
    rewrite Hall. split; [reflexivity|].
    split; [apply putWithMeta_heap | reflexivity].
  - intros cs s' H.
    rewrite (ReplaceDashboardCells_run s id d dv cs Hd Hdv) in H.
    destruct (replaceCheck _ _ (cells s <$> cs)); [discriminate H|].
    injection H as <-. eexists. split; [apply putWithMeta_heap | reflexivity].
Qed.

Lemma UpdatedAt_only_with_meta_witness :
  (exists s' dv',
     PutDashboardCell sample.idD sample.pX sample.svc = Return tt s' /\
     heap s' !! 1%positive = Some dv' /\
     Meta dv' = MkDashboardMeta 5%Z 5%Z) /\
  (exists s' dv',
     AddDashboardCell sample.idD sample.pNew (MkAddDashboardCellOptions InvalidID)
       sample.svc = Return tt s' /\
     heap s' !! 1%positive = Some dv' /\
     UpdatedAt (Meta dv') = 1000%Z) /\
  (exists s' dv',
     RemoveDashboardCell sample.idD sample.idB sample.svc = Return tt s' /\
     heap s' !! 1%positive = Some dv' /\
     UpdatedAt (Meta dv') = 1000%Z) /\
  (exists s' dv',
     UpdateDashboardCell sample.idD sample.idB sample.moveCell sample.svc
       = Return sample.pB s' /\
     heap s' !! 1%positive = Some dv' /\
     UpdatedAt (Meta dv') = 1000%Z) /\
  (exists s' dv',
     ReplaceDashboardCells sample.idD [sample.pB] sample.svc = Return tt s' /\
     heap s' !! 1%positive = Some dv' /\
     UpdatedAt (Meta dv') = 1000%Z).
Proof.
  pose proof (UpdatedAt_only_with_meta sample.svc sample.idD 1%positive
                sample.dash eq_refl eq_refl)
    as (Hput & Hadd & _ & Hrem & _ & Hupd & _ & Hrep & _).
  split; [|split; [|split; [|split]]].
  - destruct (Hput sample.pX) as [s' [Hrun [[dv' [Hh [_ Hm]]] _]]].
    exists s', dv'. split; [exact Hrun | split; [exact Hh | exact Hm]].
  - destruct (createViewIfNotExists sample.pNew (MkAddDashboardCellOptions InvalidID)
                (cellIDDrawn sample.pNew sample.svc)) as [r s0| |] eqn:Hv;
      try discriminate Hv.
    destruct (Hadd sample.pNew (MkAddDashboardCellOptions InvalidID) r s0 Hv)
      as (s' & dv' & Hrun & Hh & Hu).
    exists s', dv'. split; [exact Hrun|]. split; [exact Hh|].
    rewrite Hu. injection Hv as _ <-. reflexivity.
  - destruct (DeleteView (Cell_ViewID (cells sample.svc sample.pB)) sample.svc)
      as [r s0| |] eqn:Hdel; try discriminate Hdel.
    destruct (Hrem [sample.pA] sample.pB [] r s0 eq_refl) as (s' & dv' & Hrun & Hh & Hu).
    + apply cellIndex_None. reflexivity.
    + exact Hdel.
    + exists s', dv'. split; [exact Hrun|]. split; [exact Hh|].
      rewrite Hu. injection Hdel as _ <-. reflexivity.
  - destruct (Hupd [sample.pA] sample.pB [] sample.moveCell
                (fst (CellUpdate_Apply sample.moveCell sample.cellB)) eq_refl)
      as (s' & dv' & Hrun & Hh & Hu).
    + apply cellIndex_None. reflexivity.
    + reflexivity.
    + reflexivity.
    + exists s', dv'. split; [exact Hrun | split; [exact Hh | exact Hu]].
  - destruct (Hrep [sample.pB]) as (s' & dv' & Hrun & Hh & Hu).
    + apply (replaceCheck_None ""). reflexivity.
    + exists s', dv'. split; [exact Hrun | split; [exact Hh | exact Hu]].
Defined.

(** ** Name resolution *)

(** The kinds with names are the five the registry has a map for. *)
Lemma named_kinds r :
  Resource_Valid r = true -> nameless r = false ->
  r = BucketsResource \/ r = DashboardsResource \/ r = OrgsResource \/
  r = TelegrafsResource \/ r = UsersResource.
Proof.
  unfold Resource_Valid, nameless. intros Hv Hn.
  apply bool_decide_eq_true in Hv. apply bool_decide_eq_false in Hn.
  repeat (apply elem_of_cons in Hv; destruct Hv as [->|Hv]);
    try (exfalso; apply Hn; repeat constructor; fail);
    try tauto.
  apply elem_of_nil in Hv. contradiction.
Qed.

(** C4: [Name] on a kind without names and a valid ID returns the empty
    string and no error, whatever the stores hold; on an invalid ID or a
    kind that is not recognized it fails with [EInvalid]; on a kind with
    names and a valid ID it fails with [ENotFound] when the store of the
    kind has no entity under the ID, and returns the name of the entity
    when it has one. *)
Theorem Name_by_kind s r id :
  (nameless r = true -> ID_Valid id = true -> Name r id s = Return "" s) /\
  (ID_Valid id = false \/ Resource_Valid r = false ->
     exists e, Name r id s = Fail e s /\ ErrorCode (Some e) = EInvalid) /\
  (Resource_Valid r = true -> nameless r = false -> ID_Valid id = true ->
     (kindStore r s !! ID_String id = None ->
        exists e, Name r id s = Fail e s /\ ErrorCode (Some e) = ENotFound) /\
     (forall i n,
        kindStore r s !! ID_String id = Some i ->
        hasName s r i n ->
        Name r id s = Return n s)).
Proof.
  split; [|split].
  - intros Hn Hid. unfold Name. rewrite Hid. simpl.
    assert (Hv : Resource_Valid r = true).
    { unfold nameless in Hn. apply bool_decide_eq_true in Hn.
      unfold Resource_Valid. apply bool_decide_eq_true.
      repeat (apply elem_of_cons in Hn; destruct Hn as [->|Hn]);
        [repeat constructor .. | apply elem_of_nil in Hn; contradiction]. }
    rewrite Hv, Hn. reflexivity.
  - intros H. unfold Name. destruct (ID_Valid id); simpl.
    + destruct H as [H|H]; [discriminate H|]. rewrite H. simpl.
      eexists. split; reflexivity.
    + eexists. split; reflexivity.
  - intros Hv Hn Hid. unfold Name. rewrite Hid, Hv, Hn. simpl.
    destruct (named_kinds r Hv Hn) as [->|[->|[->|[->| ->]]]]; simpl; split.
    + intros H. unfold findName. erewrite bind_Return by reflexivity.
      change (kindStore BucketsResource s) with (bucketKV s) in *.
      rewrite H. eexists. split; reflexivity.
    + intros i n H Hname. inversion Hname; subst.
      unfold findName. erewrite bind_Return by reflexivity.
      change (kindStore BucketsResource s) with (bucketKV s) in *.
      rewrite H. reflexivity.
    + intros H. change (kindStore DashboardsResource s) with (dashboardKV s) in H.
      rewrite (bind_Fail _ _ _ _ _ (FindDashboardByID_absent _ _ H)).
      eexists. split; reflexivity.
    + intros i n H Hname. inversion Hname; subst.
      change (kindStore DashboardsResource s) with (dashboardKV s) in H.
      rewrite (bind_Return _ _ _ _ _ (FindDashboardByID_found _ _ _ H)).
      erewrite bind_Return by (apply deref_Some; eassumption). reflexivity.
    + intros H. unfold findName. erewrite bind_Return by reflexivity.
      change (kindStore OrgsResource s) with (organizationKV s) in *.
      rewrite H. eexists. split; reflexivity.
    + intros i n H Hname. inversion Hname; subst.
      unfold findName. erewrite bind_Return by reflexivity.
      change (kindStore OrgsResource s) with (organizationKV s) in *.
      rewrite H. reflexivity.
    + intros H. unfold findName. erewrite bind_Return by reflexivity.
      change (kindStore TelegrafsResource s) with (telegrafConfigKV s) in *.
      rewrite H. eexists. split; reflexivity.
    + intros i n H Hname. inversion Hname; subst.
      unfold findName. erewrite bind_Return by reflexivity.
      change (kindStore TelegrafsResource s) with (telegrafConfigKV s) in *.
      rewrite H. reflexivity.
    + intros H. unfold findName. erewrite bind_Return by reflexivity.
      change (kindStore UsersResource s) with (userKV s) in *.
      rewrite H. eexists. split; reflexivity.
    + intros i n H Hname. inversion Hname; subst.
      unfold findName. erewrite bind_Return by reflexivity.
      change (kindStore UsersResource s) with (userKV s) in *.
      rewrite H. reflexivity.
Qed.

(** The cases of the test of [Name] that the sample service covers: the
    kinds without names, the bucket [b1], an unused bucket ID, the
    dashboard, the invalid ID and an unknown kind. *)
Lemma Name_by_kind_witness :
  Name AuthorizationsResource sample.idA sample.svc = Return "" sample.svc /\
  Name TasksResource sample.idA sample.svc = Return "" sample.svc /\
  Name SourcesResource sample.idA sample.svc = Return "" sample.svc /\
  Name BucketsResource sample.idA sample.svc = Return "b1" sample.svc /\
  Name DashboardsResource sample.idD sample.svc = Return "dashboard1" sample.svc /\
  (exists e, Name BucketsResource sample.idX sample.svc = Fail e sample.svc /\
             ErrorCode (Some e) = ENotFound) /\
  (exists e, Name DashboardsResource InvalidID sample.svc = Fail e sample.svc /\
             ErrorCode (Some e) = EInvalid) /\
  (exists e, Name "invalid" sample.idA sample.svc = Fail e sample.svc /\
             ErrorCode (Some e) = EInvalid).
Proof.
  split; [|split; [|split; [|split; [|split; [|split; [|split]]]]]].
  - apply (proj1 (Name_by_kind sample.svc AuthorizationsResource sample.idA));
      reflexivity.
  - apply (proj1 (Name_by_kind sample.svc TasksResource sample.idA));
      reflexivity.
  - apply (proj1 (Name_by_kind sample.svc SourcesResource sample.idA));
      reflexivity.
  - apply (proj2 (proj2 (proj2 (Name_by_kind sample.svc BucketsResource sample.idA))
             eq_refl eq_refl eq_refl)
             (VBucket (MkBucket sample.idA sample.idB "b1"))).
    + reflexivity.
    + apply (hasName_bucket sample.svc (MkBucket sample.idA sample.idB "b1")).
  - apply (proj2 (proj2 (proj2 (Name_by_kind sample.svc DashboardsResource sample.idD))
             eq_refl eq_refl eq_refl)
             (VDashboard 1%positive)).
    + reflexivity.
    + apply (hasName_dashboard sample.svc 1%positive sample.dash). reflexivity.
  - apply (proj1 (proj2 (proj2 (Name_by_kind sample.svc BucketsResource sample.idX))
             eq_refl eq_refl eq_refl)).
    reflexivity.
  - apply (proj1 (proj2 (Name_by_kind sample.svc DashboardsResource InvalidID))).
    left. reflexivity.
  - apply (proj1 (proj2 (Name_by_kind sample.svc "invalid" sample.idA))).
    right. reflexivity.
Defined.

(** * Further properties *)

(** ** The accessors of errors.go *)

(** Induction along the chain of wrapped errors. *)
Lemma error_chain_ind (P : error -> Prop) :
  (forall Code Msg Op, P (PError Code Msg Op None)) ->
  (forall Code Msg Op e, P e -> P (PError Code Msg Op (Some e))) ->
  P NilPError ->
  (forall msg, P (Opaque msg)) ->
  forall e, P e.
Proof.
  intros Hroot Hwrap Hnil Hopaque.
  fix IH 1. intros [Code Msg Op [e'|] | | msg].
  - apply Hwrap, IH.
  - apply Hroot.
  - apply Hnil.
  - apply Hopaque.
Qed.

Lemma errorOp_wrapOps_empty ops e :
  Forall (fun o => o = "") ops -> errorOp (wrapOps ops e) = errorOp e.
Proof.
  induction 1 as [|o ops -> _ IH]; [reflexivity|]. exact IH.
Qed.

Lemma errorMessage_wrapOps ops e : errorMessage (wrapOps ops e) = errorMessage e.
Proof. induction ops as [|o ops IH]; [reflexivity|]. exact IH. Qed.

(** X1: [ErrorOp] gives the outermost label that is not empty: labels
    added later hide the ones below, empty labels are looked through, and a
    chain without any label has the operation of its root.  In particular
    every failure of [FindDashboardByID] names that operation. *)
Theorem ErrorOp_outermost_label :
  (forall pre op post e,
     Forall (fun o => o = "") pre -> op <> "" ->
     ErrorOp (Some (wrapOps (pre ++ op :: post) e)) = op) /\
  (forall ops e,
     Forall (fun o => o = "") ops ->
     ErrorOp (Some (wrapOps ops e)) = ErrorOp (Some e)) /\
  (forall id s e s',
     FindDashboardByID id s = Fail e s' ->
     ErrorOp (Some e) = "inmem/FindDashboardByID").
Proof.
  split; [|split].
  - intros pre op post e Hpre Hop. simpl.
    unfold wrapOps. rewrite foldr_app.
    change (foldr wrapOp (foldr wrapOp e (op :: post)) pre)
      with (wrapOps pre (wrapOp op (wrapOps post e))).
    rewrite errorOp_wrapOps_empty by exact Hpre.
    simpl. destruct (decide (op = "")); [contradiction | reflexivity].
  - intros ops e Hops. simpl. apply errorOp_wrapOps_empty, Hops.
  - intros id s e s'. unfold FindDashboardByID, labelled.
    destruct (loadDashboard id s) as [d s1|e1 s1|]; intros [= <- <-].
    reflexivity.
Qed.

Lemma ErrorOp_outermost_label_witness :
  ErrorOp (Some (wrapOps [""; "inmem/UpdateDashboard"; "inmem/FindDashboardByID"]
                   (PError ENotFound ErrDashboardNotFound "" None)))
    = "inmem/UpdateDashboard" /\
  ErrorOp (Some (wrapOps [""; ""] (PError EInvalid "" "store" None))) = "store" /\
  ErrorOp (Some (wrapOp (OpPrefix ++ OpFindDashboardByID)
                   (PError ENotFound ErrDashboardNotFound "" None)))
    = "inmem/FindDashboardByID".
Proof.
  split; [|split].
  - apply (proj1 ErrorOp_outermost_label [""] "inmem/UpdateDashboard"
             ["inmem/FindDashboardByID"]).
    + repeat constructor.
    + discriminate.
  - apply (proj1 (proj2 ErrorOp_outermost_label) [""; ""]). repeat constructor.
  - apply (proj2 (proj2 ErrorOp_outermost_label) sample.idX sample.svc _ sample.svc).
    reflexivity.
Defined.

(** X2: The operation labels carry no message of their own, so
    [ErrorMessage] looks through any number of them: it gives the message
    of the labelled error when that has one, and the fixed internal-error
    text, never the error's own text, when the labelled error is not an
    [*Error]. *)
Theorem ErrorMessage_through_labels :
  (forall ops e, ErrorMessage (Some (wrapOps ops e)) = ErrorMessage (Some e)) /\
  (forall ops code msg op err,
     msg <> "" ->
     ErrorMessage (Some (wrapOps ops (PError code msg op err))) = msg) /\
  (forall ops text,
     ErrorMessage (Some (wrapOps ops (Opaque text)))
       = "An internal error has occurred.").
Proof.
  split; [|split].
  - intros ops e. simpl. apply errorMessage_wrapOps.
  - intros ops code msg op err Hmsg. simpl. rewrite errorMessage_wrapOps.
    simpl. destruct (decide (msg = "")); [contradiction | reflexivity].
  - intros ops text. simpl. rewrite errorMessage_wrapOps. reflexivity.
Qed.

Lemma ErrorMessage_through_labels_witness :
  ErrorMessage (Some (wrapOps ["inmem/UpdateDashboard"; "inmem/FindDashboardByID"]
                        (PError ENotFound ErrDashboardNotFound "" None)))
    = "dashboard not found".
Proof.
  apply (proj1 (proj2 ErrorMessage_through_labels)
           ["inmem/UpdateDashboard"; "inmem/FindDashboardByID"]).
  discriminate.
Defined.

(** X3: A non-nil error has a code and a message unless a nil [*Error]
    hides in its chain: on a chain free of nil pointers neither [ErrorCode]
    nor [ErrorMessage] is empty. *)
Theorem ErrorCode_ErrorMessage_not_empty (e : error) :
  nilFree e = true ->
  ErrorCode (Some e) <> "" /\ ErrorMessage (Some e) <> "".
Proof.
  simpl. induction e as [Code Msg Op|Code Msg Op e IH| |msg] using error_chain_ind;
    simpl; intros Hfree.
  - split.
    + destruct (decide (Code = "")); [discriminate | assumption].
    + destruct (decide (Msg = "")); [discriminate | assumption].
  - destruct (IH Hfree) as [IHc IHm]. split.
    + destruct (decide (Code = "")); assumption.
    + destruct (decide (Msg = "")); assumption.
  - discriminate.
  - split; discriminate.
Qed.

Lemma ErrorCode_ErrorMessage_not_empty_witness :
  ErrorCode (Some (wrapOp "inmem/DeleteDashboard" (Opaque "label store is down"))) <> "" /\
  ErrorMessage (Some (wrapOp "inmem/DeleteDashboard" (Opaque "label store is down"))) <> "".
Proof.
  apply (ErrorCode_ErrorMessage_not_empty
           (wrapOp "inmem/DeleteDashboard" (Opaque "label store is down"))).
  reflexivity.
Defined.

Lemma string_app_assoc (a b c : string) : (a ++ b) ++ c = a ++ (b ++ c).
Proof.
  induction a as [|ch a IH]; [reflexivity|].
  change (String ch ((a ++ b) ++ c) = String ch (a ++ (b ++ c))).
  rewrite IH. reflexivity.
Qed.

(** The text of a labelled chain, label by label. *)
Lemma Error_Error_wrapOp op e :
  op <> "" ->
  Error_Error (wrapOp op e) = (fun text => op ++ ": " ++ text) <$> Error_Error e.
Proof.
  intros Hop. unfold wrapOp. simpl.
  destruct (decide (op = "")); [contradiction|].
  destruct (Error_Error e) as [text|]; simpl; [|reflexivity].
  f_equal. apply string_app_assoc.
Qed.

(** X4: The text of an error that went through the operations [ops] is
    the labels, outermost first and each followed by a colon and a space,
    in front of the text of the labelled error; a root [*Error] with a code
    and a message reads [<code> message].  The text exists unless a nil
    [*Error] hides in the chain, on which the method panics. *)
Theorem Error_Error_of_labelled_chain :
  (forall ops e,
     Forall (fun o => o <> "") ops ->
     Error_Error (wrapOps ops e)
       = (fun text => foldr (fun o acc => o ++ ": " ++ acc) text ops)
           <$> Error_Error e) /\
  (forall code msg,
     code <> "" -> msg <> "" ->
     Error_Error (PError code msg "" None) = Some ("<" ++ code ++ "> " ++ msg)) /\
  (forall e, is_Some (Error_Error e) <-> nilFree e = true).
Proof.
  split; [|split].
  - intros ops e. induction 1 as [|o ops Ho _ IH].
    + simpl. destruct (Error_Error e); reflexivity.
    + change (wrapOps (o :: ops) e) with (wrapOp o (wrapOps ops e)).
      rewrite Error_Error_wrapOp by exact Ho. rewrite IH.
      destruct (Error_Error e); reflexivity.
  - intros code msg Hcode Hmsg. simpl.
    destruct (decide (code = "")); [contradiction|].
    destruct (decide (msg = "")); [contradiction|].
    f_equal. rewrite !string_app_assoc. reflexivity.
  - intros e. induction e as [Code Msg Op|Code Msg Op e IH| |msg] using error_chain_ind;
      simpl.
    + split; [reflexivity | eauto].
    + rewrite <- IH. destruct (Error_Error e); split; intros H; eauto;
        destruct H as [? [=]].
    + split; [intros [? [=]] | discriminate].
    + split; [reflexivity | eauto].
Qed.

Lemma Error_Error_of_labelled_chain_witness :
  Error_Error (wrapOps ["inmem/UpdateDashboard"; "inmem/FindDashboardByID"]
                 (PError ENotFound ErrDashboardNotFound "" None))
    = Some "inmem/UpdateDashboard: inmem/FindDashboardByID: <not found> dashboard not found".
Proof.
  rewrite (proj1 Error_Error_of_labelled_chain
             ["inmem/UpdateDashboard"; "inmem/FindDashboardByID"]).
  - rewrite (proj1 (proj2 Error_Error_of_labelled_chain) ENotFound ErrDashboardNotFound);
      [reflexivity | discriminate | discriminate].
  - repeat constructor; discriminate.
Defined.

(** ** Errors as JSON documents *)

Lemma decodeInternalError_object fields :
  decodeInternalError_value (JObject fields)
  = Some (PError (jstring "code" fields) (jstring "message" fields)
            (jstring "op" fields) (decodeInternalError (jfield "error" fields))).
Proof.
  simpl. do 2 f_equal.
  induction fields as [|[k v] fields IH]; [reflexivity|].
  simpl. destruct (decide (k = "error")); [reflexivity | exact IH].
Qed.

Lemma Error_MarshalJSON_PError Code Msg Op Err :
  Error_MarshalJSON (PError Code Msg Op Err)
  = let fields :=
      ([("code", JString Code)]
       ++ (if decide (Msg = "") then [] else [("message", JString Msg)])
       ++ (if decide (Op = "") then [] else [("op", JString Op)]))%list in
    match Err with
    | None => Some (JObject fields)
    | Some e' =>
        match Error_MarshalJSON e' with
        | Some j => Some (JObject (fields ++ [("error", j)])%list)
        | None => None
        end
    end.
Proof. reflexivity. Qed.

(** The fields [MarshalJSON] writes ahead of the wrapped error. *)
Lemma errEncode_fields Code Msg Op (rest : list (string * jvalue)) :
  (forall k v, (k, v) ∈ rest -> k = "error") ->
  let fields :=
    (([("code", JString Code)]
      ++ (if decide (Msg = "") then [] else [("message", JString Msg)])
      ++ (if decide (Op = "") then [] else [("op", JString Op)])) ++ rest)%list in
  jstring "code" fields = Code /\ jstring "message" fields = Msg /\
  jstring "op" fields = Op /\ jfield "error" fields = jfield "error" rest.
Proof.
  intros Hrest fields.
  assert (Hskip : forall key, key <> "error" -> jfield key rest = None).
  { intros key Hkey. induction rest as [|[k v] rest IH]; [reflexivity|].
    simpl. destruct (decide (k = key)) as [->|_].
    - exfalso. apply Hkey, (Hrest key v). left.
    - apply IH. intros k' v' Hin. apply (Hrest k' v'). right. exact Hin. }
  unfold fields, jstring.
  destruct (decide (Msg = "")) as [->|HMsg], (decide (Op = "")) as [->|HOp];
    simpl; rewrite ?Hskip by discriminate; auto.
Qed.

(** X5: Decoding inverts encoding.  [MarshalJSON] writes a document for
    exactly the errors whose chain holds no nil [*Error]; reading that
    document back with [UnmarshalJSON] (with [decodeInternalError] for a
    wrapped error) gives the error again: code, message, operation and the
    whole chain of wrapped errors, a wrapped error of another type coming
    back as a plain error with the same text. *)
Theorem Error_JSON_round_trip :
  (forall e, is_Some (Error_MarshalJSON e) <-> nilFree e = true) /\
  (forall e j,
     Error_MarshalJSON e = Some j -> decodeInternalError (Some j) = Some e) /\
  (forall Code Msg Op Err j,
     Error_MarshalJSON (PError Code Msg Op Err) = Some j ->
     Error_UnmarshalJSON j = PError Code Msg Op Err).
Proof.
  assert (Hdecode : forall e j,
            Error_MarshalJSON e = Some j -> decodeInternalError (Some j) = Some e).
  { intros e.
    induction e as [Code Msg Op|Code Msg Op e IH| |msg] using error_chain_ind;
      intros j; rewrite ?Error_MarshalJSON_PError; cbv zeta.
    - intros [= <-]. unfold decodeInternalError. rewrite decodeInternalError_object.
      destruct (errEncode_fields Code Msg Op []) as (Hc & Hm & Ho & He).
      { intros k v Hin. inversion Hin. }
      rewrite app_nil_r in Hc, Hm, Ho, He.
      f_equal. f_equal; first [exact Hc | exact Hm | exact Ho | idtac].
      exact (f_equal decodeInternalError He).
    - destruct (Error_MarshalJSON e) as [j'|] eqn:Ej; intros [= <-].
      unfold decodeInternalError. rewrite decodeInternalError_object.
      destruct (errEncode_fields Code Msg Op [("error", j')]) as (Hc & Hm & Ho & He).
      { intros k v Hin. apply list_elem_of_singleton in Hin. congruence. }
      f_equal. f_equal; first [exact Hc | exact Hm | exact Ho | idtac].
      etrans; [exact (f_equal decodeInternalError He) |]. exact (IH j' eq_refl).
    - discriminate.
    - intros [= <-]. reflexivity. }
  split; [|split].
  - intros e.
    induction e as [Code Msg Op|Code Msg Op e IH| |msg] using error_chain_ind;
      cbn [Error_MarshalJSON nilFree].
    + split; [reflexivity | eauto].
    + rewrite <- IH. destruct (Error_MarshalJSON e); split; intros H; eauto;
        destruct H as [? [=]].
    + split; [intros [? [=]] | discriminate].
    + split; [reflexivity | eauto].
  - exact Hdecode.
  - intros Code Msg Op Err j Hj. pose proof (Hdecode _ _ Hj) as Hd.
    assert (exists fields, j = JObject fields) as [fields ->].
    { rewrite Error_MarshalJSON_PError in Hj. cbv zeta in Hj. destruct Err as [e'|].
      - destruct (Error_MarshalJSON e'); inversion Hj; eauto.
      - inversion Hj; eauto. }
    unfold decodeInternalError in Hd. rewrite decodeInternalError_object in Hd.
    injection Hd as Hc Hm Ho He. unfold Error_UnmarshalJSON. congruence.
Qed.

Lemma Error_JSON_round_trip_witness :
  Error_MarshalJSON (wrapOp "inmem/DeleteDashboard" (Opaque "label store is down"))
    = Some (JObject [("code", JString ""); ("op", JString "inmem/DeleteDashboard");
                     ("error", JString "label store is down")]) /\
  Error_UnmarshalJSON
    (JObject [("code", JString ""); ("op", JString "inmem/DeleteDashboard");
              ("error", JString "label store is down")])
    = wrapOp "inmem/DeleteDashboard" (Opaque "label store is down").
Proof.
  split; [reflexivity|].
  apply (proj2 (proj2 Error_JSON_round_trip) "" "" "inmem/DeleteDashboard"
           (Some (Opaque "label store is down"))).
  reflexivity.
Defined.

(** ** Mappings of users to resources *)

Lemma UserType_Valid_None ut :
  UserType_Valid ut = None <-> ut = Owner \/ ut = Member.
Proof.
  unfold UserType_Valid.
  destruct (decide (ut = Owner)); [tauto|].
  destruct (decide (ut = Member)); [tauto|].
  split; [discriminate | tauto].
Qed.

(** X6: [Validate] accepts a mapping exactly when its resource ID and its
    user ID are valid, its user type is owner or member, and its resource
    kind is valid.  The checks run in that order, so a missing resource ID
    is what is reported whatever else is wrong, then a missing user ID,
    then an unknown user type. *)
Theorem UserResourceMapping_Validate_checks Resource_Valid_error m :
  (UserResourceMapping_Validate Resource_Valid_error m = None <->
     ID_Valid (ResourceID m) = true /\ ID_Valid (UserID m) = true /\
     (Mapping_UserType m = Owner \/ Mapping_UserType m = Member) /\
     Resource_Valid_error (Mapping_Resource m) = None) /\
  (ID_Valid (ResourceID m) = false ->
     UserResourceMapping_Validate Resource_Valid_error m = Some ErrResourceIDRequired) /\
  (ID_Valid (ResourceID m) = true -> ID_Valid (UserID m) = false ->
     UserResourceMapping_Validate Resource_Valid_error m = Some ErrUserIDRequired) /\
  (ID_Valid (ResourceID m) = true -> ID_Valid (UserID m) = true ->
   Mapping_UserType m <> Owner -> Mapping_UserType m <> Member ->
     UserResourceMapping_Validate Resource_Valid_error m = Some ErrInvalidUserType).
Proof.
  unfold UserResourceMapping_Validate.
  pose proof (UserType_Valid_None (Mapping_UserType m)) as Hut.
  destruct (ID_Valid (ResourceID m)), (ID_Valid (UserID m)); simpl;
    destruct (UserType_Valid (Mapping_UserType m)) as [e|] eqn:Eut;
    destruct (Resource_Valid_error (Mapping_Resource m)) as [e'|];
    repeat split; try discriminate; try tauto; try (intros; intuition discriminate);
    intros; unfold UserType_Valid in Eut;
    repeat (destruct (decide _) in Eut); congruence.
Qed.

Lemma UserResourceMapping_Validate_checks_witness :
  UserResourceMapping_Validate sample.resourceValid sample.mapping = None /\
  UserResourceMapping_Validate sample.resourceValid
    (MkUserResourceMapping InvalidID "guest" "nothing" InvalidID)
    = Some ErrResourceIDRequired /\
  UserResourceMapping_Validate sample.resourceValid
    (MkUserResourceMapping InvalidID "guest" "nothing" sample.idB)
    = Some ErrUserIDRequired /\
  UserResourceMapping_Validate sample.resourceValid
    (MkUserResourceMapping sample.idA "guest" "nothing" sample.idB)
    = Some ErrInvalidUserType.
Proof.
  split; [|split; [|split]].
  - apply (proj1 (UserResourceMapping_Validate_checks sample.resourceValid
                    sample.mapping)).
    repeat split; try reflexivity. left. reflexivity.
  - apply (proj1 (proj2 (UserResourceMapping_Validate_checks sample.resourceValid _))).
    reflexivity.
  - apply (proj1 (proj2 (proj2
             (UserResourceMapping_Validate_checks sample.resourceValid _))));
      reflexivity.
  - apply (proj2 (proj2 (proj2
             (UserResourceMapping_Validate_checks sample.resourceValid _))));
      try reflexivity; discriminate.
Defined.

(** X7: [ToPermissions] gives an owner the permission to write and the
    permission to read the resource, in that order, and a member the
    permission to read it; so whatever a member may do on a resource, an
    owner of it may do as well.  A user type that is neither is refused
    with [ErrInvalidUserType] before any permission is made, and a failure
    to make a permission is returned as it is, with no permissions. *)
Theorem ToPermissions_by_user_type NewPermissionAtID m :
  let make := fun a => NewPermissionAtID (ResourceID m) a (Mapping_Resource m) in
  (Mapping_UserType m = Owner ->
     ToPermissions NewPermissionAtID m
     = match make WriteAction, make ReadAction with
       | inr pw, inr pr => inr [pw; pr]
       | inl err, _ => inl err
       | inr _, inl err => inl err
       end) /\
  (Mapping_UserType m = Member ->
     ToPermissions NewPermissionAtID m
     = match make ReadAction with
       | inr pr => inr [pr]
       | inl err => inl err
       end) /\
  (Mapping_UserType m <> Owner -> Mapping_UserType m <> Member ->
     ToPermissions NewPermissionAtID m = inl ErrInvalidUserType) /\
  (forall user ps,
     ToPermissions NewPermissionAtID
       (MkUserResourceMapping user Owner (Mapping_Resource m) (ResourceID m)) = inr ps ->
     exists ps',
       ToPermissions NewPermissionAtID
         (MkUserResourceMapping (UserID m) Member (Mapping_Resource m) (ResourceID m))
         = inr ps' /\
       ps' ⊆ ps).
Proof.
  intros make. unfold ToPermissions, ownerPerms, memberPerms. repeat split.
  - intros ->. simpl. fold (make WriteAction) (make ReadAction).
    destruct (make WriteAction), (make ReadAction); reflexivity.
  - intros ->. simpl. fold (make ReadAction).
    destruct (make ReadAction); reflexivity.
  - intros Ho Hm. destruct (decide _); [contradiction|].
    destruct (decide _); [contradiction | reflexivity].
  - intros user ps. simpl. fold (make WriteAction) (make ReadAction).
    destruct (make WriteAction) as [e|pw]; [discriminate|].
    destruct (make ReadAction) as [e|pr]; [discriminate|].
    intros [= <-]. exists [pr]. split; [reflexivity|].
    intros p Hp. apply list_elem_of_singleton in Hp as ->. right. left.
Qed.

Lemma ToPermissions_by_user_type_witness :
  ToPermissions sample.permissionAt sample.mapping
    = inr [MkPermission WriteAction BucketsResource (Some sample.idB);
           MkPermission ReadAction BucketsResource (Some sample.idB)] /\
  ToPermissions sample.permissionAt
    (MkUserResourceMapping sample.idA "guest" BucketsResource sample.idB)
    = inl ErrInvalidUserType /\
  exists ps',
    ToPermissions sample.permissionAt
      (MkUserResourceMapping sample.idA Member BucketsResource sample.idB) = inr ps' /\
    ps' ⊆ [MkPermission WriteAction BucketsResource (Some sample.idB);
           MkPermission ReadAction BucketsResource (Some sample.idB)].
Proof.
  split; [|split].
  - apply (proj1 (ToPermissions_by_user_type sample.permissionAt sample.mapping)).
    reflexivity.
  - apply (proj1 (proj2 (proj2
             (ToPermissions_by_user_type sample.permissionAt
                (MkUserResourceMapping sample.idA "guest" BucketsResource sample.idB)))));
      discriminate.
  - apply (proj2 (proj2 (proj2
             (ToPermissions_by_user_type sample.permissionAt sample.mapping)))
             sample.idA).
    reflexivity.
Defined.

(** ** A dashboard that cannot be loaded *)

Lemma ReplaceDashboardCells_lookup_fail id cs s e s0 :
  FindDashboardByID id s = Fail e s0 ->
  ReplaceDashboardCells id cs s
    = Fail (wrapOp (OpPrefix ++ OpReplaceDashboardCells) e) s.
Proof.
  intros Hfind. pose proof (FindDashboardByID_Fail_state _ _ _ _ Hfind) as ->.
  unfold ReplaceDashboardCells. cbv zeta. apply bind_Fail, labelled_Fail, Hfind.
Qed.

Lemma AddDashboardCell_lookup_fail id cell opts s e s0 :
  FindDashboardByID id s = Fail e s0 ->
  AddDashboardCell id cell opts s
    = Fail (wrapOp (OpPrefix ++ OpAddDashboardCell) e) s.
Proof.
  intros Hfind. pose proof (FindDashboardByID_Fail_state _ _ _ _ Hfind) as ->.
  unfold AddDashboardCell. cbv zeta. apply bind_Fail, labelled_Fail, Hfind.
Qed.

Lemma PutDashboardCell_lookup_fail id cell s e s0 :
  FindDashboardByID id s = Fail e s0 -> PutDashboardCell id cell s = Fail e s.
Proof.
  intros Hfind. pose proof (FindDashboardByID_Fail_state _ _ _ _ Hfind) as ->.
  unfold PutDashboardCell. apply bind_Fail, Hfind.
Qed.

Lemma RemoveDashboardCell_lookup_fail id cellID s e s0 :
  FindDashboardByID id s = Fail e s0 ->
  RemoveDashboardCell id cellID s
    = Fail (wrapOp (OpPrefix ++ OpRemoveDashboardCell) e) s.
Proof.
  intros Hfind. pose proof (FindDashboardByID_Fail_state _ _ _ _ Hfind) as ->.
  unfold RemoveDashboardCell. cbv zeta. apply bind_Fail, labelled_Fail, Hfind.
Qed.

Lemma UpdateDashboardCell_lookup_fail id cellID upd s e s0 :
  CellUpdate_Valid upd = None ->
  FindDashboardByID id s = Fail e s0 ->
  UpdateDashboardCell id cellID upd s
    = Fail (wrapOp (OpPrefix ++ OpUpdateDashboardCell) e) s.
Proof.
  intros Hvalid Hfind. pose proof (FindDashboardByID_Fail_state _ _ _ _ Hfind) as ->.
  unfold UpdateDashboardCell. cbv zeta.
  erewrite bind_Return by (apply labelled_Return; rewrite Hvalid; reflexivity).
  apply bind_Fail, labelled_Fail, Hfind.
Qed.

Lemma UpdateDashboard_lookup_fail id upd s e s0 :
  DashboardUpdate_Valid upd = None ->
  FindDashboardByID id s = Fail e s0 ->
  UpdateDashboard id upd s = Fail (wrapOp (OpPrefix ++ OpUpdateDashboard) e) s.
Proof.
  intros Hvalid Hfind. pose proof (FindDashboardByID_Fail_state _ _ _ _ Hfind) as ->.
  unfold UpdateDashboard. cbv zeta.
  erewrite bind_Return by (apply labelled_Return; rewrite Hvalid; reflexivity).
  apply bind_Fail, labelled_Fail, Hfind.
Qed.

Lemma UpdateDashboardCell_invalid id cellID upd s e :
  CellUpdate_Valid upd = Some e ->
  UpdateDashboardCell id cellID upd s
    = Fail (wrapOp (OpPrefix ++ OpUpdateDashboardCell) e) s.
Proof.
  intros Hvalid. unfold UpdateDashboardCell. cbv zeta.
  apply bind_Fail, labelled_Fail. rewrite Hvalid. reflexivity.
Qed.

Lemma UpdateDashboard_invalid id upd s e :
  DashboardUpdate_Valid upd = Some e ->
  UpdateDashboard id upd s = Fail (wrapOp (OpPrefix ++ OpUpdateDashboard) e) s.
Proof.
  intros Hvalid. unfold UpdateDashboard. cbv zeta.
  apply bind_Fail, labelled_Fail. rewrite Hvalid. reflexivity.
Qed.

(** X8: Every operation that works on the dashboard with a given ID starts
    by loading it, and when that fails it gives up before it touches
    anything: the service is left as it was (no ID is drawn, the clock is
    not read, no view is stored), and the error is the one of
    [FindDashboardByID] under the label of the operation.
    [PutDashboardCell] alone returns that error without a label of its
    own. *)
Theorem dashboard_lookup_failure_propagates s id e s0 :
  FindDashboardByID id s = Fail e s0 ->
  (forall cell opts,
     AddDashboardCell id cell opts s
       = Fail (wrapOp (OpPrefix ++ OpAddDashboardCell) e) s) /\
  (forall cell, PutDashboardCell id cell s = Fail e s) /\
  (forall cellID,
     RemoveDashboardCell id cellID s
       = Fail (wrapOp (OpPrefix ++ OpRemoveDashboardCell) e) s) /\
  (forall cs,
     ReplaceDashboardCells id cs s
       = Fail (wrapOp (OpPrefix ++ OpReplaceDashboardCells) e) s) /\
  (forall cellID upd,
     CellUpdate_Valid upd = None ->
     UpdateDashboardCell id cellID upd s
       = Fail (wrapOp (OpPrefix ++ OpUpdateDashboardCell) e) s) /\
  (forall upd,
     DashboardUpdate_Valid upd = None ->
     UpdateDashboard id upd s
       = Fail (wrapOp (OpPrefix ++ OpUpdateDashboard) e) s).
Proof.
  intros Hfind. repeat split.
  - intros cell opts. exact (AddDashboardCell_lookup_fail id cell opts s e s0 Hfind).
  - intros cell. exact (PutDashboardCell_lookup_fail id cell s e s0 Hfind).
  - intros cellID. exact (RemoveDashboardCell_lookup_fail id cellID s e s0 Hfind).
  - intros cs. exact (ReplaceDashboardCells_lookup_fail id cs s e s0 Hfind).
  - intros cellID upd Hvalid.
    exact (UpdateDashboardCell_lookup_fail id cellID upd s e s0 Hvalid Hfind).
  - intros upd Hvalid. exact (UpdateDashboard_lookup_fail id upd s e s0 Hvalid Hfind).
Qed.

Lemma dashboard_lookup_failure_propagates_witness :
  AddDashboardCell sample.idX sample.pNew (MkAddDashboardCellOptions InvalidID)
    sample.svc
    = Fail (wrapOps ["inmem/AddDashboardCell"; "inmem/FindDashboardByID"]
              (PError ENotFound ErrDashboardNotFound "" None)) sample.svc /\
  PutDashboardCell sample.idD sample.pX sample.svcBad
    = Fail (wrapOp "inmem/FindDashboardByID"
              (PError EInvalid "type *influxdb.Bucket is not a dashboard" "" None))
        sample.svcBad /\
  UpdateDashboard sample.idX sample.rename sample.svc
    = Fail (wrapOps ["inmem/UpdateDashboard"; "inmem/FindDashboardByID"]
              (PError ENotFound ErrDashboardNotFound "" None)) sample.svc.
Proof.
  split; [|split].
  - apply (proj1 (dashboard_lookup_failure_propagates sample.svc sample.idX _
                    sample.svc eq_refl)).
  - apply (proj1 (proj2 (dashboard_lookup_failure_propagates sample.svcBad sample.idD _
                           sample.svcBad eq_refl))).
  - apply (proj2 (proj2 (proj2 (proj2 (proj2
             (dashboard_lookup_failure_propagates sample.svc sample.idX _
                sample.svc eq_refl)))))).
    reflexivity.
Defined.

(** ** Creating and updating a dashboard *)

Lemma CreateDashboard_run d dv s :
  heap s !! d = Some dv ->
  let id := IDGenerator s (IDGenerator_calls s) in
  let dv1 := set_CreatedAt (time s (time_calls s)) (set_Dashboard_ID id dv) in
  let s1 :=
    set_heap (<[d := dv1]> (<[d := set_Dashboard_ID id dv]> (heap s)))
      (set_time_calls (S (time_calls s))
         (set_IDGenerator_calls (S (IDGenerator_calls s)) s)) in
  CreateDashboard d s = Return tt (putWithMeta d dv1 s1).
Proof.
  intros Hd id dv1 s1. unfold CreateDashboard.
  erewrite bind_Return by reflexivity.
  erewrite bind_Return by (apply assign_Some; exact Hd).
  erewrite bind_Return by reflexivity.
  erewrite bind_Return by (apply assign_Some; simpl; apply lookup_insert_eq).
  apply labelled_Return.
  apply PutDashboardWithMeta_run. simpl. apply lookup_insert_eq.
Qed.

(** X9: [CreateDashboard] cannot fail on a dashboard object: it gives the
    object the next ID of the generator, stamps [CreatedAt] with one
    reading of the clock and [UpdatedAt] with the next, and leaves name,
    description and cells alone.  Afterwards [FindDashboardByID] on the new
    ID gives that very object; whatever was stored under that ID before is
    overwritten, and every other key and every other object is as
    before. *)
Theorem CreateDashboard_then_find d dv s :
  heap s !! d = Some dv ->
  let id := IDGenerator s (IDGenerator_calls s) in
  exists s',
    CreateDashboard d s = Return tt s' /\
    FindDashboardByID id s' = Return d s' /\
    heap s' !! d
      = Some (MkDashboard id (Dashboard_Name dv) (Dashboard_Description dv) (Cells dv)
                (MkDashboardMeta (time s (time_calls s)) (time s (S (time_calls s))))) /\
    IDGenerator_calls s' = S (IDGenerator_calls s) /\
    time_calls s' = S (S (time_calls s)) /\
    (forall k, k <> ID_String id -> dashboardKV s' !! k = dashboardKV s !! k) /\
    (forall d', d' <> d -> heap s' !! d' = heap s !! d').
Proof.
  intros Hd id. eexists. split; [apply CreateDashboard_run, Hd|].
  split; [|split; [|split; [|split; [|split]]]].
  - apply FindDashboardByID_found. simpl. apply lookup_insert_eq.
  - rewrite putWithMeta_heap. reflexivity.
  - reflexivity.
  - reflexivity.
  - intros k Hk. simpl. apply lookup_insert_ne.
    intros Heq. apply Hk. rewrite <- Heq. reflexivity.
  - intros d' Hd'. simpl. rewrite !lookup_insert_ne by congruence. reflexivity.
Qed.

Lemma CreateDashboard_then_find_witness :
  exists s',
    CreateDashboard 2%positive sample.svc2 = Return tt s' /\
    FindDashboardByID sample.idN s' = Return 2%positive s' /\
    heap s' !! 2%positive
      = Some (MkDashboard sample.idN "dashboard2" "" []
                (MkDashboardMeta 1000%Z 1001%Z)) /\
    heap s' !! 1%positive = Some sample.dash.
Proof.
  destruct (CreateDashboard_then_find 2%positive sample.fresh sample.svc2 eq_refl)
    as (s' & Hrun & Hfind & Hobj & _ & _ & _ & Hheap).
  exists s'. split; [exact Hrun|]. split; [exact Hfind|]. split; [exact Hobj|].
  rewrite Hheap by discriminate. reflexivity.
Defined.

Lemma UpdateDashboard_eq s id d dv upd :
  dashboardKV s !! ID_String id = Some (VDashboard d) ->
  heap s !! d = Some dv ->
  DashboardUpdate_Valid upd = None ->
  UpdateDashboard id upd s
  = let dv' := fst (DashboardUpdate_Apply upd dv) in
    let s1 := set_heap (<[d := dv']> (heap s)) s in
    match snd (DashboardUpdate_Apply upd dv) with
    | Some e => Fail (wrapOp (OpPrefix ++ OpUpdateDashboard) e) s1
    | None => Return d (putWithMeta d dv' s1)
    end.
Proof.
  intros Hkv Hd Hvalid. unfold UpdateDashboard. cbv zeta.
  erewrite bind_Return by (apply labelled_Return; rewrite Hvalid; reflexivity).
  erewrite bind_Return
    by (apply labelled_Return, FindDashboardByID_found; exact Hkv).
  erewrite bind_Return by (apply deref_Some; exact Hd).
  erewrite bind_Return by (apply assign_Some; exact Hd).
  destruct (snd (DashboardUpdate_Apply upd dv)) as [e|].
  - apply bind_Fail. reflexivity.
  - erewrite bind_Return by reflexivity.
    erewrite bind_Return
      by (apply labelled_Return, PutDashboardWithMeta_run; simpl; apply lookup_insert_eq).
    unfold putWithMeta. simpl. reflexivity.
Qed.

(** X10: [UpdateDashboard] with a patch that is valid and applies: the
    pointer returned is the one stored, the object it leads to is the
    patched dashboard with [UpdatedAt] set to the one reading of the clock
    the call makes, every other object is as before, and the dashboard is
    still found under the ID it was asked for. *)
Theorem UpdateDashboard_applies_patch s id d dv dv' upd :
  dashboardKV s !! ID_String id = Some (VDashboard d) ->
  heap s !! d = Some dv ->
  DashboardUpdate_Valid upd = None ->
  DashboardUpdate_Apply upd dv = (dv', None) ->
  exists s',
    UpdateDashboard id upd s = Return d s' /\
    heap s' !! d = Some (set_UpdatedAt (time s (time_calls s)) dv') /\
    time_calls s' = S (time_calls s) /\
    (forall d', d' <> d -> heap s' !! d' = heap s !! d') /\
    FindDashboardByID id s' = Return d s' /\
    FindDashboardByID (Dashboard_ID dv') s' = Return d s'.
Proof.
  intros Hkv Hd Hvalid Happly. eexists. split.
  { rewrite (UpdateDashboard_eq s id d dv upd Hkv Hd Hvalid). cbv zeta.
    rewrite Happly. simpl. reflexivity. }
  split; [|split; [|split; [|split]]].
  - rewrite putWithMeta_heap. reflexivity.
  - reflexivity.
  - intros d' Hd'. simpl. rewrite !lookup_insert_ne by congruence. reflexivity.
  - apply FindDashboardByID_found, putWithMeta_dashboardKV. exact Hkv.
  - apply FindDashboardByID_found. simpl. apply lookup_insert_eq.
Qed.

Lemma UpdateDashboard_applies_patch_witness :
  exists s',
    UpdateDashboard sample.idD sample.rename sample.svc = Return 1%positive s' /\
    heap s' !! 1%positive
      = Some (MkDashboard sample.idD "renamed" "" [sample.pA; sample.pB]
                (MkDashboardMeta 5%Z 1000%Z)).
Proof.
  destruct (UpdateDashboard_applies_patch sample.svc sample.idD 1%positive sample.dash
              _ sample.rename eq_refl eq_refl eq_refl eq_refl)
    as (s' & Hrun & Hobj & _).
  exists s'. split; [exact Hrun | exact Hobj].
Defined.

(** X11: [UpdateDashboard] does not undo a patch that fails half way: the
    error of [Apply] comes back under the label of the operation, the
    object is left the way [Apply] left it, its [UpdatedAt] is not
    refreshed (the clock is not read), and the maps are as before. *)
Theorem UpdateDashboard_failed_patch_stays s id d dv dv' e upd :
  dashboardKV s !! ID_String id = Some (VDashboard d) ->
  heap s !! d = Some dv ->
  DashboardUpdate_Valid upd = None ->
  DashboardUpdate_Apply upd dv = (dv', Some e) ->
  UpdateDashboard id upd s
    = Fail (wrapOp (OpPrefix ++ OpUpdateDashboard) e)
        (set_heap (<[d := dv']> (heap s)) s).
Proof.
  intros Hkv Hd Hvalid Happly.
  rewrite (UpdateDashboard_eq s id d dv upd Hkv Hd Hvalid). cbv zeta.
  rewrite Happly. reflexivity.
Qed.

Lemma UpdateDashboard_failed_patch_stays_witness :
  UpdateDashboard sample.idD sample.renameThenFail sample.svc
    = Fail (wrapOp "inmem/UpdateDashboard" (Opaque "patch failed"))
        (set_heap
           (<[1%positive :=
                MkDashboard sample.idD "renamed" "" [sample.pA; sample.pB]
                  (MkDashboardMeta 5%Z 5%Z)]> (heap sample.svc)) sample.svc).
Proof.
  apply (UpdateDashboard_failed_patch_stays sample.svc sample.idD 1%positive
           sample.dash _ _ sample.renameThenFail); reflexivity.
Defined.

(** ** The cell an operation acts on *)

Lemma take_drop_middle_out {A : Type} (pre post : list A) (x : A) :
  (take (List.length pre) (pre ++ x :: post)
   ++ drop (S (List.length pre)) (pre ++ x :: post))%list = (pre ++ post)%list.
Proof.
  rewrite take_app_length.
  rewrite drop_app_ge by (simpl; lia).
  replace (S (List.length pre) - List.length pre)%nat with 1%nat by lia.
  reflexivity.
Qed.

(** X12: Removing or updating a cell the dashboard does not hold fails
    with the code [ENotFound], the message [cell not found] and the label
    of the operation, and leaves the service as it was: no view is
    deleted, the patch is not applied, [UpdatedAt] is not refreshed. *)
Theorem unknown_cell_not_found s id d dv cellID :
  dashboardKV s !! ID_String id = Some (VDashboard d) ->
  heap s !! d = Some dv ->
  cellID ∉ Cell_ID <$> (cells s <$> Cells dv) ->
  RemoveDashboardCell id cellID s
    = Fail (PError ENotFound ErrCellNotFound "inmem/RemoveDashboardCell" None) s /\
  (forall upd,
     CellUpdate_Valid upd = None ->
     UpdateDashboardCell id cellID upd s
       = Fail (PError ENotFound ErrCellNotFound "inmem/UpdateDashboardCell" None) s).
Proof.
  intros Hkv Hd Hfresh. apply cellIndex_None in Hfresh. split.
  - rewrite (RemoveDashboardCell_eq s id d dv cellID Hkv Hd), Hfresh. reflexivity.
  - intros upd Hvalid.
    rewrite (UpdateDashboardCell_eq s id d dv cellID upd Hkv Hd Hvalid), Hfresh.
    reflexivity.
Qed.

Lemma unknown_cell_not_found_witness :
  RemoveDashboardCell sample.idD sample.idX sample.svc
    = Fail (PError ENotFound ErrCellNotFound "inmem/RemoveDashboardCell" None)
        sample.svc /\
  UpdateDashboardCell sample.idD sample.idX sample.moveCell sample.svc
    = Fail (PError ENotFound ErrCellNotFound "inmem/UpdateDashboardCell" None)
        sample.svc.
Proof.
  assert (Hfresh : sample.idX
                   ∉ Cell_ID <$> (cells sample.svc <$> Cells sample.dash)).
  { apply cellIndex_None. reflexivity. }
  pose proof (unknown_cell_not_found sample.svc sample.idD 1%positive sample.dash
                sample.idX eq_refl eq_refl Hfresh) as [Hremove Hupdate].
  split; [exact Hremove | apply Hupdate; reflexivity].
Defined.

(** X13: [UpdateDashboardCell] applies the patch through the pointer of
    the first entry whose cell carries the ID.  The cell object that
    pointer leads to becomes the patched cell, so the patch shows at every
    place that holds the pointer; every other cell object is as before;
    the dashboard keeps its sequence of pointers and gets as [UpdatedAt]
    the one reading of the clock the call makes; other dashboards and the
    view store are untouched; and the pointer is what the call returns. *)
Theorem UpdateDashboardCell_patches_object s id d dv pre p post upd c' :
  dashboardKV s !! ID_String id = Some (VDashboard d) ->
  heap s !! d = Some dv ->
  Cells dv = (pre ++ p :: post)%list ->
  Cell_ID (cells s p) ∉ Cell_ID <$> (cells s <$> pre) ->
  CellUpdate_Valid upd = None ->
  CellUpdate_Apply upd (cells s p) = (c', None) ->
  exists s',
    UpdateDashboardCell id (Cell_ID (cells s p)) upd s = Return p s' /\
    cells s' p = c' /\
    (forall q, q <> p -> cells s' q = cells s q) /\
    heap s' !! d = Some (set_UpdatedAt (time s (time_calls s)) dv) /\
    (forall d', d' <> d -> heap s' !! d' = heap s !! d') /\
    viewKV s' = viewKV s /\
    time_calls s' = S (time_calls s) /\
    FindDashboardByID id s' = Return d s'.
Proof.
  intros Hkv Hd Hcells Hpre Hvalid Happly. eexists. split.
  { rewrite (UpdateDashboardCell_eq s id d dv _ upd Hkv Hd Hvalid), Hcells.
    rewrite (cellIndex_first_ptr (cells s) _ pre p post eq_refl Hpre).
    rewrite list_lookup_middle by reflexivity. cbv zeta.
    rewrite Happly. simpl. reflexivity. }
  split; [|split; [|split; [|split; [|split; [|split]]]]].
  - simpl. apply fn_lookup_insert.
  - intros q Hq. simpl. apply fn_lookup_insert_ne. congruence.
  - rewrite putWithMeta_heap. reflexivity.
  - intros d' Hd'. simpl. apply lookup_insert_ne. congruence.
  - reflexivity.
  - reflexivity.
  - apply FindDashboardByID_found, putWithMeta_dashboardKV. exact Hkv.
Qed.

Lemma UpdateDashboardCell_patches_object_witness :
  exists s' dv',
    UpdateDashboardCell sample.idD sample.idA sample.moveCell sample.svcTwice
      = Return sample.pA s' /\
    heap s' !! 1%positive = Some dv' /\
    Cells dv' = [sample.pA; sample.pB; sample.pA] /\
    cells s' <$> Cells dv'
      = [MkCell sample.idA sample.idV 0%Z 0%Z 4%Z 4%Z; sample.cellB;
         MkCell sample.idA sample.idV 0%Z 0%Z 4%Z 4%Z].
Proof.
  destruct (UpdateDashboardCell_patches_object sample.svcTwice sample.idD 1%positive
              (set_Cells [sample.pA; sample.pB; sample.pA] sample.dash)
              [] sample.pA [sample.pB; sample.pA] sample.moveCell
              (MkCell sample.idA sample.idV 0%Z 0%Z 4%Z 4%Z)
              eq_refl eq_refl eq_refl)
    as (s' & Hrun & Hp & Hq & Hobj & _).
  - apply not_elem_of_nil.
  - reflexivity.
  - reflexivity.
  - exists s'. eexists. split; [exact Hrun|]. split; [exact Hobj|].
    split; [reflexivity|]. simpl. rewrite Hp.
    rewrite (Hq sample.pB) by discriminate. reflexivity.
Defined.

(** X14: [UpdateDashboardCell] does not undo a patch that fails: the
    error of [Apply] comes back under the label of the operation, and the
    cell object is left the way [Apply] left it, which shows through every
    pointer to it; the dashboards, [UpdatedAt] included, the view store
    and the clock are as before. *)
Theorem UpdateDashboardCell_failed_patch_stays s id d dv pre p post upd c' e :
  dashboardKV s !! ID_String id = Some (VDashboard d) ->
  heap s !! d = Some dv ->
  Cells dv = (pre ++ p :: post)%list ->
  Cell_ID (cells s p) ∉ Cell_ID <$> (cells s <$> pre) ->
  CellUpdate_Valid upd = None ->
  CellUpdate_Apply upd (cells s p) = (c', Some e) ->
  UpdateDashboardCell id (Cell_ID (cells s p)) upd s
    = Fail (wrapOp (OpPrefix ++ OpUpdateDashboardCell) e)
        (set_cells (<[p := c']> (cells s)) s).
Proof.
  intros Hkv Hd Hcells Hpre Hvalid Happly.
  rewrite (UpdateDashboardCell_eq s id d dv _ upd Hkv Hd Hvalid), Hcells.
  rewrite (cellIndex_first_ptr (cells s) _ pre p post eq_refl Hpre).
  rewrite list_lookup_middle by reflexivity. cbv zeta.
  rewrite Happly. reflexivity.
Qed.

Lemma UpdateDashboardCell_failed_patch_stays_witness :
  UpdateDashboardCell sample.idD sample.idA sample.moveThenFail sample.svcTwice
    = Fail (wrapOp "inmem/UpdateDashboardCell" (Opaque "patch failed"))
        (set_cells
           (<[sample.pA := MkCell sample.idA sample.idV 0%Z 0%Z 4%Z 4%Z]>
              (cells sample.svcTwice)) sample.svcTwice).
Proof.
  apply (UpdateDashboardCell_failed_patch_stays sample.svcTwice sample.idD 1%positive
           (set_Cells [sample.pA; sample.pB; sample.pA] sample.dash)
           [] sample.pA [sample.pB; sample.pA] sample.moveThenFail);
    try reflexivity.
  apply not_elem_of_nil.
Defined.

(** X15: [RemoveDashboardCell] detaches the first cell that carries the
    ID and no other: the remaining cells keep their order, the view of the
    detached cell is deleted from the view store (given that [DeleteView]
    finds it there), and [UpdatedAt] of the dashboard is refreshed. *)
Theorem RemoveDashboardCell_removes_first s id d dv pre p post :
  dashboardKV s !! ID_String id = Some (VDashboard d) ->
  heap s !! d = Some dv ->
  Cells dv = (pre ++ p :: post)%list ->
  Cell_ID (cells s p) ∉ Cell_ID <$> (cells s <$> pre) ->
  is_Some (viewKV s !! ID_String (Cell_ViewID (cells s p))) ->
  exists s',
    RemoveDashboardCell id (Cell_ID (cells s p)) s = Return tt s' /\
    heap s' !! d
      = Some (set_UpdatedAt (time s (time_calls s))
                (set_Cells (pre ++ post)%list dv)) /\
    cells s' = cells s /\
    viewKV s' = delete (ID_String (Cell_ViewID (cells s p))) (viewKV s) /\
    FindDashboardByID id s' = Return d s'.
Proof.
  intros Hkv Hd Hcells Hpre [v Hview]. eexists. split.
  { rewrite (RemoveDashboardCell_eq s id d dv _ Hkv Hd), Hcells.
    rewrite (cellIndex_first_ptr (cells s) _ pre p post eq_refl Hpre).
    rewrite list_lookup_middle by reflexivity. rewrite Hview. cbv zeta.
    rewrite take_drop_middle_out. reflexivity. }
  split; [|split; [|split]].
  - rewrite putWithMeta_heap. reflexivity.
  - reflexivity.
  - reflexivity.
  - apply FindDashboardByID_found, putWithMeta_dashboardKV. exact Hkv.
Qed.

Lemma RemoveDashboardCell_removes_first_witness :
  exists s',
    RemoveDashboardCell sample.idD sample.idA sample.svc = Return tt s' /\
    heap s' !! 1%positive
      = Some (MkDashboard sample.idD "dashboard1" "" [sample.pB]
                (MkDashboardMeta 5%Z 1000%Z)) /\
    viewKV s' !! ID_String sample.idV = None.
Proof.
  destruct (RemoveDashboardCell_removes_first sample.svc sample.idD 1%positive
              sample.dash [] sample.pA [sample.pB] eq_refl eq_refl eq_refl)
    as (s' & Hrun & Hobj & _ & Hviews & _).
  - apply not_elem_of_nil.
  - exists (VView (MkView sample.idV "")). reflexivity.
  - exists s'. split; [exact Hrun|]. split; [exact Hobj|].
    rewrite Hviews. apply lookup_delete_eq.
Defined.

(** ** What [ReplaceDashboardCells] accepts *)

Lemma attachedCell_NoDup cells cl :
  NoDup (Cell_ID <$> cells) -> cl ∈ cells ->
  attachedCell (Cell_ID cl) cells = Some cl.
Proof.
  induction cells as [|c cells IH]; simpl.
  - intros _ Hin. inversion Hin.
  - rewrite NoDup_cons. intros [Hfresh Hnodup]. rewrite elem_of_cons.
    intros [->|Hin].
    + apply attachedCell_None in Hfresh. rewrite Hfresh.
      destruct (decide (Cell_ID c = Cell_ID c)); [reflexivity | congruence].
    + rewrite (IH Hnodup Hin). reflexivity.
Qed.

(** A proposed cell passes when its ID is valid and some attached cell has
    its ID and its view. *)
Lemma not_rejected_iff cells c :
  NoDup (Cell_ID <$> cells) ->
  ~ rejected cells c <->
  ID_Valid (Cell_ID c) = true /\
  exists cl, cl ∈ cells /\ Cell_ID cl = Cell_ID c /\ Cell_ViewID cl = Cell_ViewID c.
Proof.
  intros Hnodup. unfold rejected. split.
  - intros Hnot. split.
    + destruct (ID_Valid (Cell_ID c)); [reflexivity | exfalso; apply Hnot; left; reflexivity].
    + destruct (attachedCell (Cell_ID c) cells) as [cl|] eqn:Hatt.
      * destruct (attachedCell_Some _ _ _ Hatt) as [Hid Hin].
        exists cl. split; [exact Hin|]. split; [exact Hid|].
        destruct (decide (Cell_ViewID cl = Cell_ViewID c)) as [Hv|Hv]; [exact Hv|].
        exfalso. apply Hnot. right. right. exists cl. split; [reflexivity | exact Hv].
      * exfalso. apply Hnot. right. left. apply attachedCell_None, Hatt.
  - intros [Hvalid (cl & Hin & Hid & Hview)] [Hinv|[Hfresh|(cl' & Hatt & Hdiff)]].
    + congruence.
    + apply Hfresh. rewrite <- Hid. apply list_elem_of_fmap. exists cl. split; [reflexivity | exact Hin].
    + rewrite <- Hid, (attachedCell_NoDup cells cl Hnodup Hin) in Hatt.
      injection Hatt as <-. contradiction.
Qed.

(** X16: On a dashboard whose cells have distinct IDs,
    [ReplaceDashboardCells] succeeds exactly when every proposed cell has a
    valid ID and agrees with some attached cell on ID and view; position
    and size are free, cells may be dropped, and nothing else is checked.
    In particular any reordering of the attached cells is accepted when
    their IDs are valid. *)
Theorem ReplaceDashboardCells_accepts_iff s id d dv :
  dashboardKV s !! ID_String id = Some (VDashboard d) ->
  heap s !! d = Some dv ->
  NoDup (Cell_ID <$> (cells s <$> Cells dv)) ->
  (forall cs,
     ReplaceDashboardCells id cs s = Return tt (replaced d dv cs s) <->
     Forall (fun c =>
               ID_Valid (Cell_ID c) = true /\
               exists cl, cl ∈ cells s <$> Cells dv /\ Cell_ID cl = Cell_ID c /\
                          Cell_ViewID cl = Cell_ViewID c) (cells s <$> cs)) /\
  (forall cs s', ReplaceDashboardCells id cs s = Return tt s' -> s' = replaced d dv cs s) /\
  (forall cs,
     Forall (fun c => ID_Valid (Cell_ID c) = true) (cells s <$> Cells dv) ->
     cs ≡ₚ Cells dv ->
     ReplaceDashboardCells id cs s = Return tt (replaced d dv cs s)).
Proof.
  intros Hkv Hd Hnodup.
  assert (Hiff : forall cs,
            ReplaceDashboardCells id cs s = Return tt (replaced d dv cs s) <->
            Forall (fun c =>
               ID_Valid (Cell_ID c) = true /\
               exists cl, cl ∈ cells s <$> Cells dv /\ Cell_ID cl = Cell_ID c /\
                          Cell_ViewID cl = Cell_ViewID c) (cells s <$> cs)).
  { intros cs. rewrite (ReplaceDashboardCells_run s id d dv cs Hkv Hd).
    pose proof (replaceCheck_None (OpPrefix ++ OpReplaceDashboardCells)
                  (cells s <$> Cells dv) (cells s <$> cs)) as Hcheck.
    assert (Hcells :
      Forall (fun c => ~ rejected (cells s <$> Cells dv) c) (cells s <$> cs) <->
      Forall (fun c =>
                ID_Valid (Cell_ID c) = true /\
                exists cl, cl ∈ cells s <$> Cells dv /\ Cell_ID cl = Cell_ID c /\
                           Cell_ViewID cl = Cell_ViewID c) (cells s <$> cs)).
    { rewrite !Forall_forall. split; intros H c Hc;
        apply (not_rejected_iff (cells s <$> Cells dv) c Hnodup), H, Hc. }
    rewrite <- Hcells, <- Hcheck.
    destruct (replaceCheck _ _ (cells s <$> cs)); split; congruence. }
  split; [exact Hiff|]. split.
  - intros cs s'. rewrite (ReplaceDashboardCells_run s id d dv cs Hkv Hd).
    destruct (replaceCheck _ _ (cells s <$> cs)); congruence.
  - intros cs Hvalid Hperm. apply Hiff.
    apply Forall_forall. intros c Hc.
    assert (Hin : c ∈ cells s <$> Cells dv).
    { rewrite <- (fmap_Permutation (cells s) _ _ Hperm). exact Hc. }
    split.
    + exact (proj1 (Forall_forall _ _) Hvalid c Hin).
    + exists c. auto.
Qed.

Lemma ReplaceDashboardCells_accepts_iff_witness :
  ReplaceDashboardCells sample.idD [sample.pB; sample.pA] sample.svc
    = Return tt (replaced 1%positive sample.dash [sample.pB; sample.pA]
                   sample.svc) /\
  ReplaceDashboardCells sample.idD [sample.pA'; sample.pA'] sample.svc
    = Return tt (replaced 1%positive sample.dash [sample.pA'; sample.pA']
                   sample.svc).
Proof.
  assert (Hnodup : NoDup (Cell_ID <$> (cells sample.svc <$> Cells sample.dash))).
  { change (NoDup [sample.idA; sample.idB]).
    apply NoDup_cons. split; [|apply NoDup_singleton].
    intros Hin. apply list_elem_of_singleton in Hin. discriminate. }
  pose proof (ReplaceDashboardCells_accepts_iff sample.svc sample.idD 1%positive
                sample.dash eq_refl eq_refl Hnodup) as (Hiff & _ & Hperm).
  split.
  - apply Hperm.
    + repeat constructor.
    + apply perm_swap.
  - apply Hiff. repeat constructor;
      exists sample.cellA; (split; [left | split; reflexivity]).
Defined.

(** A list of cells that passed the checks against the attached cells
    passes them against itself. *)
Lemma not_rejected_self cells cs :
  Forall (fun c => ~ rejected cells c) cs ->
  Forall (fun c => ~ rejected cs c) cs.
Proof.
  intros Hpass. rewrite Forall_forall in Hpass. apply Forall_forall. intros c Hc.
  assert (Hview : forall c0, c0 ∈ cs ->
            exists cl0, attachedCell (Cell_ID c0) cells = Some cl0 /\
                        Cell_ViewID cl0 = Cell_ViewID c0).
  { intros c0 Hc0. specialize (Hpass c0 Hc0). unfold rejected in Hpass.
    destruct (attachedCell (Cell_ID c0) cells) as [cl0|] eqn:Hatt.
    - exists cl0. split; [reflexivity|].
      destruct (decide (Cell_ViewID cl0 = Cell_ViewID c0)) as [Hv|Hv]; [exact Hv|].
      exfalso. apply Hpass. right. right. exists cl0. auto.
    - exfalso. apply Hpass. right. left. apply attachedCell_None, Hatt. }
  intros [Hinv|[Hfresh|(cl' & Hatt & Hdiff)]].
  - apply (Hpass c Hc). left. exact Hinv.
  - apply Hfresh. apply list_elem_of_fmap. exists c. auto.
  - destruct (attachedCell_Some _ _ _ Hatt) as [Hid Hin].
    destruct (Hview c Hc) as (cl0 & Hatt0 & Hv0).
    destruct (Hview cl' Hin) as (cl1 & Hatt1 & Hv1).
    rewrite Hid, Hatt0 in Hatt1. injection Hatt1 as <-. congruence.
Qed.

(** X17: A replacement that went through can be repeated: running
    [ReplaceDashboardCells] again with the same cells on the service the
    first run left behind succeeds too, and leaves the same cells and the
    same views; only [UpdatedAt] moves on to the next reading of the
    clock. *)
Theorem ReplaceDashboardCells_again s id d dv cs s1 :
  dashboardKV s !! ID_String id = Some (VDashboard d) ->
  heap s !! d = Some dv ->
  ReplaceDashboardCells id cs s = Return tt s1 ->
  exists s2,
    ReplaceDashboardCells id cs s1 = Return tt s2 /\
    heap s2 !! d
      = Some (set_UpdatedAt (time s (S (time_calls s))) (set_Cells cs dv)) /\
    viewKV s2 = viewKV s /\
    cells s2 = cells s /\
    dashboardKV s2 !! ID_String id = Some (VDashboard d).
Proof.
  intros Hkv Hd Hrun.
  rewrite (ReplaceDashboardCells_run s id d dv cs Hkv Hd) in Hrun.
  destruct (replaceCheck _ _ (cells s <$> cs)) as [e|] eqn:Hcheck; [discriminate|].
  injection Hrun as <-.
  apply replaceCheck_None in Hcheck.
  pose proof (not_rejected_self (cells s <$> Cells dv) (cells s <$> cs) Hcheck)
    as Hself.
  assert (Hkv1 : dashboardKV (replaced d dv cs s) !! ID_String id = Some (VDashboard d)).
  { apply putWithMeta_dashboardKV, Hkv. }
  assert (Hd1 : heap (replaced d dv cs s) !! d
                = Some (set_UpdatedAt (time s (time_calls s)) (set_Cells cs dv))).
  { apply putWithMeta_heap. }
  eexists. split.
  { rewrite (ReplaceDashboardCells_run _ id d _ cs Hkv1 Hd1).
    apply (replaceCheck_None (OpPrefix ++ OpReplaceDashboardCells)) in Hself.
    change (cells (replaced d dv cs s)) with (cells s).
    simpl Cells. rewrite Hself. reflexivity. }
  split; [|split; [|split]].
  - unfold replaced at 1. rewrite putWithMeta_heap. reflexivity.
  - reflexivity.
  - reflexivity.
  - apply putWithMeta_dashboardKV, Hkv1.
Qed.

Lemma ReplaceDashboardCells_again_witness :
  exists s1 s2,
    ReplaceDashboardCells sample.idD [sample.pB; sample.pA'] sample.svc
      = Return tt s1 /\
    ReplaceDashboardCells sample.idD [sample.pB; sample.pA'] s1 = Return tt s2 /\
    heap s2 !! 1%positive
      = Some (MkDashboard sample.idD "dashboard1" "" [sample.pB; sample.pA']
                (MkDashboardMeta 5%Z 1001%Z)).
Proof.
  exists (replaced 1%positive sample.dash [sample.pB; sample.pA'] sample.svc).
  destruct (ReplaceDashboardCells_again sample.svc sample.idD 1%positive sample.dash
              [sample.pB; sample.pA']
              (replaced 1%positive sample.dash [sample.pB; sample.pA'] sample.svc)
              eq_refl eq_refl eq_refl)
    as (s2 & Hrun & Hobj & _).
  exists s2. split; [reflexivity|]. split; [exact Hrun | exact Hobj].
Defined.

(** ** Scanning the dashboards *)

Lemma ID_String_elem_of id (ids : list ID) :
  ID_String id ∈ ID_String <$> ids <-> id ∈ ids.
Proof.
  rewrite list_elem_of_fmap. split.
  - intros (id' & Heq & Hin). apply ID_String_inj in Heq. congruence.
  - intros Hin. exists id. auto.
Qed.

Lemma filterDashboardFn_run filter d dv s :
  heap s !! d = Some dv ->
  filterDashboardFn filter d s
  = Return (bool_decide (IDs filter = [] \/ Dashboard_ID dv ∈ IDs filter)) s.
Proof.
  intros Hd. unfold filterDashboardFn.
  destruct (decide (0 < List.length (IDs filter))) as [Hlen|Hlen].
  - erewrite bind_Return by (apply deref_Some; exact Hd).
    unfold mret, M_ret. f_equal. apply bool_decide_ext.
    rewrite ID_String_elem_of. split; [auto|].
    intros [Hnil|Hin]; [|exact Hin]. rewrite Hnil in Hlen. simpl in Hlen. lia.
  - unfold mret, M_ret. f_equal. symmetry. apply bool_decide_eq_true. left.
    destruct (IDs filter); [reflexivity | simpl in Hlen; lia].
Qed.

Lemma filterDashboardFn_state filter d s :
  match filterDashboardFn filter d s with
  | Return _ s' => s' = s
  | Fail _ _ => False
  | Panic => True
  end.
Proof.
  unfold filterDashboardFn. destruct (decide _); [|reflexivity].
  unfold mbind, M_bind, deref. destruct (heap s !! d); [reflexivity | exact I].
Qed.

Lemma rangeDashboards_state filter kvs ds s :
  match rangeDashboards (filterDashboardFn filter) kvs ds s with
  | Return _ s' => s' = s
  | Fail _ _ => False
  | Panic => True
  end.
Proof.
  revert ds. induction kvs as [|[k i] kvs IH]; intros ds; simpl; [reflexivity|].
  destruct i; try reflexivity.
  unfold mbind, M_bind.
  pose proof (filterDashboardFn_state filter d s) as Hf.
  destruct (filterDashboardFn filter d s) as [keep s'| |]; [subst s' | contradiction | exact I].
  apply IH.
Qed.

Lemma rangeDashboards_all filter kvs acc s :
  (forall k i, (k, i) ∈ kvs -> exists d, i = VDashboard d /\ is_Some (heap s !! d)) ->
  exists ds,
    rangeDashboards (filterDashboardFn filter) kvs acc s = Return (acc ++ ds)%list s /\
    forall d, d ∈ ds <->
      exists k dv, (k, VDashboard d) ∈ kvs /\ heap s !! d = Some dv /\
                   (IDs filter = [] \/ Dashboard_ID dv ∈ IDs filter).
Proof.
  revert acc. induction kvs as [|[k i] kvs IH]; intros acc Hall.
  - exists []. split; [simpl; rewrite app_nil_r; reflexivity|].
    intros d. split; [intros H; inversion H|].
    intros (k & dv & Hin & _). inversion Hin.
  - destruct (Hall k i) as (d & -> & dv & Hd); [left|].
    assert (Hall' : forall k i, (k, i) ∈ kvs ->
                      exists d, i = VDashboard d /\ is_Some (heap s !! d)).
    { intros k' i' Hin. apply (Hall k' i'). right. exact Hin. }
    simpl. erewrite bind_Return by (apply filterDashboardFn_run; exact Hd).
    destruct (bool_decide (IDs filter = [] \/ Dashboard_ID dv ∈ IDs filter)) eqn:Hkeep.
    + apply bool_decide_eq_true in Hkeep.
      destruct (IH (acc ++ [d])%list Hall') as (ds & Hrun & Hds).
      exists (d :: ds). split.
      { rewrite Hrun. rewrite <- app_assoc. reflexivity. }
      intros d0. rewrite elem_of_cons, Hds. split.
      * intros [->|(k' & dv' & Hin & Hrest)].
        -- exists k, dv. split; [left | auto].
        -- exists k', dv'. split; [right; exact Hin | exact Hrest].
      * intros (k' & dv' & Hin & Hd0 & Hpass).
        apply elem_of_cons in Hin as [[= -> ->]|Hin]; [left; reflexivity|].
        right. exists k', dv'. auto.
    + apply bool_decide_eq_false in Hkeep.
      destruct (IH acc Hall') as (ds & Hrun & Hds).
      exists ds. split; [exact Hrun|].
      intros d0. rewrite Hds. split.
      * intros (k' & dv' & Hin & Hrest). exists k', dv'. split; [right; exact Hin | exact Hrest].
      * intros (k' & dv' & Hin & Hd0 & Hpass).
        apply elem_of_cons in Hin as [[= -> ->]|Hin].
        -- rewrite Hd in Hd0. injection Hd0 as <-. contradiction.
        -- exists k', dv'. auto.
Qed.

(** X18: [FindDashboards] only reads: whatever it returns, the service is
    the one it started on.  It can fail only when the filter names exactly
    one ID, and then never with the code [ENotFound]; with any other
    filter the scan reports no error at all. *)
Theorem FindDashboards_read_only SortDashboards filter opts s :
  (forall r s',
     FindDashboards SortDashboards filter opts s = Return r s' ->
     s' = s /\ snd r = List.length (fst r)) /\
  (forall e s',
     FindDashboards SortDashboards filter opts s = Fail e s' ->
     s' = s /\ (exists id, IDs filter = [id]) /\ ErrorCode (Some e) <> ENotFound).
Proof.
  assert (Hscan :
    match (kv ← gets dashboardKV;
           ds ← rangeDashboards (filterDashboardFn filter) (map_to_list kv) [];
           h ← gets heap;
           mret (SortDashboards (SortBy opts) h ds,
                 List.length (SortDashboards (SortBy opts) h ds))) s with
    | Return r s' => s' = s /\ snd r = List.length (fst r)
    | Fail _ _ => False
    | Panic => True
    end).
  { unfold mbind, M_bind, gets.
    pose proof (rangeDashboards_state filter (map_to_list (dashboardKV s)) [] s) as Hr.
    destruct (rangeDashboards _ _ _ s) as [ds s'| |]; [subst s' | contradiction | exact I].
    split; reflexivity. }
  assert (Hone : forall id,
    match FindDashboards SortDashboards (MkDashboardFilter [id]) opts s with
    | Return r s' => s' = s /\ snd r = List.length (fst r)
    | Fail e s' => s' = s /\ ErrorCode (Some e) <> ENotFound
    | Panic => True
    end).
  { intros id. unfold FindDashboards. cbn [IDs].
    destruct (FindDashboardByID id s) as [d s'|e s'|] eqn:Hfind; [| |exact I].
    - apply FindDashboardByID_Return_inv in Hfind as [-> _].
      destruct (heap s !! d); split; reflexivity.
    - apply FindDashboardByID_Fail_state in Hfind as ->.
      destruct (decide (ErrorCode (Some e) = ENotFound)) as [Hc|Hc].
      + split; reflexivity.
      + split; [reflexivity|]. unfold ErrorCode in *.
        rewrite errorCode_wrapOp. exact Hc. }
  destruct filter as [ids]. destruct ids as [|id [|id' ids]].
  - change (FindDashboards SortDashboards (MkDashboardFilter []) opts s)
      with ((kv ← gets dashboardKV;
             ds ← rangeDashboards (filterDashboardFn (MkDashboardFilter []))
                    (map_to_list kv) [];
             h ← gets heap;
             mret (SortDashboards (SortBy opts) h ds,
                   List.length (SortDashboards (SortBy opts) h ds))) s).
    split; intros ? ? Heq; rewrite Heq in Hscan; [exact Hscan | contradiction].
  - specialize (Hone id).
    split; intros ? ? Heq; rewrite Heq in Hone; [exact Hone|].
    destruct Hone as [Hs Hc]. split; [exact Hs|]. split; [eauto | exact Hc].
  - change (FindDashboards SortDashboards (MkDashboardFilter (id :: id' :: ids)) opts s)
      with ((kv ← gets dashboardKV;
             ds ← rangeDashboards
                    (filterDashboardFn (MkDashboardFilter (id :: id' :: ids)))
                    (map_to_list kv) [];
             h ← gets heap;
             mret (SortDashboards (SortBy opts) h ds,
                   List.length (SortDashboards (SortBy opts) h ds))) s).
    split; intros ? ? Heq; rewrite Heq in Hscan; [exact Hscan | contradiction].
Qed.

Lemma FindDashboards_read_only_witness :
  (exists r,
     FindDashboards (fun _ _ ds => ds) (MkDashboardFilter []) (MkFindOptions "")
       sample.svc = Return r sample.svc /\
     snd r = List.length (fst r)) /\
  (exists e,
     FindDashboards (fun _ _ ds => ds) (MkDashboardFilter [sample.idD])
       (MkFindOptions "") sample.svcBad = Fail e sample.svcBad /\
     ErrorCode (Some e) <> ENotFound).
Proof.
  split.
  - exists ([1%positive], 1%nat).
    assert (Hrun : FindDashboards (fun _ _ ds => ds) (MkDashboardFilter [])
                     (MkFindOptions "") sample.svc
                   = Return ([1%positive], 1%nat) sample.svc) by reflexivity.
    split; [exact Hrun|].
    exact (proj2 (proj1 (FindDashboards_read_only _ _ _ _) _ _ Hrun)).
  - eexists.
    assert (Hrun : FindDashboards (fun _ _ ds => ds) (MkDashboardFilter [sample.idD])
                     (MkFindOptions "") sample.svcBad
                   = Fail (wrapOps ["inmem/FindDashboards"; "inmem/FindDashboardByID"]
                             (PError EInvalid "type *influxdb.Bucket is not a dashboard"
                                "" None)) sample.svcBad) by reflexivity.
    split; [exact Hrun|].
    exact (proj2 (proj2 (proj2 (FindDashboards_read_only _ _ _ _) _ _ Hrun))).
Defined.

(** X19: With a filter that names no ID, or more than one, [FindDashboards]
    scans the whole map: when every value in it is a pointer to a
    dashboard object, the pointers it hands to [SortDashboards] are exactly
    those of the stored dashboards that pass the filter, all of them for
    the empty filter and the ones whose ID the filter names otherwise, and
    the count is the length of the sorted list. *)
Theorem FindDashboards_scan SortDashboards filter opts s :
  List.length (IDs filter) <> 1%nat ->
  (forall k i, dashboardKV s !! k = Some i ->
     exists d, i = VDashboard d /\ is_Some (heap s !! d)) ->
  exists ds,
    FindDashboards SortDashboards filter opts s
      = Return (SortDashboards (SortBy opts) (heap s) ds,
                List.length (SortDashboards (SortBy opts) (heap s) ds)) s /\
    forall d, d ∈ ds <->
      exists k dv, dashboardKV s !! k = Some (VDashboard d) /\
                   heap s !! d = Some dv /\
                   (IDs filter = [] \/ Dashboard_ID dv ∈ IDs filter).
Proof.
  intros Hlen Hall.
  destruct (rangeDashboards_all filter (map_to_list (dashboardKV s)) [] s)
    as (ds & Hrun & Hds).
  { intros k i Hin. apply elem_of_map_to_list in Hin. exact (Hall k i Hin). }
  exists ds. split.
  - assert (Hbody :
      (kv ← gets dashboardKV;
       ds ← rangeDashboards (filterDashboardFn filter) (map_to_list kv) [];
       h ← gets heap;
       mret (SortDashboards (SortBy opts) h ds,
             List.length (SortDashboards (SortBy opts) h ds))) s
      = Return (SortDashboards (SortBy opts) (heap s) ds,
                List.length (SortDashboards (SortBy opts) (heap s) ds)) s).
    { erewrite bind_Return by reflexivity.
      erewrite bind_Return by exact Hrun.
      reflexivity. }
    unfold FindDashboards. destruct (IDs filter) as [|id [|id' ids]]; cbv zeta;
      [exact Hbody | simpl in Hlen; congruence | exact Hbody].
  - intros d. rewrite Hds. split; intros (k & dv & Hin & Hrest); exists k, dv;
      (split; [|exact Hrest]); apply elem_of_map_to_list; exact Hin.
Qed.

Lemma FindDashboards_scan_witness :
  exists ds,
    FindDashboards (fun _ _ ds => ds) (MkDashboardFilter [sample.idX; sample.idD])
      (MkFindOptions "") sample.svc = Return (ds, List.length ds) sample.svc /\
    1%positive ∈ ds.
Proof.
  destruct (FindDashboards_scan (fun _ _ ds => ds)
              (MkDashboardFilter [sample.idX; sample.idD]) (MkFindOptions "") sample.svc)
    as (ds & Hrun & Hds).
  - simpl. lia.
  - intros k i Hk. unfold sample.svc in Hk. simpl in Hk.
    apply lookup_singleton_Some in Hk as [_ <-].
    exists 1%positive. split; [reflexivity|]. exists sample.dash. reflexivity.
  - exists ds. split; [exact Hrun|]. apply Hds.
    exists (ID_String sample.idD), sample.dash.
    split; [reflexivity|]. split; [reflexivity|]. right. right. left.
Defined.

(** ** Dashboards are stored under their own ID *)

Lemma FindDashboardByID_no_dashboard id s :
  (forall d, dashboardKV s !! ID_String id <> Some (VDashboard d)) ->
  exists e, FindDashboardByID id s = Fail e s.
Proof.
  intros Hno. destruct (dashboardKV s !! ID_String id) as [i|] eqn:Hkv.
  - eexists. apply (FindDashboardByID_other id i s Hkv).
    intros d ->. exact (Hno d eq_refl).
  - eexists. apply FindDashboardByID_absent, Hkv.
Qed.

Lemma wellKeyed_update s s' d dv dv' :
  wellKeyed s ->
  heap s !! d = Some dv ->
  Dashboard_ID dv' = Dashboard_ID dv ->
  heap s' = <[d := dv']> (heap s) ->
  (forall k, dashboardKV s' !! k = dashboardKV s !! k \/
             (k = ID_String (Dashboard_ID dv) /\
              dashboardKV s' !! k = Some (VDashboard d))) ->
  wellKeyed s'.
Proof.
  intros Hwk Hd Hid Hheap Hkv k d0 Hk. rewrite Hheap.
  destruct (Hkv k) as [Hsame|[-> Hnew]].
  - rewrite Hsame in Hk. destruct (Hwk k d0 Hk) as (dv0 & Hd0 & Hkey).
    destruct (decide (d0 = d)) as [->|Hne].
    + exists dv'. rewrite lookup_insert_eq. split; [reflexivity|]. congruence.
    + exists dv0. rewrite lookup_insert_ne by congruence. auto.
  - rewrite Hnew in Hk. injection Hk as <-.
    exists dv'. rewrite lookup_insert_eq. split; [reflexivity | congruence].
Qed.

Lemma wellKeyed_stored s s' d dv dv' :
  wellKeyed s ->
  heap s !! d = Some dv ->
  Dashboard_ID dv' = Dashboard_ID dv ->
  heap s' = <[d := dv']> (heap s) ->
  dashboardKV s' = <[ID_String (Dashboard_ID dv) := VDashboard d]> (dashboardKV s) ->
  wellKeyed s'.
Proof.
  intros Hwk Hd Hid Hheap Hkv. apply (wellKeyed_update s s' d dv dv' Hwk Hd Hid Hheap).
  intros k. rewrite Hkv. destruct (decide (k = ID_String (Dashboard_ID dv))) as [->|Hne].
  - right. split; [reflexivity | apply lookup_insert_eq].
  - left. apply lookup_insert_ne. congruence.
Qed.

Lemma wellKeyed_edited s s' d dv dv' :
  wellKeyed s ->
  heap s !! d = Some dv ->
  Dashboard_ID dv' = Dashboard_ID dv ->
  heap s' = <[d := dv']> (heap s) ->
  dashboardKV s' = dashboardKV s ->
  wellKeyed s'.
Proof.
  intros Hwk Hd Hid Hheap Hkv. apply (wellKeyed_update s s' d dv dv' Hwk Hd Hid Hheap).
  intros k. left. rewrite Hkv. reflexivity.
Qed.

Lemma wellKeyed_same s s' :
  heap s' = heap s -> dashboardKV s' = dashboardKV s -> wellKeyed s -> wellKeyed s'.
Proof.
  intros Hheap Hkv Hwk k d Hk. rewrite Hheap. apply Hwk. rewrite <- Hkv. exact Hk.
Qed.

Lemma wellKeyed_deleted s s' key :
  wellKeyed s ->
  heap s' = heap s ->
  dashboardKV s' = delete key (dashboardKV s) ->
  wellKeyed s'.
Proof.
  intros Hwk Hheap Hkv k d Hk. rewrite Hheap. apply (Hwk k d).
  rewrite Hkv in Hk. apply lookup_delete_Some in Hk as [_ Hk]. exact Hk.
Qed.

Lemma DeleteDashboard_run deleteLabel id d s :
  dashboardKV s !! ID_String id = Some (VDashboard d) ->
  let s1 := set_dashboardKV (delete (ID_String id) (dashboardKV s)) s in
  let s2 := set_labelKV (fst (deleteLabel id s1)) s1 in
  DeleteDashboard deleteLabel id s
  = match snd (deleteLabel id s1) with
    | Some e => Fail (wrapOp (OpPrefix ++ OpDeleteDashboard) e) s2
    | None => Return tt s2
    end.
Proof.
  intros Hkv s1 s2. unfold DeleteDashboard. cbv zeta.
  erewrite bind_Return by (apply labelled_Return, FindDashboardByID_found; exact Hkv).
  erewrite bind_Return by reflexivity.
  erewrite bind_Return by reflexivity.
  fold s1. unfold labelled, check. destruct (snd (deleteLabel id s1)); reflexivity.
Qed.

Lemma DeleteDashboard_lookup_fail deleteLabel id s e s0 :
  FindDashboardByID id s = Fail e s0 ->
  DeleteDashboard deleteLabel id s
    = Fail (wrapOp (OpPrefix ++ OpDeleteDashboard) e) s.
Proof.
  intros Hfind. pose proof (FindDashboardByID_Fail_state _ _ _ _ Hfind) as ->.
  unfold DeleteDashboard. cbv zeta. apply bind_Fail, labelled_Fail, Hfind.
Qed.

(** The case analysis every proof below starts with: the dashboard is
    stored and its object is there, or loading it fails. *)
Lemma wellKeyed_cases s id :
  wellKeyed s ->
  (exists d dv, dashboardKV s !! ID_String id = Some (VDashboard d) /\
                heap s !! d = Some dv /\ Dashboard_ID dv = id) \/
  (exists e, FindDashboardByID id s = Fail e s).
Proof.
  intros Hwk. destruct (dashboardKV s !! ID_String id) as [[d| | | | |]|] eqn:Hkv.
  - left. destruct (Hwk _ _ Hkv) as (dv & Hd & Hkey).
    exists d, dv. split; [reflexivity|]. split; [exact Hd|].
    apply ID_String_inj, Hkey.
  - right. apply FindDashboardByID_no_dashboard. rewrite Hkv. discriminate.
  - right. apply FindDashboardByID_no_dashboard. rewrite Hkv. discriminate.
  - right. apply FindDashboardByID_no_dashboard. rewrite Hkv. discriminate.
  - right. apply FindDashboardByID_no_dashboard. rewrite Hkv. discriminate.
  - right. apply FindDashboardByID_no_dashboard. rewrite Hkv. discriminate.
  - right. apply FindDashboardByID_no_dashboard. rewrite Hkv. discriminate.
Qed.

(** X20: The operations keep the dashboards where they belong.  When
    every pointer in the dashboard map leads to an object and is stored
    under the ID that object carries, a dashboard found under an ID has
    that ID, and the same holds of the service any of these operations
    leaves behind, whether it succeeds or fails: replacing cells, updating
    a cell, deleting a dashboard, updating a dashboard with a patch that
    keeps the ID, and creating a dashboard from an object that is not
    stored yet. *)
Theorem wellKeyed_preserved s id :
  wellKeyed s ->
  (forall d,
     FindDashboardByID id s = Return d s ->
     exists dv, heap s !! d = Some dv /\ Dashboard_ID dv = id) /\
  (forall cs s',
     left_behind (ReplaceDashboardCells id cs s) = Some s' -> wellKeyed s') /\
  (forall cellID upd s',
     left_behind (UpdateDashboardCell id cellID upd s) = Some s' -> wellKeyed s') /\
  (forall deleteLabel s',
     left_behind (DeleteDashboard deleteLabel id s) = Some s' -> wellKeyed s') /\
  (forall upd s',
     (forall dv, Dashboard_ID (fst (DashboardUpdate_Apply upd dv)) = Dashboard_ID dv) ->
     left_behind (UpdateDashboard id upd s) = Some s' -> wellKeyed s') /\
  (forall d s',
     (forall k, dashboardKV s !! k <> Some (VDashboard d)) ->
     left_behind (CreateDashboard d s) = Some s' -> wellKeyed s').
Proof.
  intros Hwk. split; [|split; [|split; [|split; [|split]]]].
  - intros d Hfind. apply FindDashboardByID_Return_inv in Hfind as [_ Hkv].
    destruct (Hwk _ _ Hkv) as (dv & Hd & Hkey).
    exists dv. split; [exact Hd | apply ID_String_inj, Hkey].
  - intros cs s'.
    destruct (wellKeyed_cases s id Hwk) as [(d & dv & Hkv & Hd & Hid)|[e Hfind]].
    + rewrite (ReplaceDashboardCells_run s id d dv cs Hkv Hd).
      destruct (replaceCheck _ _ (cells s <$> cs)); intros [= <-]; [exact Hwk|].
      apply (wellKeyed_stored s _ d dv
               (set_UpdatedAt (time s (time_calls s)) (set_Cells cs dv)) Hwk Hd);
        reflexivity.
    + rewrite (ReplaceDashboardCells_lookup_fail id cs s e s Hfind).
      intros [= <-]. exact Hwk.
  - intros cellID upd s'.
    destruct (CellUpdate_Valid upd) as [ev|] eqn:Hvalid.
    { rewrite (UpdateDashboardCell_invalid id cellID upd s ev Hvalid).
      intros [= <-]. exact Hwk. }
    destruct (wellKeyed_cases s id Hwk) as [(d & dv & Hkv & Hd & Hid)|[e Hfind]].
    + rewrite (UpdateDashboardCell_eq s id d dv cellID upd Hkv Hd Hvalid).
      destruct (cellIndex cellID (cells s <$> Cells dv)) as [idx|];
        [|intros [= <-]; exact Hwk].
      destruct (Cells dv !! idx) as [p|]; [|discriminate].
      cbv zeta. destruct (snd (CellUpdate_Apply upd (cells s p))); intros [= <-].
      * apply (wellKeyed_same s); [reflexivity | reflexivity | exact Hwk].
      * apply (wellKeyed_stored s _ d dv (set_UpdatedAt (time s (time_calls s)) dv)
                 Hwk Hd); reflexivity.
    + rewrite (UpdateDashboardCell_lookup_fail id cellID upd s e s Hvalid Hfind).
      intros [= <-]. exact Hwk.
  - intros deleteLabel s'.
    destruct (wellKeyed_cases s id Hwk) as [(d & dv & Hkv & Hd & Hid)|[e Hfind]].
    + rewrite (DeleteDashboard_run deleteLabel id d s Hkv). cbv zeta.
      destruct (snd (deleteLabel id _)); intros [= <-];
        apply (wellKeyed_deleted s _ (ID_String id) Hwk); reflexivity.
    + rewrite (DeleteDashboard_lookup_fail deleteLabel id s e s Hfind).
      intros [= <-]. exact Hwk.
  - intros upd s' Hkeeps.
    destruct (DashboardUpdate_Valid upd) as [ev|] eqn:Hvalid.
    { rewrite (UpdateDashboard_invalid id upd s ev Hvalid).
      intros [= <-]. exact Hwk. }
    destruct (wellKeyed_cases s id Hwk) as [(d & dv & Hkv & Hd & Hid)|[e Hfind]].
    + rewrite (UpdateDashboard_eq s id d dv upd Hkv Hd Hvalid). cbv zeta.
      destruct (snd (DashboardUpdate_Apply upd dv)); intros [= <-].
      * apply (wellKeyed_edited s _ d dv (fst (DashboardUpdate_Apply upd dv)) Hwk Hd);
          [apply Hkeeps | reflexivity | reflexivity].
      * apply (wellKeyed_stored s _ d dv
                 (set_UpdatedAt (time s (time_calls s))
                    (fst (DashboardUpdate_Apply upd dv))) Hwk Hd).
        -- simpl. apply Hkeeps.
        -- simpl. apply insert_insert_eq.
        -- simpl. rewrite Hkeeps. reflexivity.
    + rewrite (UpdateDashboard_lookup_fail id upd s e s Hvalid Hfind).
      intros [= <-]. exact Hwk.
  - intros d s' Hnew.
    destruct (heap s !! d) as [dv|] eqn:Hd.
    + rewrite (CreateDashboard_run d dv s Hd). cbv zeta. intros [= <-].
      intros k d0. simpl.
      destruct (decide (k = ID_String (IDGenerator s (IDGenerator_calls s))))
        as [->|Hne].
      * rewrite lookup_insert_eq. intros [= <-]. rewrite lookup_insert_eq.
        eexists. split; reflexivity.
      * rewrite lookup_insert_ne by congruence. intros Hk.
        destruct (Hwk k d0 Hk) as (dv0 & Hd0 & Hkey).
        assert (d0 <> d) by (intros ->; exact (Hnew k Hk)).
        exists dv0. rewrite !lookup_insert_ne by congruence. auto.
    + unfold CreateDashboard.
      erewrite bind_Return by reflexivity.
      erewrite bind_Panic; [discriminate|].
      unfold assign. apply bind_Panic. unfold deref. simpl. rewrite Hd. reflexivity.
Qed.

Lemma sample_wellKeyed : wellKeyed sample.svc.
Proof.
  intros k d Hk. unfold sample.svc in Hk. simpl in Hk.
  apply lookup_singleton_Some in Hk as [<- [= <-]].
  exists sample.dash. split; reflexivity.
Defined.

Lemma wellKeyed_preserved_witness :
  wellKeyed (replaced 1%positive sample.dash [sample.pB] sample.svc) /\
  wellKeyed (set_dashboardKV (delete (ID_String sample.idD) (dashboardKV sample.svc))
               sample.svc).
Proof.
  pose proof (wellKeyed_preserved sample.svc sample.idD sample_wellKeyed)
    as (_ & Hreplace & _ & Hdelete & _).
  split.
  - apply (Hreplace [sample.pB]). reflexivity.
  - apply (Hdelete sample.quietDeleteLabel). reflexivity.
Defined.

(** X21: The cell operations that also work on the view store keep the
    dashboards where they belong as well: after [AddDashboardCell],
    [PutDashboardCell] or [RemoveDashboardCell], successful or not, every
    pointer in the dashboard map still leads to an object and is stored
    under the ID that object carries (the view operations they call work
    on the view store, the generator and the cell handed to them only). *)
Theorem wellKeyed_preserved_by_view_cells s id :
  wellKeyed s ->
  (forall cell opts s',
     left_behind (AddDashboardCell id cell opts s) = Some s' -> wellKeyed s') /\
  (forall cell s',
     left_behind (PutDashboardCell id cell s) = Some s' -> wellKeyed s') /\
  (forall cellID s',
     left_behind (RemoveDashboardCell id cellID s) = Some s' -> wellKeyed s').
Proof.
  intros Hwk. split; [|split].
  - intros cell opts s'.
    destruct (wellKeyed_cases s id Hwk) as [(d & dv & Hkv & Hd & Hid)|[e Hfind]].
    + rewrite (AddDashboardCell_eq s id d dv cell opts Hkv Hd).
      destruct (createViewIfNotExists cell opts (cellIDDrawn cell s))
        as [r s0|e s0|] eqn:Hview; [| |discriminate]; intros [= <-].
      * apply createViewIfNotExists_Return_inv in Hview as (Hheap & Hdash & _).
        simpl in Hheap, Hdash.
        apply (wellKeyed_stored s _ d dv
                 (set_UpdatedAt (time s0 (time_calls s0))
                    (set_Cells (Cells dv ++ [cell]) dv)) Hwk Hd).
        -- reflexivity.
        -- simpl. rewrite insert_insert_eq, Hheap. reflexivity.
        -- simpl. rewrite Hdash. reflexivity.
      * apply createViewIfNotExists_Fail_inv in Hview as ->.
        apply (wellKeyed_same s); [reflexivity | reflexivity | exact Hwk].
    + rewrite (AddDashboardCell_lookup_fail id cell opts s e s Hfind).
      intros [= <-]. exact Hwk.
  - intros cell s'.
    destruct (wellKeyed_cases s id Hwk) as [(d & dv & Hkv & Hd & Hid)|[e Hfind]].
    + rewrite (PutDashboardCell_eq s id d dv cell Hkv Hd). intros [= <-].
      apply (wellKeyed_stored s _ d dv (set_Cells (Cells dv ++ [cell]) dv) Hwk Hd);
        reflexivity.
    + rewrite (PutDashboardCell_lookup_fail id cell s e s Hfind).
      intros [= <-]. exact Hwk.
  - intros cellID s'.
    destruct (wellKeyed_cases s id Hwk) as [(d & dv & Hkv & Hd & Hid)|[e Hfind]].
    + rewrite (RemoveDashboardCell_eq s id d dv cellID Hkv Hd).
      destruct (cellIndex cellID (cells s <$> Cells dv)) as [idx|];
        [|intros [= <-]; exact Hwk].
      destruct (Cells dv !! idx) as [p|]; [|discriminate].
      destruct (viewKV s !! ID_String (Cell_ViewID (cells s p))); intros [= <-];
        [|exact Hwk].
      apply (wellKeyed_stored s _ d dv
               (set_UpdatedAt (time s (time_calls s))
                  (set_Cells (take idx (Cells dv) ++ drop (S idx) (Cells dv)) dv))
               Hwk Hd); try reflexivity.
      simpl. apply insert_insert_eq.
    + rewrite (RemoveDashboardCell_lookup_fail id cellID s e s Hfind).
      intros [= <-]. exact Hwk.
Qed.

Lemma wellKeyed_preserved_by_view_cells_witness :
  exists s',
    RemoveDashboardCell sample.idD sample.idA sample.svc = Return tt s' /\
    wellKeyed s'.
Proof.
  eexists. split; [reflexivity|].
  apply (proj2 (proj2 (wellKeyed_preserved_by_view_cells sample.svc sample.idD
                         sample_wellKeyed)) sample.idA).
  reflexivity.
Defined.
